(** * console.cpp: the raw-mode line editor of examples/console.cpp

    A shallow embedding of the working procedural console
    (examples/console.cpp with its header): the UTF-8 encoder, the
    wide-character reader, the cursor-position width probe, the
    advanced (raw-mode) readline loop and the simple (piped) readline.

    Conventions.
    - [char32_t], [wchar_t], [wint_t] and [int] values are [Z]; where the
      source can wrap, the wrap-around is written out.
    - A [std::string] is a [list Z] of bytes 0..255.  The source reads
      [line[pos]] as a (possibly signed) [char] and masks it with [0xC0];
      the mask gives the same answer on the unsigned value.
    - The process-wide [console_state] and the streams the code talks to
      are the fields of one [World] record threaded through a small state
      monad.  Output is kept as a trace of the write calls.
    - [fflush] and the [stderr] debug messages have no effect on any
      modelled value and are left out.

    Beside the readers the file covers [console_create] and
    [console_reset] over a [System] that adds the terminal attributes,
    the example program of examples/simple.cpp, and the line buffer of
    the prototype in src/console.cpp ([Proto]). *)

From Stdlib Require Import ZArith List Bool Lia.
From Stdlib Require Ascii String.
Import ListNotations.

Local Open Scope Z_scope.

(* ===================================================================== *)
(** ** Bytes and the UTF-8 encoder *)
(* ===================================================================== *)

Module Utf8.

(** [static_cast<unsigned char>(x)] *)
Definition to_uchar (x : Z) : Z := x mod 256.

(** [append_utf8(ch, out)]: the bytes pushed on the back of [out]. *)
Definition utf8_bytes (ch : Z) : list Z :=
  if ch <=? 0x7F then
    [to_uchar ch]
  else if ch <=? 0x7FF then
    [to_uchar (Z.lor 0xC0 (Z.land (Z.shiftr ch 6) 0x1F));
     to_uchar (Z.lor 0x80 (Z.land ch 0x3F))]
  else if ch <=? 0xFFFF then
    [to_uchar (Z.lor 0xE0 (Z.land (Z.shiftr ch 12) 0x0F));
     to_uchar (Z.lor 0x80 (Z.land (Z.shiftr ch 6) 0x3F));
     to_uchar (Z.lor 0x80 (Z.land ch 0x3F))]
  else if ch <=? 0x10FFFF then
    [to_uchar (Z.lor 0xF0 (Z.land (Z.shiftr ch 18) 0x07));
     to_uchar (Z.lor 0x80 (Z.land (Z.shiftr ch 12) 0x3F));
     to_uchar (Z.lor 0x80 (Z.land (Z.shiftr ch 6) 0x3F));
     to_uchar (Z.lor 0x80 (Z.land ch 0x3F))]
  else
    [].

Definition append_utf8 (ch : Z) (out : list Z) : list Z := out ++ utf8_bytes ch.

(** [(b & 0xC0) == 0x80]: a UTF-8 continuation byte. *)
Definition is_continuation (b : Z) : bool := Z.land b 0xC0 =? 0x80.

(** The [for] loop of [pop_back_utf8_char]: [n] is [3 - i]. *)
Fixpoint find_start (line : list Z) (n : nat) (pos : nat) : nat :=
  match n with
  | O => pos
  | S n' =>
      match pos with
      | O => pos
      | S pos' =>
          if negb (is_continuation (nth pos line 0)) then pos
          else find_start line n' pos'
      end
  end.

(** [pop_back_utf8_char(line)]; [line.erase(pos)] keeps the first [pos] bytes. *)
Definition pop_back_utf8_char (line : list Z) : list Z :=
  match line with
  | [] => []
  | _ => firstn (find_start line 3 (length line - 1)) line
  end.

(** Number of code points held by a byte buffer: its non-continuation
    bytes, the test [pop_back_utf8_char] uses to find where one starts. *)
Definition count_codepoints (line : list Z) : nat :=
  length (filter (fun b => negb (is_continuation b)) line).

(** A byte that can occur in UTF-8 text: not 0xC0 or 0xC1 (which could
    only begin an overlong form) and not 0xF5 or above. *)
Definition valid_byte (b : Z) : Prop := 0 <= b < 0xF5 /\ b <> 0xC0 /\ b <> 0xC1.

End Utf8.

(* ===================================================================== *)
(** ** The platform, the console state and the world around it *)
(* ===================================================================== *)

(** What the build and the locale fix: whether [WCHAR_MAX == 0xFFFF]
    (the [#if] in [getchar32]) and the locale's [wcwidth] table. *)
Record Platform := {
  wide16 : bool;
  wcwidth : Z -> Z
}.

Inductive console_mode_t :=
| CONSOLE_RESET
| CONSOLE_PROMPT
| CONSOLE_INPUT
| CONSOLE_ERROR.

Definition mode_eqb (a b : console_mode_t) : bool :=
  match a, b with
  | CONSOLE_RESET, CONSOLE_RESET
  | CONSOLE_PROMPT, CONSOLE_PROMPT
  | CONSOLE_INPUT, CONSOLE_INPUT
  | CONSOLE_ERROR, CONSOLE_ERROR => true
  | _, _ => false
  end.

(** The two [FILE*] the console writes to. *)
Inductive FILEp := Stdout | DevTty.

Record ConsoleIO := {
  simple : bool;
  multiline : bool;
  output : FILEp;
  teletype : option FILEp       (* [None] is [nullptr] *)
}.

Record ConsoleDisplay := {
  advanced : bool;
  mode : console_mode_t
}.

(** [struct ConsoleState]; the saved [termios] is not used by the readers. *)
Record ConsoleState := {
  io : ConsoleIO;
  display : ConsoleDisplay
}.

(** [std::cin]: the bytes not yet extracted and the three state bits. *)
Record istream := {
  buf : list Z;
  eofbit : bool;
  failbit : bool;
  badbit : bool
}.

Record World := {
  console_state : ConsoleState;
  stdin_wide : list Z;            (* units [getwchar] has still to deliver *)
  cin : istream;
  tty_reply : list Z;             (* bytes the terminal answers on the teletype *)
  ws_col : Z;                     (* [window_size.ws_col] of [TIOCGWINSZ] *)
  written : list (FILEp * list Z) (* every write call so far, oldest first *)
}.

Definition set_console_state (s : ConsoleState) (w : World) : World :=
  {| console_state := s; stdin_wide := stdin_wide w; cin := cin w;
     tty_reply := tty_reply w; ws_col := ws_col w; written := written w |}.

Definition set_stdin_wide (u : list Z) (w : World) : World :=
  {| console_state := console_state w; stdin_wide := u; cin := cin w;
     tty_reply := tty_reply w; ws_col := ws_col w; written := written w |}.

Definition set_cin (c : istream) (w : World) : World :=
  {| console_state := console_state w; stdin_wide := stdin_wide w; cin := c;
     tty_reply := tty_reply w; ws_col := ws_col w; written := written w |}.

Definition set_tty_reply (r : list Z) (w : World) : World :=
  {| console_state := console_state w; stdin_wide := stdin_wide w; cin := cin w;
     tty_reply := r; ws_col := ws_col w; written := written w |}.

Definition add_written (f : FILEp) (bytes : list Z) (w : World) : World :=
  {| console_state := console_state w; stdin_wide := stdin_wide w; cin := cin w;
     tty_reply := tty_reply w; ws_col := ws_col w;
     written := written w ++ [(f, bytes)] |}.

Definition set_mode (m : console_mode_t) (s : ConsoleState) : ConsoleState :=
  {| io := io s;
     display := {| advanced := advanced (display s); mode := m |} |}.

Definition set_multiline (b : bool) (s : ConsoleState) : ConsoleState :=
  {| io := {| simple := simple (io s); multiline := b; output := output (io s);
              teletype := teletype (io s) |};
     display := display s |}.

(* ===================================================================== *)
(** ** A state monad over the world; [None] means a loop ran out of fuel *)
(* ===================================================================== *)

(** [None] is a call that does not return.  In the readers that is a
    loop of the model out of fuel; in [fscanf_teletype_open] it is a
    read that waits on a terminal that sends nothing more. *)

Definition M (A : Type) : Type := World -> option (A * World).

Definition ret {A} (a : A) : M A := fun w => Some (a, w).

Definition bind {A B} (m : M A) (k : A -> M B) : M B :=
  fun w => match m w with
           | Some (a, w') => k a w'
           | None => None
           end.

Definition out_of_fuel {A} : M A := fun _ => None.

Declare Scope console_scope.
Delimit Scope console_scope with console.
Notation "x <- m ;; k" := (bind m (fun x => k))
  (at level 61, m at next level, right associativity) : console_scope.
Notation "m ;;; k" := (bind m (fun _ => k))
  (at level 61, right associativity) : console_scope.
Local Open Scope console_scope.

Definition get_console_state : M ConsoleState :=
  fun w => Some (console_state w, w).

Definition put_console_state (s : ConsoleState) : M unit :=
  fun w => Some (tt, set_console_state s w).

(** [fwrite]/[fputs]/[fprintf]/[putc] on a stream.  The trace records
    the call: the stream and the bytes handed to it.  Whether stdio
    delivers them to the device is not part of the model.  On the
    teletype, opened ["w+"], [put_codepoint] writes after an [fscanf]
    with no [fflush] or [fseek] between the two; glibc then delivers
    such a write only when the scan has left no input unread. *)
Definition fwrite (bytes : list Z) (f : FILEp) : M unit :=
  fun w => Some (tt, add_written f bytes w).

(** Runs a fuelled loop with one more step than there are units left on
    [stdin]: every turn of the two input loops takes a unit or stops. *)
Definition with_input_fuel {A} (loop : nat -> M A) : M A :=
  fun w => loop (S (length (stdin_wide w))) w.

(* ===================================================================== *)
(** ** ANSI text constants (console.h) *)
(* ===================================================================== *)

Definition ANSI_COLOR_RED : list Z := [27; 91; 51; 49; 109].     (* "\x1b[31m" *)
Definition ANSI_COLOR_GREEN : list Z := [27; 91; 51; 50; 109].   (* "\x1b[32m" *)
Definition ANSI_COLOR_YELLOW : list Z := [27; 91; 51; 51; 109].  (* "\x1b[33m" *)
Definition ANSI_COLOR_RESET : list Z := [27; 91; 48; 109].       (* "\x1b[0m" *)
Definition ANSI_BOLD : list Z := [27; 91; 49; 109].              (* "\x1b[1m" *)
Definition ANSI_CURSOR_POS_QUERY : list Z := [27; 91; 54; 110].  (* "\033[6n" *)

(** [EOF] of <stdio.h>. *)
Definition EOF : Z := -1.

(** An [int] result, wrapped to 32 bits two's complement. *)
Definition to_int (x : Z) : Z := (x + 2 ^ 31) mod 2 ^ 32 - 2 ^ 31.

(* ===================================================================== *)
(** ** Display mode *)
(* ===================================================================== *)

Definition ansi_of_mode (m : console_mode_t) : list Z :=
  match m with
  | CONSOLE_RESET => ANSI_COLOR_RESET
  | CONSOLE_PROMPT => ANSI_COLOR_YELLOW
  | CONSOLE_INPUT => ANSI_BOLD ++ ANSI_COLOR_GREEN
  | CONSOLE_ERROR => ANSI_BOLD ++ ANSI_COLOR_RED
  end.

(** [console_set_display_mode(mode)] *)
Definition console_set_display_mode (m : console_mode_t) : M unit :=
  s <- get_console_state ;;
  if advanced (display s) && negb (mode_eqb (mode (display s)) m) then
    fwrite (ansi_of_mode m) (output (io s)) ;;;
    put_console_state (set_mode m s)
  else
    ret tt.

(* ===================================================================== *)
(** ** Reading wide characters: [getchar32] *)
(* ===================================================================== *)

Section Reader.
Variable P : Platform.

(** [WEOF]: [(wint_t)-1], 16 or 32 bits wide as [wchar_t] is. *)
Definition WEOF : Z := if wide16 P then 0xFFFF else 0xFFFFFFFF.

(** A unit as it sits in a [wchar_t]/[wint_t]. *)
Definition to_wchar (u : Z) : Z := u mod (if wide16 P then 2 ^ 16 else 2 ^ 32).

(** [getwchar()] on the units left of the input: at the end it gives
    [WEOF] and stays there. *)
Definition getwchar_from (s : list Z) : Z * list Z :=
  match s with
  | [] => (WEOF, [])
  | u :: r => (to_wchar u, r)
  end.

Definition is_high_surrogate (wc : Z) : bool := (0xD800 <=? wc) && (wc <=? 0xDBFF).
Definition is_low_surrogate (wc : Z) : bool := (0xDC00 <=? wc) && (wc <=? 0xDFFF).
Definition is_surrogate (wc : Z) : bool := (0xD800 <=? wc) && (wc <=? 0xDFFF).

(** The value of a surrogate pair, as a [char32_t]. *)
Definition combine_surrogates (wc low : Z) : Z :=
  (Z.shiftl (Z.land wc 0x03FF) 10 + Z.land low 0x03FF + 0x10000) mod 2 ^ 32.

(** [getchar32()], threading the input it reads from. *)
Definition getchar32_from (s : list Z) : Z * list Z :=
  let '(wc, s1) := getwchar_from s in
  if wc =? WEOF then (WEOF, s1)
  else if wide16 P then
    (* the [#if WCHAR_MAX == 0xFFFF] block *)
    let '(paired, s2) :=
      if is_high_surrogate wc then
        let '(low_surrogate, s2) := getwchar_from s1 in
        if is_low_surrogate low_surrogate
        then (Some (combine_surrogates wc low_surrogate), s2)
        else (None, s2)
      else (None, s1) in
    match paired with
    | Some c => (c, s2)
    | None => if is_surrogate wc then (0xFFFD, s2) else (wc, s2)
    end
  else (wc, s1).

Definition getchar32 : M Z :=
  fun w => let '(c, r) := getchar32_from (stdin_wide w) in
           Some (c, set_stdin_wide r w).

End Reader.

(* ===================================================================== *)
(** ** The cursor-position probe: [fscanf] and [put_codepoint] *)
(* ===================================================================== *)

Module Scanf.

Definition isspace (c : Z) : bool := (c =? 32) || ((9 <=? c) && (c <=? 13)).
Definition isdigit (c : Z) : bool := (48 <=? c) && (c <=? 57).

Fixpoint skip_space (s : list Z) : list Z :=
  match s with
  | c :: r => if isspace c then skip_space r else s
  | [] => []
  end.

Fixpoint scan_digits (acc : Z) (s : list Z) : Z * list Z :=
  match s with
  | c :: r => if isdigit c then scan_digits (acc * 10 + (c - 48)) r else (acc, s)
  | [] => (acc, [])
  end.

Inductive conversion :=
| Converted (value : Z) (rest : list Z)
| MatchingFailure (rest : list Z)
| InputFailure.

(** [LONG_MIN] and [LONG_MAX] where [long] has 64 bits. *)
Definition LONG_MIN : Z := - 2 ^ 63.
Definition LONG_MAX : Z := 2 ^ 63 - 1.

(** What [strtol] makes of a sign and the value the digits write: it
    stops at [LONG_MIN] and [LONG_MAX]. *)
Definition strtol (negative : bool) (v : Z) : Z :=
  if negative then Z.max LONG_MIN (- v) else Z.min LONG_MAX v.

(** One [%d]: white space, an optional sign, decimal digits.  As glibc
    does it, the digits are converted by [strtol] and the [long] is
    stored into the [int]. *)
Definition scan_int (s : list Z) : conversion :=
  match skip_space s with
  | [] => InputFailure
  | c :: r =>
      let '(negative, s1) :=
        if c =? 45 then (true, r)           (* '-' *)
        else if c =? 43 then (false, r)     (* '+' *)
        else (false, c :: r) in
      match s1 with
      | [] => InputFailure
      | d :: _ =>
          if isdigit d then
            let '(v, rest) := scan_digits 0 s1 in
            Converted (to_int (strtol negative v)) rest
          else MatchingFailure s1
      end
  end.

(** What one [fscanf(f, "\033[%d;%dR", &y, &x)] leaves: its return value
    and the variables it assigned. *)
Record scanned := {
  assigned : Z;           (* 0, 1, 2 or EOF *)
  row : option Z;
  col : option Z
}.

Definition nothing_scanned (r : Z) : scanned :=
  {| assigned := r; row := None; col := None |}.

(** [fscanf(f, "\033[%d;%dR", &y, &x)] on the bytes [s] the stream
    holds, when nothing follows them: at the end of [s] the stream is at
    end-of-file (the terminal has hung up). *)
Definition fscanf_cursor_pos (s : list Z) : scanned * list Z :=
  match s with
  | [] => (nothing_scanned EOF, [])
  | c0 :: s0 =>
      if negb (c0 =? 27) then (nothing_scanned 0, s) else
      match s0 with
      | [] => (nothing_scanned EOF, [])
      | c1 :: s1 =>
          if negb (c1 =? 91) then (nothing_scanned 0, s0) else
          match scan_int s1 with
          | InputFailure => (nothing_scanned EOF, [])
          | MatchingFailure rest => (nothing_scanned 0, rest)
          | Converted y s2 =>
              let one := {| assigned := 1; row := Some y; col := None |} in
              match s2 with
              | [] => (one, [])
              | c2 :: s3 =>
                  if negb (c2 =? 59) then (one, s2) else
                  match scan_int s3 with
                  | InputFailure => (one, [])
                  | MatchingFailure rest => (one, rest)
                  | Converted x s4 =>
                      ({| assigned := 2; row := Some y; col := Some x |},
                       match s4 with
                       | c3 :: s5 => if c3 =? 82 then s5 else s4
                       | [] => []
                       end)
                  end
              end
          end
      end
  end.

(** The same conversions on a terminal that stays open, [s] being all
    it sends.  The terminal is in raw mode with [VMIN = 1] and no
    timeout, so a read at the end of [s] waits: [None] is a scan that
    comes to the end of [s] before its result is settled.  A scan that
    returns has read no further than one byte past what it converted
    and has put that byte back. *)
Fixpoint scan_digits_open (acc : Z) (s : list Z) : option (Z * list Z) :=
  match s with
  | c :: r =>
      if isdigit c then scan_digits_open (acc * 10 + (c - 48)) r
      else Some (acc, s)
  | [] => None
  end.

Definition scan_int_open (s : list Z) : option conversion :=
  match skip_space s with
  | [] => None
  | c :: r =>
      let '(negative, s1) :=
        if c =? 45 then (true, r)           (* '-' *)
        else if c =? 43 then (false, r)     (* '+' *)
        else (false, c :: r) in
      match s1 with
      | [] => None
      | d :: _ =>
          if isdigit d then
            match scan_digits_open 0 s1 with
            | None => None
            | Some (v, rest) => Some (Converted (to_int (strtol negative v)) rest)
            end
          else Some (MatchingFailure s1)
      end
  end.

Definition fscanf_cursor_pos_open (s : list Z) : option (scanned * list Z) :=
  match s with
  | [] => None
  | c0 :: s0 =>
      if negb (c0 =? 27) then Some (nothing_scanned 0, s) else
      match s0 with
      | [] => None
      | c1 :: s1 =>
          if negb (c1 =? 91) then Some (nothing_scanned 0, s0) else
          match scan_int_open s1 with
          | None => None
          | Some InputFailure => None
          | Some (MatchingFailure rest) => Some (nothing_scanned 0, rest)
          | Some (Converted y s2) =>
              let one := {| assigned := 1; row := Some y; col := None |} in
              match s2 with
              | [] => None
              | c2 :: s3 =>
                  if negb (c2 =? 59) then Some (one, s2) else
                  match scan_int_open s3 with
                  | None => None
                  | Some InputFailure => None
                  | Some (MatchingFailure rest) => Some (one, rest)
                  | Some (Converted x s4) =>
                      match s4 with
                      | c3 :: s5 =>
                          Some ({| assigned := 2; row := Some y; col := Some x |},
                                if c3 =? 82 then s5 else s4)
                      | [] => None
                      end
                  end
              end
          end
      end
  end.

End Scanf.

(** [fscanf(console_state.io.teletype, "\033[%d;%dR", ...)] when the
    terminal sends [tty_reply] and then hangs up: a scan that comes to
    the end of the reply meets end-of-file. *)
Definition fscanf_teletype : M Scanf.scanned :=
  fun w => let '(r, rest) := Scanf.fscanf_cursor_pos (tty_reply w) in
           Some (r, set_tty_reply rest w).

(** The same call when the terminal stays open: a scan that comes to
    the end of the reply waits for the next byte, and does not return
    when none is sent.  This is the first scan of a probe as glibc runs
    it; a scan that follows one which left input unread is cut short by
    the stream (see [fwrite]) and returns no later than this one. *)
Definition fscanf_teletype_open : M Scanf.scanned :=
  fun w => match Scanf.fscanf_cursor_pos_open (tty_reply w) with
           | Some (r, rest) => Some (r, set_tty_reply rest w)
           | None => None
           end.

(** [ioctl(STDOUT_FILENO, TIOCGWINSZ, &window_size)], then [ws_col]. *)
Definition ioctl_ws_col : M Z := fun w => Some (ws_col w, w).

(** An [int] left unassigned by a failed [fscanf]; only read in
    [put_codepoint] after both calls assigned everything. *)
Definition assigned_or_0 (v : option Z) : Z :=
  match v with Some x => x | None => 0 end.

(** [put_codepoint(utf8_codepoint, length, expected_width)], with
    [scan] for what its two [fscanf] calls on the teletype do. *)
Definition put_codepoint_on (scan : M Scanf.scanned)
    (utf8_codepoint : list Z) (expected_width : Z) : M Z :=
  s <- get_console_state ;;
  match (if expected_width >=? 0 then None else teletype (io s)) with
  | None =>
      fwrite utf8_codepoint (output (io s)) ;;;
      ret expected_width
  | Some tty =>
      fwrite ANSI_CURSOR_POS_QUERY tty ;;;
      start <- scan ;;
      fwrite utf8_codepoint tty ;;;
      fwrite ANSI_CURSOR_POS_QUERY tty ;;;
      finish <- scan ;;
      let result_count := Scanf.assigned start + Scanf.assigned finish in
      if negb (4 =? result_count) then
        ret expected_width
      else
        let width :=
          to_int (assigned_or_0 (Scanf.col finish) - assigned_or_0 (Scanf.col start)) in
        if 0 >? width then
          cols <- ioctl_ws_col ;;
          ret (to_int (width + cols))
        else
          ret width
  end.

(** [put_codepoint] on a terminal whose reply ends at end-of-file; the
    readers below are stated over this one. *)
Definition put_codepoint : list Z -> Z -> M Z :=
  put_codepoint_on fscanf_teletype.

(* ===================================================================== *)
(** ** The advanced (raw-mode) reader *)
(* ===================================================================== *)

Section Advanced.
Variable P : Platform.

(** [pop_cursor()] *)
Definition pop_cursor : M unit :=
  s <- get_console_state ;; fwrite [8] (output (io s)).

(** [estimate_width(codepoint)] *)
Definition estimate_width (codepoint : Z) : Z := wcwidth P codepoint.

(** [replace_last(ch)]: [fprintf(output, "\b%c", ch)] *)
Definition replace_last (ch : Z) : M unit :=
  s <- get_console_state ;; fwrite [8; ch] (output (io s)).

(** [line.back()] *)
Definition back (line : list Z) : Z := last line 0.

(** The locals of [console_readline_advanced] that live across the loop. *)
Record Edit := {
  line : list Z;
  widths : list Z;
  is_special_char : bool
}.

Definition initial_edit : Edit :=
  {| line := []; widths := []; is_special_char := false |}.

(** [(code >= 'A' && code <= 'Z') || (code >= 'a' && code <= 'z') || code == '~'] *)
Definition ends_escape (code : Z) : bool :=
  ((65 <=? code) && (code <=? 90)) || ((97 <=? code) && (code <=? 122))
  || (code =? 126).

(** [while ((code = getchar32()) != WEOF) { if (...) break; }] *)
Fixpoint discard_escape (fuel : nat) : M unit :=
  match fuel with
  | O => out_of_fuel
  | S fuel' =>
      code <- getchar32 P ;;
      if code =? WEOF P then ret tt
      else if ends_escape code then ret tt
      else discard_escape fuel'
  end.

(** The branch [input_char == '\033']. *)
Definition escape_sequence : M unit :=
  code <- getchar32 P ;;
  if (code =? 91) || (code =? 0x1B) then with_input_fuel discard_escape
  else ret tt.

(** [for (int i = 0; i < count; i++) { replace_last(' '); pop_cursor(); }] *)
Fixpoint erase_columns (count : nat) : M unit :=
  match count with
  | O => ret tt
  | S n => replace_last 32 ;;; pop_cursor ;;; erase_columns n
  end.

(** The [do ... while (count == 0 && !widths.empty())] of the backspace
    branch, over the width stack top first ([stack] is [widths] reversed). *)
Fixpoint backspace_loop (stack : list Z) (ln : list Z) : M (list Z * list Z) :=
  match stack with
  | [] => ret (stack, ln)
  | count :: stack' =>
      erase_columns (Z.to_nat count) ;;;
      let ln' := Utf8.pop_back_utf8_char ln in
      if (count =? 0) && negb (match stack' with [] => true | _ => false end)
      then backspace_loop stack' ln'
      else ret (stack', ln')
  end.

(** The branch [input_char == 0x08 || input_char == 0x7F]. *)
Definition backspace (e : Edit) : M Edit :=
  match widths e with
  | [] => ret e
  | _ =>
      r <- backspace_loop (rev (widths e)) (line e) ;;
      ret {| line := snd r; widths := rev (fst r);
             is_special_char := is_special_char e |}
  end.

(** The final [else] branch: encode, print, record the width. *)
Definition insert_char (input_char : Z) (e : Edit) : M Edit :=
  let offset := length (line e) in
  let ln := Utf8.append_utf8 input_char (line e) in
  width <- put_codepoint (skipn offset ln) (estimate_width input_char) ;;
  let width := if width <? 0 then 0 else width in
  ret {| line := ln; widths := widths e ++ [width];
         is_special_char := is_special_char e |}.

(** [!line.empty() && (line.back() == '\\' || line.back() == '/')] *)
Definition ends_with_marker (ln : list Z) : bool :=
  negb (match ln with [] => true | _ => false end)
  && ((back ln =? 92) || (back ln =? 47)).

Inductive Outcome :=
| Break (end_of_stream : bool)
| Continue (e : Edit).

(** One turn of the [while (true)] loop once [input_char] is read. *)
Definition loop_body (input_char : Z) (e : Edit) : M Outcome :=
  if (input_char =? 13) || (input_char =? 10) then ret (Break false)
  else if (input_char =? WEOF P) || (input_char =? 0x04) then ret (Break true)
  else
    e1 <- (if is_special_char e then
             console_set_display_mode CONSOLE_INPUT ;;;
             replace_last (back (line e)) ;;;
             ret {| line := line e; widths := widths e; is_special_char := false |}
           else ret e) ;;
    e2 <- (if input_char =? 27 then escape_sequence ;;; ret e1
           else if (input_char =? 0x08) || (input_char =? 0x7F) then backspace e1
           else insert_char input_char e1) ;;
    if ends_with_marker (line e2) then
      console_set_display_mode CONSOLE_PROMPT ;;;
      replace_last (back (line e2)) ;;;
      ret (Continue {| line := line e2; widths := widths e2;
                       is_special_char := true |})
    else ret (Continue e2).

(** One whole turn: read a character, then the body. *)
Definition loop_iteration (e : Edit) : M Outcome :=
  input_char <- getchar32 P ;;
  loop_body input_char e.

(** The [while (true)] loop; it gives the locals at the [break]. *)
Fixpoint readline_loop (fuel : nat) (e : Edit) : M (Edit * bool) :=
  match fuel with
  | O => out_of_fuel
  | S fuel' =>
      o <- loop_iteration e ;;
      match o with
      | Break end_of_stream => ret (e, end_of_stream)
      | Continue e' => readline_loop fuel' e'
      end
  end.

(** The code after the loop: the returned line and [has_more]. *)
Definition resolve (e : Edit) (end_of_stream : bool) : M (list Z * bool) :=
  s <- get_console_state ;;
  let has_more := multiline (io s) in
  if is_special_char e then
    replace_last 32 ;;;
    pop_cursor ;;;
    let last_ch := back (line e) in
    let ln := removelast (line e) in
    if last_ch =? 92 then
      fwrite [10] (output (io s)) ;;;
      ret (ln ++ [10], negb has_more)
    else
      if (length ln =? 1)%nat && (back ln =? 32) then
        pop_cursor ;;;
        ret ([], false)
      else ret (ln, false)
  else
    if end_of_stream then ret (line e, false)
    else
      fwrite [10] (output (io s)) ;;;
      ret (line e ++ [10], has_more).

(** [console_readline_advanced(line)]: the new [line] and the result. *)
Definition console_readline_advanced : M (list Z * bool) :=
  r <- with_input_fuel (fun fuel => readline_loop fuel initial_edit) ;;
  resolve (fst r) (snd r).

End Advanced.

(* ===================================================================== *)
(** ** [std::cin] and the simple (piped) reader *)
(* ===================================================================== *)

Module Cin.

Definition good (c : istream) : bool := negb (eofbit c || failbit c || badbit c).

(** [!stream]: [failbit] or [badbit]. *)
Definition fail (c : istream) : bool := failbit c || badbit c.

Definition with_failbit (c : istream) : istream :=
  {| buf := buf c; eofbit := eofbit c; failbit := true; badbit := badbit c |}.

(** The bytes up to the first ['\n'], and what follows it when there is one. *)
Fixpoint split_line (s : list Z) : list Z * option (list Z) :=
  match s with
  | [] => ([], None)
  | c :: r =>
      if c =? 10 then ([], Some r)
      else let '(l, rest) := split_line r in (c :: l, rest)
  end.

(** [std::getline(std::cin, line)]: the new [line] and whether the stream
    still tests true.  A stream that is not good fails at once and leaves
    [line] alone; an extraction that ends at end-of-file sets [eofbit],
    and [failbit] too when it took nothing. *)
Definition getline (ln : list Z) (c : istream) : (list Z * bool) * istream :=
  if negb (good c) then ((ln, false), with_failbit c)
  else
    match split_line (buf c) with
    | (l, Some rest) =>
        ((l, true),
         {| buf := rest; eofbit := false; failbit := false; badbit := false |})
    | (l, None) =>
        let nothing := match l with [] => true | _ => false end in
        ((l, negb nothing),
         {| buf := []; eofbit := true; failbit := nothing; badbit := false |})
    end.

(** [std::cin >> control_ch]: skips white space, then takes one [char]. *)
Definition extract_char (c : istream) : option Z * istream :=
  if negb (good c) then (None, with_failbit c)
  else
    match Scanf.skip_space (buf c) with
    | [] => (None, {| buf := []; eofbit := true; failbit := true; badbit := false |})
    | ch :: r =>
        (Some ch, {| buf := r; eofbit := false; failbit := false; badbit := false |})
    end.

(** [std::cin.clear()] *)
Definition clear (c : istream) : istream :=
  {| buf := buf c; eofbit := false; failbit := false; badbit := false |}.

(** [std::cin.ignore(max, '\n')] *)
Definition ignore_line (c : istream) : istream :=
  if negb (good c) then with_failbit c
  else
    match split_line (buf c) with
    | (_, Some rest) =>
        {| buf := rest; eofbit := false; failbit := false; badbit := false |}
    | (_, None) =>
        {| buf := []; eofbit := true; failbit := false; badbit := false |}
    end.

End Cin.

(** [console_input_character()] *)
Definition console_input_character : M Z :=
  fun w =>
    match Cin.extract_char (cin w) with
    | (None, c) =>
        (console_set_display_mode CONSOLE_ERROR ;;;
         (fun w' => Some (tt, set_cin (Cin.ignore_line (Cin.clear (cin w'))) w')) ;;;
         ret EOF) (set_cin c w)
    | (Some control_ch, c) => Some (Utf8.to_uchar control_ch, set_cin c w)
    end.

(** [console_input_string(line)]: the new [line] and the result. *)
Definition console_input_string (ln : list Z) : M (list Z * bool) :=
  fun w =>
    let '((ln', ok), c) := Cin.getline ln (cin w) in
    if negb ok then
      (console_set_display_mode CONSOLE_ERROR ;;;
       ret ([], false)) (set_cin c w)
    else Some ((ln', true), set_cin c w).

(** [console_input_control(line)] *)
Definition console_input_control : M Z :=
  control_ch <- console_input_character ;;
  if control_ch =? EOF then ret EOF
  else
    (if control_ch =? 109 then           (* case 'm' *)
       s <- get_console_state ;;
       put_console_state (set_multiline (negb (multiline (io s))) s)
     else ret tt) ;;;
    ret control_ch.

(** [console_readline_simple(line)] *)
Definition console_readline_simple (ln : list Z) : M (list Z * bool) :=
  r <- console_input_string ln ;;
  let ln := fst r in
  if negb (snd r) then ret (ln, false)
  else
    match ln with
    | [] =>
        console_set_display_mode CONSOLE_ERROR ;;;
        ret (ln, true)
    | _ =>
        let last_ch := last ln 0 in
        (if last_ch =? 27 then console_input_control ;;; ret tt else ret tt) ;;;
        s <- get_console_state ;;
        if negb (multiline (io s)) then ret (ln ++ [10], true)
        else ret (ln, true)
    end.

(** [console_readline(line)] *)
Definition console_readline (P : Platform) (ln : list Z) : M (list Z * bool) :=
  console_set_display_mode CONSOLE_INPUT ;;;
  s <- get_console_state ;;
  if simple (io s) then console_readline_simple ln
  else console_readline_advanced P.

(* ===================================================================== *)
(** ** The byte decoder on the other side of [getwchar] *)
(* ===================================================================== *)

Module Decoder.

(** Modelled from the spec: the repository has no UTF-8 byte decoder of
    its own; the bytes typed are turned into wide characters by the C
    library behind [getwchar], and [getchar32] only reassembles those.
    This is that missing half, following the spec's "standard UTF-8
    length/shift rules for ranges <=0x7F, <=0x7FF, <=0xFFFF, <=0x10FFFF":
    a strict decoder that refuses stray or missing continuation bytes,
    overlong forms, surrogate values and values above 0x10FFFF. *)
Definition utf8_decode (s : list Z) : option (Z * list Z) :=
  match s with
  | [] => None
  | b0 :: r0 =>
      if b0 <? 0x80 then Some (b0, r0)
      else if Z.land b0 0xE0 =? 0xC0 then
        match r0 with
        | b1 :: r1 =>
            let cp := Z.lor (Z.shiftl (Z.land b0 0x1F) 6) (Z.land b1 0x3F) in
            if Utf8.is_continuation b1 && (0x80 <=? cp) then Some (cp, r1)
            else None
        | _ => None
        end
      else if Z.land b0 0xF0 =? 0xE0 then
        match r0 with
        | b1 :: b2 :: r2 =>
            let cp := Z.lor (Z.shiftl (Z.land b0 0x0F) 12)
                        (Z.lor (Z.shiftl (Z.land b1 0x3F) 6) (Z.land b2 0x3F)) in
            if Utf8.is_continuation b1 && Utf8.is_continuation b2
               && (0x800 <=? cp) && negb ((0xD800 <=? cp) && (cp <=? 0xDFFF))
            then Some (cp, r2)
            else None
        | _ => None
        end
      else if Z.land b0 0xF8 =? 0xF0 then
        match r0 with
        | b1 :: b2 :: b3 :: r3 =>
            let cp := Z.lor (Z.shiftl (Z.land b0 0x07) 18)
                        (Z.lor (Z.shiftl (Z.land b1 0x3F) 12)
                           (Z.lor (Z.shiftl (Z.land b2 0x3F) 6) (Z.land b3 0x3F))) in
            if Utf8.is_continuation b1 && Utf8.is_continuation b2
               && Utf8.is_continuation b3
               && (0x10000 <=? cp) && (cp <=? 0x10FFFF)
            then Some (cp, r3)
            else None
        | _ => None
        end
      else None
  end.

(** Modelled from the spec: the wide units the C library hands over for
    a decoded code point, one unit, or a surrogate pair where [wchar_t]
    has 16 bits (the spec's "pair of 16-bit units jointly encoding one
    supplementary-plane code point"). *)
Definition wide_units (P : Platform) (cp : Z) : list Z :=
  if wide16 P && (0x10000 <=? cp) then
    [0xD800 + Z.shiftr (cp - 0x10000) 10; 0xDC00 + Z.land (cp - 0x10000) 0x03FF]
  else [cp].

(** Decoding one character from bytes: the library's decoder, then the
    repository's [getchar32] on the units it delivers. *)
Definition decode (P : Platform) (bytes : list Z) : option Z :=
  match utf8_decode bytes with
  | Some (cp, _) => Some (fst (getchar32_from P (wide_units P cp)))
  | None => None
  end.

(** The encoder as a function from a code point to bytes. *)
Definition encode (cp : Z) : list Z := Utf8.append_utf8 cp [].

End Decoder.

(* ===================================================================== *)
(** ** Sample platforms and worlds *)
(* ===================================================================== *)

Module Samples.

(** A small width table in the shape of [wcwidth] under a UTF-8 locale:
    -1 for control characters and values that are no character, 0 for
    NUL and the combining diacritics, 2 for Hangul Jamo and CJK, else 1. *)
Definition wcwidth_utf8 (cp : Z) : Z :=
  if cp =? 0 then 0
  else if (cp <? 32) || ((0x7F <=? cp) && (cp <? 0xA0)) then -1
  else if 0x10FFFF <? cp then -1
  else if (0x0300 <=? cp) && (cp <=? 0x036F) then 0
  else if ((0x1100 <=? cp) && (cp <=? 0x115F))
          || ((0x4E00 <=? cp) && (cp <=? 0x9FFF)) then 2
  else 1.

(** Linux: 32-bit [wchar_t]. *)
Definition linux : Platform := {| wide16 := false; wcwidth := wcwidth_utf8 |}.

(** A build where [WCHAR_MAX == 0xFFFF]. *)
Definition utf16 : Platform := {| wide16 := true; wcwidth := wcwidth_utf8 |}.

Definition fresh_cin (bytes : list Z) : istream :=
  {| buf := bytes; eofbit := false; failbit := false; badbit := false |}.

(** The state [struct ConsoleState] is initialised to. *)
Definition default_state : ConsoleState :=
  {| io := {| simple := true; multiline := false; output := Stdout;
              teletype := None |};
     display := {| advanced := false; mode := CONSOLE_RESET |} |}.

(** After [console_create(false, true)] with [/dev/tty] opened. *)
Definition raw_state (multi : bool) : ConsoleState :=
  {| io := {| simple := false; multiline := multi; output := DevTty;
              teletype := Some DevTty |};
     display := {| advanced := true; mode := CONSOLE_INPUT |} |}.

(** After [console_create(false, true)] when [/dev/tty] could not be opened. *)
Definition raw_state_no_tty (multi : bool) : ConsoleState :=
  {| io := {| simple := false; multiline := multi; output := Stdout;
              teletype := None |};
     display := {| advanced := true; mode := CONSOLE_INPUT |} |}.

Definition world (s : ConsoleState) (keys : list Z) (piped : list Z)
    (reply : list Z) : World :=
  {| console_state := s; stdin_wide := keys; cin := fresh_cin piped;
     tty_reply := reply; ws_col := 80; written := [] |}.

End Samples.

(* ===================================================================== *)
(** ** Vocabulary for stating the properties *)
(* ===================================================================== *)

(** Total correctness: [m] returns from [w], and [Q] holds of what it
    returns and of the world it leaves. *)
Definition wp {A} (m : M A) (w : World) (Q : A -> World -> Prop) : Prop :=
  match m w with
  | Some (a, w') => Q a w'
  | None => False
  end.

(** [w'] differs from [w] at most in what was written, in the display
    mode and in what the terminal has still to answer. *)
Definition same_input (w w' : World) : Prop :=
  io (console_state w') = io (console_state w)
  /\ cin w' = cin w
  /\ stdin_wide w' = stdin_wide w.

(** As [same_input], but units of the keyboard input may have been taken. *)
Definition input_taken (w w' : World) : Prop :=
  io (console_state w') = io (console_state w)
  /\ cin w' = cin w
  /\ exists taken, stdin_wide w = taken ++ stdin_wide w'.

(** [m] always returns, relates the worlds by [R] and its result by [Q]. *)
Definition does {A} (R : World -> World -> Prop) (m : M A) (Q : A -> Prop) : Prop :=
  forall w, wp m w (fun a w' => R w w' /\ Q a).

Definition any {A} : A -> Prop := fun _ => True.

(** What the backspace loop does to the width stack (top first) and to
    the line, with the terminal writes left out. *)
Fixpoint popped (stack : list Z) (ln : list Z) : list Z * list Z :=
  match stack with
  | [] => (stack, ln)
  | count :: stack' =>
      let ln' := Utf8.pop_back_utf8_char ln in
      if (count =? 0) && negb (match stack' with [] => true | _ => false end)
      then popped stack' ln'
      else (stack', ln')
  end.

(** The edit state a backspace leaves. *)
Definition after_backspace (e : Edit) : Edit :=
  match widths e with
  | [] => e
  | _ =>
      let r := popped (rev (widths e)) (line e) in
      {| line := snd r; widths := rev (fst r); is_special_char := is_special_char e |}
  end.

(** The loop's closing test, as it sets [is_special_char]. *)
Definition marked (ln ws : list Z) : Edit :=
  {| line := ln; widths := ws; is_special_char := ends_with_marker ln |}.

(** Feeding the loop body a list of already decoded characters. *)
Fixpoint feed (P : Platform) (chars : list Z) (e : Edit) : M Outcome :=
  match chars with
  | [] => ret (Continue e)
  | c :: rest =>
      o <- loop_body P c e ;;
      match o with
      | Continue e' => feed P rest e'
      | Break end_of_stream => ret (Break end_of_stream)
      end
  end.

(** A character the loop body handles in its final [else] branch and
    that [append_utf8] can encode. *)
Definition inserted (P : Platform) (c : Z) : Prop :=
  0 <= c <= 0x10FFFF
  /\ c <> 13 /\ c <> 10 /\ c <> WEOF P /\ c <> 0x04
  /\ c <> 27 /\ c <> 0x08 /\ c <> 0x7F.

(** The states the loop of [console_readline_advanced] passes through
    when started in the world [w0]. *)
Inductive loop_reaches (P : Platform) (w0 : World) : Edit -> World -> Prop :=
| reaches_start : loop_reaches P w0 initial_edit w0
| reaches_turn e w e' w' :
    loop_reaches P w0 e w ->
    loop_iteration P e w = Some (Continue e', w') ->
    loop_reaches P w0 e' w'.

(** A unit [getchar32] returns as it is: not the end-of-input marker
    and, where [wchar_t] has 16 bits, not a surrogate. *)
Definition plain_unit (P : Platform) (u : Z) : bool :=
  (0 <=? u) && (u <? WEOF P) && negb (wide16 P && is_surrogate u).

(** Whether [console_readline_simple] gets as far as a control command
    ['m']: the line is read, is not empty, ends in ESC, and the next
    character [std::cin >> control_ch] delivers is ['m']. *)
Definition reads_toggle_command (ln : list Z) (c : istream) : bool :=
  let '((ln', ok), c1) := Cin.getline ln c in
  ok
  && negb (match ln' with [] => true | _ => false end)
  && (last ln' 0 =? 27)
  && match Cin.extract_char c1 with
     | (Some control_ch, _) => Utf8.to_uchar control_ch =? 109
     | (None, _) => false
     end.

(** The persistent multi-line flag, [console_state.io.multiline]. *)
Definition flag (w : World) : bool := multiline (io (console_state w)).

(** The character [console_input_character] returns. *)
Definition next_control (c : istream) : Z :=
  match fst (Cin.extract_char c) with
  | Some control_ch => Utf8.to_uchar control_ch
  | None => EOF
  end.

(** The line and the result the code after the loop gives, as a function
    of the locals at the [break] and of the multi-line flag. *)
Definition resolved (e : Edit) (end_of_stream has_more : bool) : list Z * bool :=
  if is_special_char e then
    let ln := removelast (line e) in
    if back (line e) =? 92 then (ln ++ [10], negb has_more)
    else if (length ln =? 1)%nat && (back ln =? 32) then ([], false)
    else (ln, false)
  else if end_of_stream then (line e, false)
  else (line e ++ [10], has_more).

(** The bytes of a sequence of code points, one encoding after another. *)
Definition encoded (cps : list Z) : list Z := concat (map Utf8.utf8_bytes cps).

(** The line holds the encodings of some code points, and the width
    stack has one entry for each of them. *)
Definition well_formed (e : Edit) : Prop :=
  exists cps,
    Forall (fun c => 0 <= c <= 0x10FFFF) cps
    /\ line e = encoded cps
    /\ length (widths e) = length cps.

(* ===================================================================== *)
(** ** Vocabulary for the further properties *)
(* ===================================================================== *)

(** The number a string of decimal digits (given as digit values) writes. *)
Definition digits_value (ds : list Z) : Z :=
  fold_left (fun acc d => acc * 10 + d) ds 0.

(** The characters of a string of decimal digits. *)
Definition digit_chars (ds : list Z) : list Z := map (fun d => 48 + d) ds.

(** A terminal's cursor position report, [ESC [ row ; col R]. *)
Definition cursor_report (row col : list Z) : list Z :=
  [27; 91] ++ digit_chars row ++ [59] ++ digit_chars col ++ [82].

(** A string of decimal digits that writes an [int]. *)
Definition int_digits (ds : list Z) : Prop :=
  ds <> [] /\ Forall (fun d => 0 <= d <= 9) ds /\ digits_value ds < 2 ^ 31.

(** A key that reaches the final [else] branch of the loop as it is:
    [getchar32] returns it unchanged and it is none of the control keys. *)
Definition typed (P : Platform) (u : Z) : Prop :=
  plain_unit P u = true
  /\ u <> 13 /\ u <> 10 /\ u <> 0x04 /\ u <> 27 /\ u <> 0x08 /\ u <> 0x7F.

(** [w'] has the [console_state] of [w]. *)
Definition same_console (w w' : World) : Prop :=
  console_state w' = console_state w.

(** The display is in the mode the loop keeps it in: PROMPT while a
    marker is pending, INPUT otherwise. *)
Definition highlight_tracks (e : Edit) (w : World) : Prop :=
  advanced (display (console_state w)) = true
  /\ mode (display (console_state w)) =
       (if is_special_char e then CONSOLE_PROMPT else CONSOLE_INPUT).

(* ===================================================================== *)
(** ** Init and cleanup: [console_create], [console_reset] *)
(* ===================================================================== *)

(** [struct termios]: the flag words and the control characters. *)
Record termios := {
  c_iflag : Z;
  c_oflag : Z;
  c_cflag : Z;
  c_lflag : Z;
  c_cc : list Z
}.

(** <termios.h> as Linux has it. *)
Definition ICANON : Z := 0x2.
Definition ECHO : Z := 0x8.
Definition VTIME : nat := 5.
Definition VMIN : nat := 6.

(** An [int] converted to the 32-bit unsigned [tcflag_t]. *)
Definition to_tcflag (x : Z) : Z := x mod 2 ^ 32.

(** [cc[i] = v] on the fixed array [c_cc]. *)
Fixpoint assign (i : nat) (v : Z) (cc : list Z) : list Z :=
  match cc, i with
  | [], _ => []
  | _ :: r, O => v :: r
  | c :: r, S i' => c :: assign i' v r
  end.

(** The world together with what [console_create] and [console_reset]
    touch: the saved [console_state.terminal], the attributes of the
    terminal on [STDIN_FILENO] ([None] when it is not a terminal, so that
    [tcgetattr] and [tcsetattr] fail and change nothing), and whether
    [fopen("/dev/tty", "w+")] succeeds. *)
Record System := {
  world : World;
  terminal : termios;
  stdin_termios : option termios;
  dev_tty : bool
}.

Definition with_world (w : World) (s : System) : System :=
  {| world := w; terminal := terminal s; stdin_termios := stdin_termios s;
     dev_tty := dev_tty s |}.

(** [tcgetattr(STDIN_FILENO, &t)]: the new value of [t]. *)
Definition tcgetattr (s : System) (t : termios) : termios :=
  match stdin_termios s with
  | Some a => a
  | None => t
  end.

(** [tcsetattr(STDIN_FILENO, TCSANOW, &t)]: the terminal's attributes after. *)
Definition tcsetattr (s : System) (t : termios) : option termios :=
  match stdin_termios s with
  | Some _ => Some t
  | None => None
  end.

(** [console_create(use_simple_io, use_advanced_display)] *)
Definition console_create (use_simple_io use_advanced_display : bool)
    (s : System) : System :=
  let cs := console_state (world s) in
  let cs :=
    {| io := {| simple := use_simple_io; multiline := multiline (io cs);
                output := output (io cs); teletype := teletype (io cs) |};
       display := {| advanced := use_advanced_display;
                     mode := mode (display cs) |} |} in
  if negb use_simple_io then
    let saved := tcgetattr s (terminal s) in
    let new_termios :=
      {| c_iflag := c_iflag saved; c_oflag := c_oflag saved;
         c_cflag := c_cflag saved;
         c_lflag := Z.land (c_lflag saved)
                      (to_tcflag (Z.lnot (Z.lor ICANON ECHO)));
         c_cc := assign VTIME 0 (assign VMIN 1 (c_cc saved)) |} in
    let tty := if dev_tty s then Some DevTty else None in
    let cs :=
      {| io := {| simple := simple (io cs); multiline := multiline (io cs);
                  output := match tty with
                            | Some f => f
                            | None => output (io cs)
                            end;
                  teletype := tty |};
         display := display cs |} in
    {| world := set_console_state cs (world s);
       terminal := saved;
       stdin_termios := tcsetattr s new_termios;
       dev_tty := dev_tty s |}
  else with_world (set_console_state cs (world s)) s.

(** [console_reset()] *)
Definition console_reset (s : System) : option System :=
  match console_set_display_mode CONSOLE_RESET (world s) with
  | None => None
  | Some (_, w) =>
      let cs := console_state w in
      if negb (simple (io cs)) then
        let cs :=
          match teletype (io cs) with
          | Some _ =>
              {| io := {| simple := simple (io cs);
                          multiline := multiline (io cs);
                          output := Stdout; teletype := None |};
                 display := display cs |}
          | None => cs
          end in
        Some {| world := set_console_state cs w;
                terminal := terminal s;
                stdin_termios := tcsetattr s (terminal s);
                dev_tty := dev_tty s |}
      else Some (with_world w s)
  end.

(* ===================================================================== *)
(** ** The example program (examples/simple.cpp) *)
(* ===================================================================== *)

Module Text.
Import Ascii String.

Definition bytes (s : string) : list Z :=
  List.map (fun c => Z.of_N (N_of_ascii c)) (list_ascii_of_string s).

(** Each message with the ['\n'] of its [std::endl]. *)
Definition prompt_banner : list Z :=
  (bytes "Prompt mode: Enter a command" ++ [10])%list.
Definition prompt : list Z := bytes "> ".
Definition read_failed : list Z :=
  (bytes "Failed to read input or EOF reached." ++ [10])%list.
Definition exiting : list Z := (bytes "Exiting multiline mode." ++ [10])%list.
Definition error_banner : list Z :=
  (bytes "Error mode: This is an error message" ++ [10])%list.

End Text.

(** [std::cout << text] *)
Definition cout (text : list Z) : M unit := fwrite text Stdout.

Section Main.
Variable P : Platform.

(** The [while (true)] of [main]; every turn that goes on has taken at
    least one byte from [std::cin]. *)
Fixpoint main_loop (fuel : nat) (inputLine : list Z) : M unit :=
  match fuel with
  | O => out_of_fuel
  | S fuel' =>
      cout Text.prompt ;;;
      r <- console_readline P inputLine ;;
      let inputLine := fst r in
      if negb (snd r) then
        console_set_display_mode CONSOLE_ERROR ;;;
        cout Text.read_failed ;;;
        console_set_display_mode CONSOLE_INPUT
      else
        s <- get_console_state ;;
        if negb (multiline (io s)) then cout Text.exiting
        else
          cout (inputLine ++ [10]) ;;;
          main_loop fuel' inputLine
  end.

(** [main] between [console_create] and [console_reset]. *)
Definition main_body : M unit :=
  console_set_display_mode CONSOLE_PROMPT ;;;
  cout Text.prompt_banner ;;;
  console_set_display_mode CONSOLE_INPUT ;;;
  (fun w => main_loop (S (length (buf (cin w)))) [] w) ;;;
  console_set_display_mode CONSOLE_ERROR ;;;
  cout Text.error_banner.

(** [main()]: the exit status and the system it leaves. *)
Definition main (s : System) : option (Z * System) :=
  let s := console_create true true s in
  match main_body (world s) with
  | None => None
  | Some (_, w) =>
      match console_reset (with_world w s) with
      | None => None
      | Some s' => Some (0, s')
      end
  end.

End Main.

(** [w'] has the settings and the keyboard input of [w], and no more
    bytes left on [std::cin] than [w]. *)
Definition kept (w w' : World) : Prop :=
  simple (io (console_state w')) = simple (io (console_state w))
  /\ advanced (display (console_state w')) = advanced (display (console_state w))
  /\ stdin_wide w' = stdin_wide w
  /\ (length (buf (cin w')) <= length (buf (cin w)))%nat.

(* ===================================================================== *)
(** ** The line buffer of the prototype (src/console.cpp) *)
(* ===================================================================== *)

Module Proto.

(** [struct ConsoleLine]; [buffer] is the allocated block, one [char]
    for each of its [size] bytes. *)
Record ConsoleLine := {
  buffer : list Z;
  size : Z;
  length : Z
}.

(** Arithmetic on [size_t]. *)
Definition to_size_t (x : Z) : Z := x mod 2 ^ 64.

Definition in_bounds (b : list Z) (i : Z) : bool :=
  (0 <=? i) && (i <? Z.of_nat (List.length b)).

(** [b[i]] and [b[i] = v]; [None] is an access outside the block. *)
Definition load (b : list Z) (i : Z) : option Z :=
  if in_bounds b i then Some (nth (Z.to_nat i) b 0) else None.

Definition store (b : list Z) (i : Z) (v : Z) : option (list Z) :=
  if in_bounds b i
  then Some (firstn (Z.to_nat i) b ++ v :: skipn (S (Z.to_nat i)) b)
  else None.

(** A block of [n] bytes as [malloc] hands it out: [fill] gives the
    indeterminate contents. *)
Definition block (fill : nat -> Z) (from n : nat) : list Z :=
  map fill (seq from n).

(** [realloc(b, new_size)]: [None] when it fails; the old bytes are kept
    up to the smaller of the two sizes. *)
Definition realloc (heap : option (nat -> Z)) (b : list Z) (new_size : Z)
    : option (list Z) :=
  match heap with
  | None => None
  | Some fill =>
      let n := Z.to_nat new_size in
      Some (firstn n b ++ block fill (List.length b) (n - List.length b))
  end.

(** [console_create_line(size)]: [None] is [NULL].  [heap] is [None]
    when the buffer cannot be allocated. *)
Definition console_create_line (line_allocated : bool)
    (heap : option (nat -> Z)) (size : Z) : option ConsoleLine :=
  if negb line_allocated then None
  else
    let size := if 0 =? size then 64 else size in
    match heap with
    | None => None
    | Some fill =>
        match store (block fill 0 (Z.to_nat size)) 0 0 with
        | None => None
        | Some b => Some {| buffer := b; size := size; length := 0 |}
        end
    end.

(** [console_line_append_char(line, c)]: the result and the line after;
    [None] is a write outside the buffer. *)
Definition console_line_append_char (heap : option (nat -> Z))
    (line : ConsoleLine) (c : Z) : option (bool * ConsoleLine) :=
  let grown :=
    if to_size_t (length line + 1) >=? size line then
      let new_size := to_size_t (size line * 2) in
      match realloc heap (buffer line) new_size with
      | None => None
      | Some new_buffer =>
          Some {| buffer := new_buffer; size := new_size; length := length line |}
      end
    else Some line in
  match grown with
  | None => Some (false, line)
  | Some line =>
      match store (buffer line) (length line) c with
      | None => None
      | Some b =>
          let len := to_size_t (length line + 1) in
          match store b len 0 with
          | None => None
          | Some b =>
              Some (true, {| buffer := b; size := size line; length := len |})
          end
      end
  end.

(** The [for] loop of [console_line_remove_char], [n] turns from [i]. *)
Fixpoint shift_left (n : nat) (i : Z) (b : list Z) : option (list Z) :=
  match n with
  | O => Some b
  | S n' =>
      match load b (to_size_t (i + 1)) with
      | None => None
      | Some v =>
          match store b i v with
          | None => None
          | Some b' => shift_left n' (to_size_t (i + 1)) b'
          end
      end
  end.

(** [console_line_remove_char(line, index)]; the line is [None] for a
    [NULL] pointer.  The loop runs while [i < length - 1]. *)
Definition console_line_remove_char (line : option ConsoleLine) (index : Z)
    : option (bool * option ConsoleLine) :=
  match line with
  | None => Some (false, None)
  | Some l =>
      if index >=? length l then Some (false, line)
      else
        match shift_left (Z.to_nat (to_size_t (length l - 1) - index)) index
                (buffer l) with
        | None => None
        | Some b =>
            let len := to_size_t (length l - 1) in
            match store b len 0 with
            | None => None
            | Some b =>
                Some (true, Some {| buffer := b; size := size l; length := len |})
            end
        end
  end.

(** The characters of the line: the bytes before the terminator. *)
Definition text (l : ConsoleLine) : list Z :=
  firstn (Z.to_nat (length l)) (buffer l).

(** What the functions keep: the block has [size] bytes, the text and its
    terminator fit, and the terminator is there. *)
Definition line_ok (l : ConsoleLine) : Prop :=
  List.length (buffer l) = Z.to_nat (size l)
  /\ 0 <= length l < size l
  /\ size l < 2 ^ 64
  /\ nth (Z.to_nat (length l)) (buffer l) 1 = 0.

(** [b] with [v] at place [i]. *)
Definition upd (i : nat) (v : Z) (b : list Z) : list Z :=
  firstn i b ++ v :: skipn (S i) b.

End Proto.

(** * Properties *)

(* ===================================================================== *)
(** ** Bit operations as arithmetic *)
(* ===================================================================== *)

Module Bits.

Lemma testbit_above (a n i : Z) :
  0 <= a < 2 ^ n -> 0 <= n <= i -> Z.testbit a i = false.
Proof.
  intros [Ha Hlt] [Hn Hi].
  destruct (Z.eq_dec a 0) as [-> | Hne]; [apply Z.bits_0 |].
  apply Z.bits_above_log2; [lia |].
  assert (Z.log2 a < n) by (apply Z.log2_lt_pow2; lia).
  lia.
Qed.

(** A tag in the high bits or-ed with a payload below it is their sum. *)
Lemma lor_plus (h k lo : Z) :
  0 <= k -> 0 <= lo < 2 ^ k -> Z.lor (h * 2 ^ k) lo = h * 2 ^ k + lo.
Proof.
  intros Hk Hlo.
  assert (Hdisj : Z.land (h * 2 ^ k) lo = 0).
  { apply Z.bits_inj'; intros i Hi.
    rewrite Z.land_spec, Z.bits_0.
    destruct (Z.lt_ge_cases i k) as [Hlt | Hge].
    - rewrite Z.mul_pow2_bits_low by lia. reflexivity.
    - rewrite (testbit_above lo k i) by lia. apply andb_false_r. }
  rewrite Z.add_nocarry_lxor by exact Hdisj.
  symmetry. apply Z.lxor_lor. exact Hdisj.
Qed.

Lemma land_low (a k : Z) : 0 <= k -> Z.land a (2 ^ k - 1) = a mod 2 ^ k.
Proof.
  intros Hk. replace (2 ^ k - 1) with (Z.ones k).
  - apply Z.land_ones; assumption.
  - rewrite Z.ones_equiv. lia.
Qed.

Lemma land_0x3F a : Z.land a 0x3F = a mod 64.
Proof. exact (land_low a 6 ltac:(lia)). Qed.
Lemma land_0x1F a : Z.land a 0x1F = a mod 32.
Proof. exact (land_low a 5 ltac:(lia)). Qed.
Lemma land_0x0F a : Z.land a 0x0F = a mod 16.
Proof. exact (land_low a 4 ltac:(lia)). Qed.
Lemma land_0x07 a : Z.land a 0x07 = a mod 8.
Proof. exact (land_low a 3 ltac:(lia)). Qed.
Lemma land_0x3FF a : Z.land a 0x03FF = a mod 1024.
Proof. exact (land_low a 10 ltac:(lia)). Qed.

Lemma shiftr_6 a : Z.shiftr a 6 = a / 64.
Proof. rewrite Z.shiftr_div_pow2 by lia. reflexivity. Qed.
Lemma shiftr_12 a : Z.shiftr a 12 = a / 4096.
Proof. rewrite Z.shiftr_div_pow2 by lia. reflexivity. Qed.
Lemma shiftr_18 a : Z.shiftr a 18 = a / 262144.
Proof. rewrite Z.shiftr_div_pow2 by lia. reflexivity. Qed.

Lemma shiftl_6 a : Z.shiftl a 6 = a * 64.
Proof. rewrite Z.shiftl_mul_pow2 by lia. reflexivity. Qed.
Lemma shiftl_10 a : Z.shiftl a 10 = a * 1024.
Proof. rewrite Z.shiftl_mul_pow2 by lia. reflexivity. Qed.
Lemma shiftl_12 a : Z.shiftl a 12 = a * 4096.
Proof. rewrite Z.shiftl_mul_pow2 by lia. reflexivity. Qed.
Lemma shiftl_18 a : Z.shiftl a 18 = a * 262144.
Proof. rewrite Z.shiftl_mul_pow2 by lia. reflexivity. Qed.

Lemma lor_0x80 x : 0 <= x < 64 -> Z.lor 0x80 x = 128 + x.
Proof. intros H. exact (lor_plus 2 6 x ltac:(lia) H). Qed.
Lemma lor_0xC0 x : 0 <= x < 32 -> Z.lor 0xC0 x = 192 + x.
Proof. intros H. exact (lor_plus 6 5 x ltac:(lia) H). Qed.
Lemma lor_0xE0 x : 0 <= x < 16 -> Z.lor 0xE0 x = 224 + x.
Proof. intros H. exact (lor_plus 14 4 x ltac:(lia) H). Qed.
Lemma lor_0xF0 x : 0 <= x < 8 -> Z.lor 0xF0 x = 240 + x.
Proof. intros H. exact (lor_plus 30 3 x ltac:(lia) H). Qed.

Lemma lor_shifted (h k lo : Z) (p : Z) :
  p = 2 ^ k -> 0 <= k -> 0 <= lo < p -> Z.lor (h * p) lo = h * p + lo.
Proof. intros -> Hk Hlo. apply lor_plus; assumption. Qed.

End Bits.

Ltac bits_to_arith :=
  rewrite ?Bits.land_0x3F, ?Bits.land_0x1F, ?Bits.land_0x0F, ?Bits.land_0x07,
    ?Bits.land_0x3FF, ?Bits.shiftr_6, ?Bits.shiftr_12, ?Bits.shiftr_18,
    ?Bits.shiftl_6, ?Bits.shiftl_10, ?Bits.shiftl_12, ?Bits.shiftl_18.

Ltac div_mod_lia := Z.div_mod_to_equations; lia.

(* ===================================================================== *)
(** ** Facts about the encoder and [pop_back_utf8_char] *)
(* ===================================================================== *)

Module Utf8Facts.
Import Utf8.

Lemma utf8_bytes_1 cp : 0 <= cp <= 0x7F -> utf8_bytes cp = [cp].
Proof.
  intros H. unfold utf8_bytes, to_uchar.
  destruct (Z.leb_spec cp 0x7F); [| lia].
  rewrite Z.mod_small by lia. reflexivity.
Qed.

Lemma utf8_bytes_2 cp :
  0x80 <= cp <= 0x7FF -> utf8_bytes cp = [192 + cp / 64; 128 + cp mod 64].
Proof.
  intros H. unfold utf8_bytes, to_uchar.
  destruct (Z.leb_spec cp 0x7F); [lia |].
  destruct (Z.leb_spec cp 0x7FF); [| lia].
  bits_to_arith.
  rewrite Bits.lor_0xC0, Bits.lor_0x80 by div_mod_lia.
  f_equal; [| f_equal]; div_mod_lia.
Qed.

Lemma utf8_bytes_3 cp :
  0x800 <= cp <= 0xFFFF ->
  utf8_bytes cp = [224 + cp / 4096; 128 + (cp / 64) mod 64; 128 + cp mod 64].
Proof.
  intros H. unfold utf8_bytes, to_uchar.
  destruct (Z.leb_spec cp 0x7F); [lia |].
  destruct (Z.leb_spec cp 0x7FF); [lia |].
  destruct (Z.leb_spec cp 0xFFFF); [| lia].
  bits_to_arith.
  rewrite Bits.lor_0xE0, !Bits.lor_0x80 by div_mod_lia.
  f_equal; [| f_equal; [| f_equal]]; div_mod_lia.
Qed.

Lemma utf8_bytes_4 cp :
  0x10000 <= cp <= 0x10FFFF ->
  utf8_bytes cp =
    [240 + cp / 262144; 128 + (cp / 4096) mod 64; 128 + (cp / 64) mod 64;
     128 + cp mod 64].
Proof.
  intros H. unfold utf8_bytes, to_uchar.
  destruct (Z.leb_spec cp 0x7F); [lia |].
  destruct (Z.leb_spec cp 0x7FF); [lia |].
  destruct (Z.leb_spec cp 0xFFFF); [lia |].
  destruct (Z.leb_spec cp 0x10FFFF); [| lia].
  bits_to_arith.
  rewrite Bits.lor_0xF0, !Bits.lor_0x80 by div_mod_lia.
  f_equal; [| f_equal; [| f_equal; [| f_equal]]]; div_mod_lia.
Qed.

Lemma utf8_bytes_out_of_range cp : 0x10FFFF < cp -> utf8_bytes cp = [].
Proof.
  intros H. unfold utf8_bytes.
  destruct (Z.leb_spec cp 0x7F); [lia |].
  destruct (Z.leb_spec cp 0x7FF); [lia |].
  destruct (Z.leb_spec cp 0xFFFF); [lia |].
  destruct (Z.leb_spec cp 0x10FFFF); [lia | reflexivity].
Qed.

Lemma is_continuation_byte b :
  0 <= b < 256 -> is_continuation b = (128 <=? b) && (b <? 192).
Proof.
  intros H.
  assert (E : forallb
                (fun n => Bool.eqb (is_continuation (Z.of_nat n))
                            ((128 <=? Z.of_nat n) && (Z.of_nat n <? 192)))
                (seq 0 256) = true) by (vm_compute; reflexivity).
  rewrite forallb_forall in E.
  specialize (E (Z.to_nat b)). rewrite Z2Nat.id in E by lia.
  apply eqb_prop, E. apply in_seq. lia.
Qed.

Lemma continuation_tail x : 0 <= x < 64 -> is_continuation (128 + x) = true.
Proof.
  intros H. rewrite is_continuation_byte by lia.
  apply andb_true_iff. split; [apply Z.leb_le | apply Z.ltb_lt]; lia.
Qed.

Lemma lead_not_continuation b :
  0 <= b < 128 \/ 192 <= b < 256 -> is_continuation b = false.
Proof.
  intros H. rewrite is_continuation_byte by lia.
  apply andb_false_iff.
  destruct H; [left; apply Z.leb_gt | right; apply Z.ltb_ge]; lia.
Qed.

Lemma find_start_stays ln n p :
  n = O \/ p = O \/ is_continuation (nth p ln 0) = false ->
  find_start ln n p = p.
Proof.
  intros H. destruct n as [| n]; [reflexivity |].
  destruct p as [| p]; [reflexivity |].
  destruct H as [H | [H | H]]; try discriminate.
  simpl. rewrite H. reflexivity.
Qed.

Lemma find_start_back ln n p :
  is_continuation (nth (S p) ln 0) = true ->
  find_start ln (S n) (S p) = find_start ln n p.
Proof. intros H. simpl. rewrite H. reflexivity. Qed.

(** From the last byte of [tail] the scan walks back over continuation
    bytes and stops on [lead], or after [n] steps. *)
Lemma find_start_tail l lead tail : forall suffix n,
  (length tail <= n)%nat ->
  Forall (fun b => is_continuation b = true) tail ->
  ((length tail < n)%nat -> is_continuation lead = false) ->
  find_start (l ++ lead :: tail ++ suffix) n (length l + length tail) = length l.
Proof.
  induction tail as [| x t IH] using rev_ind; intros suffix n Hn Hc Hlead.
  - simpl length. rewrite Nat.add_0_r. apply find_start_stays.
    destruct n as [| n]; [left; reflexivity |].
    right; right.
    replace (length l) with (length l + 0)%nat at 1 by lia.
    rewrite app_nth2_plus. simpl. apply Hlead. simpl. lia.
  - rewrite length_app in *. simpl length in *.
    apply Forall_app in Hc. destruct Hc as [Hct Hcx].
    destruct n as [| n]; [lia |].
    replace (length l + (length t + 1))%nat with (S (length l + length t)) by lia.
    rewrite find_start_back.
    + rewrite <- app_assoc. apply IH; [lia | exact Hct |].
      intros Hlt. apply Hlead. lia.
    + replace (S (length l + length t)) with (length l + S (length t))%nat by lia.
      rewrite app_nth2_plus. simpl.
      rewrite <- app_assoc.
      replace (length t) with (length t + 0)%nat at 1 by lia.
      rewrite app_nth2_plus. simpl. inversion Hcx; assumption.
Qed.

Lemma pop_back_one_char l lead tail :
  (length tail <= 3)%nat ->
  Forall (fun b => is_continuation b = true) tail ->
  ((length tail < 3)%nat -> is_continuation lead = false) ->
  pop_back_utf8_char (l ++ lead :: tail) = l.
Proof.
  intros Hn Hc Hlead. unfold pop_back_utf8_char.
  destruct (l ++ lead :: tail) eqn:E; [destruct l; discriminate |].
  rewrite <- E. clear E.
  replace (length (l ++ lead :: tail) - 1)%nat with (length l + length tail)%nat
    by (rewrite length_app; simpl; lia).
  rewrite <- (app_nil_r tail) at 1.
  rewrite find_start_tail by assumption.
  rewrite firstn_app, firstn_all, Nat.sub_diag. simpl. apply app_nil_r.
Qed.

(** The encoder never yields more than four bytes, and for a code point
    up to 0x10FFFF its bytes are one lead byte and continuation bytes. *)
Lemma utf8_bytes_shape cp :
  0 <= cp <= 0x10FFFF ->
  exists lead tail,
    utf8_bytes cp = lead :: tail
    /\ (length tail <= 3)%nat
    /\ Forall (fun b => is_continuation b = true) tail
    /\ is_continuation lead = false.
Proof.
  intros H.
  destruct (Z.le_gt_cases cp 0x7F) as [H1 | H1].
  { exists cp, []. rewrite utf8_bytes_1 by lia.
    repeat split; [simpl; lia | constructor |].
    apply lead_not_continuation. lia. }
  destruct (Z.le_gt_cases cp 0x7FF) as [H2 | H2].
  { eexists _, _. rewrite utf8_bytes_2 by lia.
    repeat split; [simpl; lia | |].
    - repeat constructor. apply continuation_tail. div_mod_lia.
    - apply lead_not_continuation. div_mod_lia. }
  destruct (Z.le_gt_cases cp 0xFFFF) as [H3 | H3].
  { eexists _, _. rewrite utf8_bytes_3 by lia.
    repeat split; [simpl; lia | |].
    - repeat constructor; apply continuation_tail; div_mod_lia.
    - apply lead_not_continuation. div_mod_lia. }
  eexists _, _. rewrite utf8_bytes_4 by lia.
  repeat split; [simpl; lia | |].
  - repeat constructor; apply continuation_tail; div_mod_lia.
  - apply lead_not_continuation. div_mod_lia.
Qed.

(** [pop_back_utf8_char] undoes [append_utf8]. *)
Lemma pop_back_append cp l :
  0 <= cp <= 0x10FFFF -> pop_back_utf8_char (append_utf8 cp l) = l.
Proof.
  intros H. unfold append_utf8.
  destruct (utf8_bytes_shape cp H) as (lead & tail & -> & Hlen & Hc & Hlead).
  apply pop_back_one_char; auto.
Qed.

Lemma count_codepoints_app l1 l2 :
  count_codepoints (l1 ++ l2) = (count_codepoints l1 + count_codepoints l2)%nat.
Proof. unfold count_codepoints. rewrite filter_app, length_app. reflexivity. Qed.

Lemma count_codepoints_tail tail :
  Forall (fun b => is_continuation b = true) tail -> count_codepoints tail = O.
Proof.
  induction 1 as [| b t Hb _ IH]; [reflexivity |].
  unfold count_codepoints in *. simpl. rewrite Hb. simpl. exact IH.
Qed.

Lemma count_codepoints_utf8 cp :
  0 <= cp <= 0x10FFFF -> count_codepoints (utf8_bytes cp) = 1%nat.
Proof.
  intros H.
  destruct (utf8_bytes_shape cp H) as (lead & tail & -> & _ & Hc & Hlead).
  change (lead :: tail) with ([lead] ++ tail).
  rewrite count_codepoints_app, (count_codepoints_tail tail Hc).
  unfold count_codepoints. simpl. rewrite Hlead. reflexivity.
Qed.

End Utf8Facts.

(* ===================================================================== *)
(** ** The monad and the frame of each operation *)
(* ===================================================================== *)

Section Hoare.

Lemma wp_ret {A} (a : A) w (Q : A -> World -> Prop) : Q a w -> wp (ret a) w Q.
Proof. intros H. exact H. Qed.

Lemma wp_bind {A B} (m : M A) (k : A -> M B) w (Q : B -> World -> Prop) :
  wp m w (fun a w' => wp (k a) w' Q) -> wp (bind m k) w Q.
Proof.
  unfold wp, bind. destruct (m w) as [[a w'] |]; [| intros []].
  intros H. exact H.
Qed.

Lemma wp_mono {A} (m : M A) w (Q Q' : A -> World -> Prop) :
  wp m w Q -> (forall a w', Q a w' -> Q' a w') -> wp m w Q'.
Proof.
  unfold wp. destruct (m w) as [[a w'] |]; [| intros []].
  intros H HQ. apply HQ, H.
Qed.

Lemma wp_run {A} (m : M A) w (Q : A -> World -> Prop) :
  wp m w Q -> exists a w', m w = Some (a, w') /\ Q a w'.
Proof.
  unfold wp. destruct (m w) as [[a w'] |]; [| intros []].
  intros H. exists a, w'. split; [reflexivity | exact H].
Qed.

Lemma wp_of_run {A} (m : M A) w a w' (Q : A -> World -> Prop) :
  m w = Some (a, w') -> Q a w' -> wp m w Q.
Proof. unfold wp. intros -> H. exact H. Qed.

Lemma same_input_refl w : same_input w w.
Proof. repeat split. Qed.

Lemma same_input_trans w1 w2 w3 :
  same_input w1 w2 -> same_input w2 w3 -> same_input w1 w3.
Proof.
  intros (H1 & H2 & H3) (K1 & K2 & K3).
  repeat split; congruence.
Qed.

Lemma input_taken_refl w : input_taken w w.
Proof. repeat split. exists []. reflexivity. Qed.

Lemma input_taken_trans w1 w2 w3 :
  input_taken w1 w2 -> input_taken w2 w3 -> input_taken w1 w3.
Proof.
  intros (H1 & H2 & t1 & H3) (K1 & K2 & t2 & K3).
  repeat split; try congruence.
  exists (t1 ++ t2). rewrite H3, K3, app_assoc. reflexivity.
Qed.

Lemma same_input_taken w w' : same_input w w' -> input_taken w w'.
Proof.
  intros (H1 & H2 & H3). repeat split; try assumption.
  exists []. rewrite H3. reflexivity.
Qed.

Lemma input_taken_length w w' :
  input_taken w w' -> (length (stdin_wide w') <= length (stdin_wide w))%nat.
Proof.
  intros (_ & _ & t & H). rewrite H, length_app. lia.
Qed.

Lemma input_taken_Forall (Q : Z -> Prop) w w' :
  input_taken w w' -> Forall Q (stdin_wide w) -> Forall Q (stdin_wide w').
Proof.
  intros (_ & _ & t & H) HQ. rewrite H in HQ.
  apply Forall_app in HQ. apply HQ.
Qed.

Variable R : World -> World -> Prop.
Hypothesis R_refl : forall w, R w w.
Hypothesis R_trans : forall w1 w2 w3, R w1 w2 -> R w2 w3 -> R w1 w3.

Lemma does_ret {A} (a : A) (Q : A -> Prop) : Q a -> does R (ret a) Q.
Proof. intros H w. apply wp_ret. split; [apply R_refl | exact H]. Qed.

Lemma does_bind {A B} (m : M A) (k : A -> M B) (Q : A -> Prop) (Q' : B -> Prop) :
  does R m Q -> (forall a, Q a -> does R (k a) Q') -> does R (bind m k) Q'.
Proof.
  intros Hm Hk w. apply wp_bind.
  eapply wp_mono; [apply Hm |].
  intros a w1 [HR HQ]. eapply wp_mono; [apply (Hk a HQ) |].
  intros b w2 [HR' HQ']. split; [eapply R_trans; eassumption | exact HQ'].
Qed.

Lemma does_weaken {A} (m : M A) (Q Q' : A -> Prop) :
  does R m Q -> (forall a, Q a -> Q' a) -> does R m Q'.
Proof.
  intros Hm HQ w. eapply wp_mono; [apply Hm |].
  intros a w' [HR Ha]. split; [exact HR | apply HQ, Ha].
Qed.

End Hoare.

Lemma does_taken {A} (m : M A) (Q : A -> Prop) :
  does same_input m Q -> does input_taken m Q.
Proof.
  intros H w. eapply wp_mono; [apply H |].
  intros a w' [HR Ha]. split; [apply same_input_taken, HR | exact Ha].
Qed.

Ltac quiet_bind :=
  eapply (does_bind same_input same_input_trans).
Ltac quiet_ret :=
  apply (does_ret same_input same_input_refl).

Section Quiet.

Lemma quiet_get_console_state :
  does same_input get_console_state any.
Proof. intros w. split; [apply same_input_refl | exact I]. Qed.

Lemma quiet_fwrite bytes f : does same_input (fwrite bytes f) any.
Proof. intros w. split; [repeat split | exact I]. Qed.

Lemma quiet_console_set_display_mode m :
  does same_input (console_set_display_mode m) any.
Proof.
  intros w. unfold console_set_display_mode.
  apply wp_bind. unfold get_console_state, wp at 1.
  destruct (advanced (display (console_state w))
            && negb (mode_eqb (mode (display (console_state w))) m)).
  - apply wp_bind. apply wp_of_run with (a := tt)
      (w' := add_written (output (io (console_state w))) (ansi_of_mode m) w);
      [reflexivity |].
    split; [repeat split | exact I].
  - split; [apply same_input_refl | exact I].
Qed.

Lemma quiet_fscanf_teletype : does same_input fscanf_teletype any.
Proof.
  intros w. unfold fscanf_teletype, wp.
  destruct (Scanf.fscanf_cursor_pos (tty_reply w)) as [r rest].
  split; [repeat split | exact I].
Qed.

Lemma quiet_ioctl_ws_col : does same_input ioctl_ws_col any.
Proof. intros w. split; [apply same_input_refl | exact I]. Qed.

Lemma quiet_put_codepoint bytes expected :
  does same_input (put_codepoint bytes expected) any.
Proof.
  unfold put_codepoint, put_codepoint_on.
  quiet_bind; [apply quiet_get_console_state | intros s _].
  destruct (if expected >=? 0 then None else teletype (io s)) as [tty |].
  - quiet_bind; [apply quiet_fwrite | intros _ _].
    quiet_bind; [apply quiet_fscanf_teletype | intros start _].
    quiet_bind; [apply quiet_fwrite | intros _ _].
    quiet_bind; [apply quiet_fwrite | intros _ _].
    quiet_bind; [apply quiet_fscanf_teletype | intros finish _].
    destruct (negb (4 =? Scanf.assigned start + Scanf.assigned finish)).
    + quiet_ret. exact I.
    + destruct (0 >? _).
      * quiet_bind; [apply quiet_ioctl_ws_col | intros cols _].
        quiet_ret. exact I.
      * quiet_ret. exact I.
  - quiet_bind; [apply quiet_fwrite | intros _ _].
    quiet_ret. exact I.
Qed.

End Quiet.

(* ===================================================================== *)
(** ** The branches of the loop body *)
(* ===================================================================== *)

Section AdvancedFacts.
Variable P : Platform.

Lemma quiet_pop_cursor : does same_input pop_cursor any.
Proof.
  unfold pop_cursor.
  quiet_bind; [apply quiet_get_console_state | intros s _].
  apply quiet_fwrite.
Qed.

Lemma quiet_replace_last ch : does same_input (replace_last ch) any.
Proof.
  unfold replace_last.
  quiet_bind; [apply quiet_get_console_state | intros s _].
  apply quiet_fwrite.
Qed.

Lemma quiet_erase_columns n : does same_input (erase_columns n) any.
Proof.
  induction n as [| n IH]; simpl.
  - quiet_ret. exact I.
  - quiet_bind; [apply quiet_replace_last | intros _ _].
    quiet_bind; [apply quiet_pop_cursor | intros _ _].
    exact IH.
Qed.

Lemma quiet_backspace_loop stack : forall ln,
  does same_input (backspace_loop stack ln) (fun r => r = popped stack ln).
Proof.
  induction stack as [| count stack' IH]; intros ln; simpl.
  - quiet_ret. reflexivity.
  - quiet_bind; [apply quiet_erase_columns | intros _ _].
    destruct ((count =? 0) && negb match stack' with [] => true | _ => false end).
    + apply IH.
    + quiet_ret. reflexivity.
Qed.

Lemma quiet_backspace e :
  does same_input (backspace e) (fun e' => e' = after_backspace e).
Proof.
  unfold backspace, after_backspace.
  destruct (widths e) as [| x ws] eqn:E.
  - quiet_ret. reflexivity.
  - quiet_bind; [apply quiet_backspace_loop | intros r Hr].
    quiet_ret. rewrite Hr. reflexivity.
Qed.

Lemma quiet_insert_char c e :
  does same_input (insert_char P c e)
    (fun e' => exists wd, 0 <= wd
       /\ e' = {| line := line e ++ Utf8.utf8_bytes c;
                  widths := widths e ++ [wd];
                  is_special_char := is_special_char e |}).
Proof.
  unfold insert_char.
  quiet_bind; [apply quiet_put_codepoint | intros width _].
  quiet_ret. exists (if width <? 0 then 0 else width). split.
  - destruct (Z.ltb_spec width 0); lia.
  - reflexivity.
Qed.

(** The first step of a turn: a pending marker is repainted and forgotten. *)
Lemma quiet_unmark e :
  does same_input
    (if is_special_char e then
       console_set_display_mode CONSOLE_INPUT ;;;
       replace_last (back (line e)) ;;;
       ret {| line := line e; widths := widths e; is_special_char := false |}
     else ret e)%console
    (fun e1 => line e1 = line e /\ widths e1 = widths e
               /\ is_special_char e1 = false).
Proof.
  destruct (is_special_char e) eqn:E.
  - quiet_bind; [apply quiet_console_set_display_mode | intros _ _].
    quiet_bind; [apply quiet_replace_last | intros _ _].
    quiet_ret. repeat split.
  - quiet_ret. repeat split. exact E.
Qed.

(** The last step of a turn: a trailing marker is highlighted and noted. *)
Lemma quiet_mark e2 :
  is_special_char e2 = false ->
  does same_input
    (if ends_with_marker (line e2) then
       console_set_display_mode CONSOLE_PROMPT ;;;
       replace_last (back (line e2)) ;;;
       ret (Continue {| line := line e2; widths := widths e2;
                        is_special_char := true |})
     else ret (Continue e2))%console
    (fun o => o = Continue (marked (line e2) (widths e2))).
Proof.
  intros Hflag. unfold marked.
  destruct (ends_with_marker (line e2)) eqn:E.
  - quiet_bind; [apply quiet_console_set_display_mode | intros _ _].
    quiet_bind; [apply quiet_replace_last | intros _ _].
    quiet_ret. reflexivity.
  - quiet_ret. destruct e2 as [l ws f]. simpl in *. subst f. reflexivity.
Qed.

Lemma WEOF_large : 0xFFFF <= WEOF P.
Proof. unfold WEOF. destruct (wide16 P); lia. Qed.

Lemma loop_body_break_line c e w :
  c = 13 \/ c = 10 ->
  loop_body P c e w = Some (Break false, w).
Proof.
  intros H. unfold loop_body.
  replace ((c =? 13) || (c =? 10)) with true; [reflexivity |].
  symmetry. apply orb_true_iff.
  destruct H; [left | right]; apply Z.eqb_eq; assumption.
Qed.

Lemma loop_body_break_eof c e w :
  c = WEOF P \/ c = 0x04 ->
  loop_body P c e w = Some (Break true, w).
Proof.
  intros H. unfold loop_body.
  pose proof WEOF_large.
  replace ((c =? 13) || (c =? 10)) with false.
  - replace ((c =? WEOF P) || (c =? 0x04)) with true; [reflexivity |].
    symmetry. apply orb_true_iff.
    destruct H; [left | right]; apply Z.eqb_eq; assumption.
  - symmetry. apply orb_false_iff.
    split; apply Z.eqb_neq; lia.
Qed.

(** Unfolding the body for a character that does not end the loop. *)
Lemma loop_body_continues c e :
  c <> 13 -> c <> 10 -> c <> WEOF P -> c <> 0x04 ->
  loop_body P c e =
    (e1 <- (if is_special_char e then
              console_set_display_mode CONSOLE_INPUT ;;;
              replace_last (back (line e)) ;;;
              ret {| line := line e; widths := widths e; is_special_char := false |}
            else ret e) ;;
     e2 <- (if c =? 27 then escape_sequence P ;;; ret e1
            else if (c =? 0x08) || (c =? 0x7F) then backspace e1
            else insert_char P c e1) ;;
     if ends_with_marker (line e2) then
       console_set_display_mode CONSOLE_PROMPT ;;;
       replace_last (back (line e2)) ;;;
       ret (Continue {| line := line e2; widths := widths e2;
                        is_special_char := true |})
     else ret (Continue e2))%console.
Proof.
  intros H1 H2 H3 H4. unfold loop_body.
  replace ((c =? 13) || (c =? 10)) with false
    by (symmetry; apply orb_false_iff; split; apply Z.eqb_neq; assumption).
  replace ((c =? WEOF P) || (c =? 0x04)) with false
    by (symmetry; apply orb_false_iff; split; apply Z.eqb_neq; assumption).
  reflexivity.
Qed.

(** A character of the final [else] branch is encoded onto the line and
    one width, never negative, is pushed. *)
Lemma loop_body_insert c e :
  c <> 13 -> c <> 10 -> c <> WEOF P -> c <> 0x04 ->
  c <> 27 -> c <> 0x08 -> c <> 0x7F ->
  does same_input (loop_body P c e)
    (fun o => exists wd, 0 <= wd
       /\ o = Continue (marked (line e ++ Utf8.utf8_bytes c) (widths e ++ [wd]))).
Proof.
  intros H1 H2 H3 H4 H5 H6 H7.
  rewrite loop_body_continues by assumption.
  quiet_bind; [apply quiet_unmark | intros e1 (Hl & Hw & Hf)].
  replace (c =? 27) with false by (symmetry; apply Z.eqb_neq; assumption).
  replace ((c =? 0x08) || (c =? 0x7F)) with false
    by (symmetry; apply orb_false_iff; split; apply Z.eqb_neq; assumption).
  quiet_bind; [apply quiet_insert_char | intros e2 (wd & Hwd & ->)].
  eapply does_weaken; [apply quiet_mark; exact Hf |].
  intros o ->. exists wd. split; [exact Hwd |].
  simpl. rewrite Hl, Hw. reflexivity.
Qed.

(** A backspace unit. *)
Lemma loop_body_backspace c e :
  c = 0x08 \/ c = 0x7F ->
  does same_input (loop_body P c e)
    (fun o => o = Continue (marked (line (after_backspace e))
                                   (widths (after_backspace e)))).
Proof.
  intros Hc. pose proof WEOF_large.
  rewrite loop_body_continues by lia.
  quiet_bind; [apply quiet_unmark | intros e1 (Hl & Hw & Hf)].
  replace (c =? 27) with false by (symmetry; apply Z.eqb_neq; lia).
  replace ((c =? 0x08) || (c =? 0x7F)) with true
    by (symmetry; apply orb_true_iff;
        destruct Hc; [left | right]; apply Z.eqb_eq; assumption).
  quiet_bind; [apply quiet_backspace | intros e2 ->].
  assert (E : line (after_backspace e1) = line (after_backspace e)
              /\ widths (after_backspace e1) = widths (after_backspace e)
              /\ is_special_char (after_backspace e1) = false).
  { destruct e1 as [l1 w1 f1]. simpl in Hl, Hw, Hf. subst l1 w1 f1.
    unfold after_backspace. simpl.
    destruct (widths e) eqn:E; simpl; rewrite ?E; auto. }
  destruct E as (El & Ew & Ef).
  eapply does_weaken; [apply quiet_mark; exact Ef |].
  intros o ->. rewrite El, Ew. reflexivity.
Qed.

End AdvancedFacts.

(* ===================================================================== *)
(** ** Reading: [getchar32], the escape filter and the loop *)
(* ===================================================================== *)

Section ReadingFacts.
Variable P : Platform.

Lemma getchar32_from_nil : getchar32_from P [] = (WEOF P, []).
Proof. unfold getchar32_from. simpl. rewrite Z.eqb_refl. reflexivity. Qed.

Lemma getchar32_from_plain u r :
  plain_unit P u = true -> getchar32_from P (u :: r) = (u, r).
Proof.
  unfold plain_unit. intros H.
  apply andb_true_iff in H. destruct H as [H Hs].
  apply andb_true_iff in H. destruct H as [H0 H1].
  apply Z.leb_le in H0. apply Z.ltb_lt in H1.
  unfold getchar32_from, getwchar_from.
  assert (Hw : to_wchar P u = u).
  { unfold to_wchar, WEOF in *. destruct (wide16 P); apply Z.mod_small; lia. }
  rewrite Hw.
  replace (u =? WEOF P) with false by (symmetry; apply Z.eqb_neq; lia).
  destruct (wide16 P); [| reflexivity].
  simpl in Hs. apply negb_true_iff in Hs.
  assert (Hh : is_high_surrogate u = false).
  { unfold is_high_surrogate, is_surrogate in *.
    apply andb_false_iff in Hs. apply andb_false_iff.
    destruct Hs as [Hs | Hs]; [left; exact Hs |].
    right. apply Z.leb_gt in Hs. apply Z.leb_gt. lia. }
  rewrite Hh, Hs. reflexivity.
Qed.

(** [getchar32] takes a prefix of the input, and a non-empty one when
    there is input. *)
Lemma getchar32_from_taken s :
  exists taken,
    s = taken ++ snd (getchar32_from P s) /\ (s <> [] -> taken <> []).
Proof.
  destruct s as [| u r].
  - exists []. rewrite getchar32_from_nil. split; [reflexivity | congruence].
  - unfold getchar32_from, getwchar_from.
    destruct (to_wchar P u =? WEOF P).
    { exists [u]. split; [reflexivity | discriminate]. }
    destruct (wide16 P).
    2: { exists [u]. split; [reflexivity | discriminate]. }
    destruct (is_high_surrogate (to_wchar P u)).
    + destruct r as [| u2 r2].
      * exists [u].
        destruct (is_low_surrogate (WEOF P)); simpl;
          destruct (is_surrogate (to_wchar P u)); simpl;
          (split; [reflexivity | discriminate]).
      * exists [u; u2].
        destruct (is_low_surrogate (to_wchar P u2)); simpl;
          [| destruct (is_surrogate (to_wchar P u))]; simpl;
          (split; [reflexivity | discriminate]).
    + exists [u].
      destruct (is_surrogate (to_wchar P u)); simpl;
        (split; [reflexivity | discriminate]).
Qed.

Lemma combine_surrogates_range wc low :
  0x10000 <= combine_surrogates wc low <= 0x10FFFF.
Proof.
  unfold combine_surrogates. bits_to_arith.
  rewrite Z.mod_small; div_mod_lia.
Qed.

(** Units that are code points decode to a code point or to [WEOF]. *)
Lemma getchar32_from_range s :
  Forall (fun u => 0 <= u <= 0x10FFFF) s ->
  fst (getchar32_from P s) = WEOF P \/ 0 <= fst (getchar32_from P s) <= 0x10FFFF.
Proof.
  intros Hs. destruct s as [| u r].
  - left. rewrite getchar32_from_nil. reflexivity.
  - inversion Hs as [| ? ? Hu Hr]; subst.
    unfold getchar32_from.
    change (getwchar_from P (u :: r)) with (to_wchar P u, r). cbv iota beta.
    destruct (to_wchar P u =? WEOF P); [left; reflexivity |].
    assert (Hw : 0 <= to_wchar P u <= 0x10FFFF).
    { unfold to_wchar. destruct (wide16 P).
      - assert (0 <= u mod 2 ^ 16 < 2 ^ 16) by (apply Z.mod_pos_bound; lia). lia.
      - rewrite Z.mod_small; lia. }
    destruct (wide16 P); [| right; exact Hw].
    destruct (is_high_surrogate (to_wchar P u)).
    + destruct (getwchar_from P r) as [low s2].
      destruct (is_low_surrogate low); cbn [fst].
      * right. pose proof (combine_surrogates_range (to_wchar P u) low). lia.
      * destruct (is_surrogate (to_wchar P u)); cbn [fst]; right; [lia | exact Hw].
    + destruct (is_surrogate (to_wchar P u)); cbn [fst]; right; [lia | exact Hw].
Qed.

Lemma getchar32_run w :
  exists c w',
    getchar32 P w = Some (c, w')
    /\ (c, stdin_wide w') = getchar32_from P (stdin_wide w)
    /\ input_taken w w'.
Proof.
  unfold getchar32.
  destruct (getchar32_from P (stdin_wide w)) as [c r] eqn:E.
  exists c, (set_stdin_wide r w). split; [reflexivity |]. split; [reflexivity |].
  repeat split. simpl.
  destruct (getchar32_from_taken (stdin_wide w)) as (t & Ht & _).
  rewrite E in Ht. exists t. exact Ht.
Qed.

(** Reading on an input that is not exhausted takes at least one unit;
    on an exhausted input it gives [WEOF]. *)
Lemma getchar32_progress w c w' :
  getchar32 P w = Some (c, w') ->
  c = WEOF P \/ (length (stdin_wide w') < length (stdin_wide w))%nat.
Proof.
  unfold getchar32.
  destruct (getchar32_from P (stdin_wide w)) as [c0 r] eqn:E.
  intros H. inversion H; subst. simpl.
  destruct (stdin_wide w) as [| u s] eqn:Es.
  - left. rewrite getchar32_from_nil in E. congruence.
  - right. destruct (getchar32_from_taken (u :: s)) as (t & Ht & Hne).
    rewrite E in Ht. simpl in Ht.
    assert (t <> []) by (apply Hne; discriminate).
    apply (f_equal (@length Z)) in Ht. rewrite length_app in Ht.
    destruct t; [congruence | simpl in *; lia].
Qed.

Lemma does_getchar32 : does input_taken (getchar32 P) any.
Proof.
  intros w. destruct (getchar32_run w) as (c & w' & E & _ & Ht).
  eapply wp_of_run; [exact E |]. split; [exact Ht | exact I].
Qed.

(** With more fuel than input, the discard loop returns. *)
Lemma discard_escape_returns fuel : forall w,
  (length (stdin_wide w) < fuel)%nat ->
  wp (discard_escape P fuel) w (fun _ w' => input_taken w w' /\ True).
Proof.
  induction fuel as [| fuel IH]; intros w Hfuel; [lia |].
  simpl. apply wp_bind.
  destruct (getchar32_run w) as (c & w1 & E & _ & Ht).
  eapply wp_of_run; [exact E |].
  destruct (c =? WEOF P) eqn:Ec.
  { apply wp_ret. split; [exact Ht | exact I]. }
  destruct (ends_escape c).
  { apply wp_ret. split; [exact Ht | exact I]. }
  destruct (getchar32_progress w c w1 E) as [Hc | Hlt].
  { apply Z.eqb_neq in Ec. contradiction. }
  eapply wp_mono; [apply IH; lia |].
  intros _ w2 [Ht2 _]. split; [| exact I].
  eapply input_taken_trans; eassumption.
Qed.

Lemma does_escape_sequence : does input_taken (escape_sequence P) any.
Proof.
  unfold escape_sequence.
  eapply (does_bind input_taken input_taken_trans);
    [apply does_getchar32 | intros code _].
  destruct ((code =? 91) || (code =? 0x1B)).
  - intros w. unfold with_input_fuel.
    apply discard_escape_returns. lia.
  - apply (does_ret input_taken input_taken_refl). exact I.
Qed.

(** An ESC unit: whatever the filter consumes, the line and the widths
    stay. *)
Lemma loop_body_escape e :
  does input_taken (loop_body P 27 e)
    (fun o => o = Continue (marked (line e) (widths e))).
Proof.
  pose proof (WEOF_large P).
  rewrite loop_body_continues by lia.
  eapply (does_bind input_taken input_taken_trans);
    [apply does_taken, quiet_unmark | intros e1 (Hl & Hw & Hf)].
  simpl.
  eapply (does_bind input_taken input_taken_trans)
    with (Q := fun e2 => e2 = e1).
  - eapply (does_bind input_taken input_taken_trans);
      [apply does_escape_sequence | intros _ _].
    apply (does_ret input_taken input_taken_refl). reflexivity.
  - intros e2 ->. apply does_taken.
    eapply does_weaken; [apply quiet_mark; exact Hf |].
    intros o ->. rewrite Hl, Hw. reflexivity.
Qed.

(** Every turn of the loop body returns, whatever the character. *)
Lemma loop_body_returns c e : does input_taken (loop_body P c e) any.
Proof.
  destruct (Z.eq_dec c 13) as [E13 | N13].
  { intros w. unfold wp. rewrite loop_body_break_line by auto.
    split; [apply input_taken_refl | exact I]. }
  destruct (Z.eq_dec c 10) as [E10 | N10].
  { intros w. unfold wp. rewrite loop_body_break_line by auto.
    split; [apply input_taken_refl | exact I]. }
  destruct (Z.eq_dec c (WEOF P)) as [Ew | Nw].
  { intros w. unfold wp. rewrite loop_body_break_eof by auto.
    split; [apply input_taken_refl | exact I]. }
  destruct (Z.eq_dec c 0x04) as [E4 | N4].
  { intros w. unfold wp. rewrite loop_body_break_eof by auto.
    split; [apply input_taken_refl | exact I]. }
  destruct (Z.eq_dec c 27) as [-> | N27].
  { eapply does_weaken; [apply loop_body_escape | intros; exact I]. }
  destruct (Z.eq_dec c 0x08) as [E8 | N8].
  { apply does_taken.
    eapply does_weaken; [apply loop_body_backspace; auto | intros; exact I]. }
  destruct (Z.eq_dec c 0x7F) as [E7f | N7f].
  { apply does_taken.
    eapply does_weaken; [apply loop_body_backspace; auto | intros; exact I]. }
  apply does_taken.
  eapply does_weaken; [apply loop_body_insert; assumption | intros; exact I].
Qed.

(** A turn that goes on has taken input. *)
Lemma loop_iteration_returns e w :
  wp (loop_iteration P e) w
    (fun o w' =>
       input_taken w w'
       /\ match o with
          | Continue _ => (length (stdin_wide w') < length (stdin_wide w))%nat
          | Break _ => True
          end).
Proof.
  unfold loop_iteration. apply wp_bind.
  destruct (getchar32_run w) as (c & w1 & E & _ & Ht).
  eapply wp_of_run; [exact E |].
  destruct (Z.eq_dec c (WEOF P)) as [-> | Hc].
  { unfold wp. rewrite loop_body_break_eof by auto. split; [exact Ht | exact I]. }
  eapply wp_mono; [apply loop_body_returns |].
  intros o w2 [Ht2 _]. split; [eapply input_taken_trans; eassumption |].
  destruct o as [eos | e']; [exact I |].
  destruct (getchar32_progress w c w1 E) as [Hc' | Hlt]; [contradiction |].
  pose proof (input_taken_length _ _ Ht2). lia.
Qed.

(** With more fuel than input, the loop reaches its [break]. *)
Lemma readline_loop_returns fuel : forall e w,
  (length (stdin_wide w) < fuel)%nat ->
  wp (readline_loop P fuel e) w (fun _ w' => input_taken w w' /\ True).
Proof.
  induction fuel as [| fuel IH]; intros e w Hfuel; [lia |].
  simpl. apply wp_bind.
  eapply wp_mono; [apply loop_iteration_returns |].
  intros o w1 [Ht Hlen]. destruct o as [eos | e'].
  - apply wp_ret. split; [exact Ht | exact I].
  - eapply wp_mono; [apply IH; lia |].
    intros r w2 [Ht2 _]. split; [| exact I].
    eapply input_taken_trans; eassumption.
Qed.

Lemma quiet_resolve e eos : does same_input (resolve e eos) any.
Proof.
  unfold resolve.
  quiet_bind; [apply quiet_get_console_state | intros s _].
  destruct (is_special_char e).
  - quiet_bind; [apply quiet_replace_last | intros _ _].
    quiet_bind; [apply quiet_pop_cursor | intros _ _].
    destruct (back (line e) =? 92).
    + quiet_bind; [apply quiet_fwrite | intros _ _]. quiet_ret. exact I.
    + destruct ((length (removelast (line e)) =? 1)%nat
                && (back (removelast (line e)) =? 32)).
      * quiet_bind; [apply quiet_pop_cursor | intros _ _]. quiet_ret. exact I.
      * quiet_ret. exact I.
  - destruct eos.
    + quiet_ret. exact I.
    + quiet_bind; [apply quiet_fwrite | intros _ _]. quiet_ret. exact I.
Qed.

(** The advanced reader always returns, and leaves [console_state.io]
    and [std::cin] as they were. *)
Lemma console_readline_advanced_returns :
  does input_taken (console_readline_advanced P) any.
Proof.
  unfold console_readline_advanced.
  eapply (does_bind input_taken input_taken_trans) with (Q := any).
  - intros w. unfold with_input_fuel.
    eapply wp_mono; [apply readline_loop_returns; lia |].
    intros r w' [Ht _]. split; [exact Ht | exact I].
  - intros r _. apply does_taken, quiet_resolve.
Qed.

End ReadingFacts.

(* ===================================================================== *)
(** ** Surrogate pairs (C5) *)
(* ===================================================================== *)

Section Surrogates.
Variable P : Platform.
Hypothesis wide : wide16 P = true.

Lemma to_wchar_16 u : 0 <= u < 0x10000 -> to_wchar P u = u.
Proof. intros H. unfold to_wchar. rewrite wide. apply Z.mod_small. lia. Qed.

Lemma WEOF_16 : WEOF P = 0xFFFF.
Proof. unfold WEOF. rewrite wide. reflexivity. Qed.

Lemma getchar32_pair hi lo rest :
  0xD800 <= hi <= 0xDBFF -> 0xDC00 <= lo <= 0xDFFF ->
  getchar32_from P (hi :: lo :: rest) =
    (Z.shiftl (Z.land hi 0x03FF) 10 + Z.land lo 0x03FF + 0x10000, rest).
Proof.
  intros Hhi Hlo. unfold getchar32_from, getwchar_from.
  rewrite !to_wchar_16, WEOF_16, wide by lia.
  replace (hi =? 0xFFFF) with false by (symmetry; apply Z.eqb_neq; lia).
  replace (is_high_surrogate hi) with true
    by (symmetry; apply andb_true_iff; split; apply Z.leb_le; lia).
  replace (is_low_surrogate lo) with true
    by (symmetry; apply andb_true_iff; split; apply Z.leb_le; lia).
  unfold combine_surrogates. f_equal.
  apply Z.mod_small. bits_to_arith. div_mod_lia.
Qed.

Lemma getchar32_unpaired hi other rest :
  0xD800 <= hi <= 0xDBFF -> 0 <= other < 0x10000 ->
  ~ (0xDC00 <= other <= 0xDFFF) ->
  getchar32_from P (hi :: other :: rest) = (0xFFFD, rest).
Proof.
  intros Hhi Ho Hno. unfold getchar32_from, getwchar_from.
  rewrite !to_wchar_16, WEOF_16, wide by lia.
  replace (hi =? 0xFFFF) with false by (symmetry; apply Z.eqb_neq; lia).
  replace (is_high_surrogate hi) with true
    by (symmetry; apply andb_true_iff; split; apply Z.leb_le; lia).
  replace (is_low_surrogate other) with false.
  - replace (is_surrogate hi) with true
      by (symmetry; apply andb_true_iff; split; apply Z.leb_le; lia).
    reflexivity.
  - symmetry. apply andb_false_iff.
    destruct (Z.le_gt_cases 0xDC00 other); [right | left]; apply Z.leb_gt; lia.
Qed.

Lemma getchar32_high_at_end hi :
  0xD800 <= hi <= 0xDBFF -> getchar32_from P [hi] = (0xFFFD, []).
Proof.
  intros Hhi. unfold getchar32_from, getwchar_from.
  rewrite !to_wchar_16, WEOF_16, wide by lia.
  replace (hi =? 0xFFFF) with false by (symmetry; apply Z.eqb_neq; lia).
  replace (is_high_surrogate hi) with true
    by (symmetry; apply andb_true_iff; split; apply Z.leb_le; lia).
  replace (is_surrogate hi) with true
    by (symmetry; apply andb_true_iff; split; apply Z.leb_le; lia).
  reflexivity.
Qed.

End Surrogates.

(** C5.  Where [wchar_t] has 16 bits, [getchar32] reading a high
    surrogate [hi] and then a low surrogate [lo] returns exactly
    [((hi & 0x03FF) << 10) + (lo & 0x03FF) + 0x10000], the code point
    of the supplementary planes whose offset from 0x10000 has the ten
    payload bits of [hi] above the ten payload bits of [lo];
    reading [hi] and then a unit that is no low surrogate, or nothing
    more, it returns U+FFFD. *)
Theorem getchar32_surrogates (P : Platform) (hi lo other : Z) (rest : list Z) :
  wide16 P = true ->
  0xD800 <= hi <= 0xDBFF ->
  0xDC00 <= lo <= 0xDFFF ->
  0 <= other < 0x10000 ->
  ~ (0xDC00 <= other <= 0xDFFF) ->
  let cp := Z.shiftl (Z.land hi 0x03FF) 10 + Z.land lo 0x03FF + 0x10000 in
  getchar32_from P (hi :: lo :: rest) = (cp, rest)
  /\ 0x10000 <= cp <= 0x10FFFF
  /\ (cp - 0x10000) / 0x400 = hi - 0xD800
  /\ (cp - 0x10000) mod 0x400 = lo - 0xDC00
  /\ getchar32_from P (hi :: other :: rest) = (0xFFFD, rest)
  /\ getchar32_from P [hi] = (0xFFFD, []).
Proof.
  intros wide Hhi Hlo Ho Hno cp.
  assert (Hcp : 0x10000 <= cp <= 0x10FFFF).
  { subst cp. bits_to_arith. div_mod_lia. }
  split; [apply getchar32_pair; assumption |].
  split; [exact Hcp |].
  split; [subst cp; bits_to_arith; div_mod_lia |].
  split; [subst cp; bits_to_arith; div_mod_lia |].
  split; [apply getchar32_unpaired; assumption |].
  apply getchar32_high_at_end; assumption.
Qed.

Lemma getchar32_surrogates_witness :
  getchar32_from Samples.utf16 [0xD83D; 0xDE00; 0x0A] = (0x1F600, [0x0A])
  /\ 0x10000 <= 0x1F600 <= 0x10FFFF
  /\ (0x1F600 - 0x10000) / 0x400 = 0xD83D - 0xD800
  /\ (0x1F600 - 0x10000) mod 0x400 = 0xDE00 - 0xDC00
  /\ getchar32_from Samples.utf16 [0xD83D; 0x41; 0x0A] = (0xFFFD, [0x0A])
  /\ getchar32_from Samples.utf16 [0xD83D] = (0xFFFD, []).
Proof.
  apply (getchar32_surrogates Samples.utf16 0xD83D 0xDE00 0x41 [0x0A]);
    [reflexivity | lia | lia | lia | lia].
Defined.

(* ===================================================================== *)
(** ** Encoding and decoding again (C4) *)
(* ===================================================================== *)

Module DecoderFacts.
Import Utf8 Utf8Facts Decoder.

Lemma lead_masks b :
  0 <= b < 256 ->
  (Z.land b 0xE0 =? 0xC0) = ((192 <=? b) && (b <? 224))
  /\ (Z.land b 0xF0 =? 0xE0) = ((224 <=? b) && (b <? 240))
  /\ (Z.land b 0xF8 =? 0xF0) = ((240 <=? b) && (b <? 248)).
Proof.
  intros H.
  assert (E : forallb
                (fun n =>
                   let b := Z.of_nat n in
                   Bool.eqb (Z.land b 0xE0 =? 0xC0) ((192 <=? b) && (b <? 224))
                   && Bool.eqb (Z.land b 0xF0 =? 0xE0) ((224 <=? b) && (b <? 240))
                   && Bool.eqb (Z.land b 0xF8 =? 0xF0) ((240 <=? b) && (b <? 248)))
                (seq 0 256) = true) by (vm_compute; reflexivity).
  rewrite forallb_forall in E.
  specialize (E (Z.to_nat b)). cbv zeta in E. rewrite Z2Nat.id in E by lia.
  assert (Hin : In (Z.to_nat b) (seq 0 256)) by (apply in_seq; lia).
  specialize (E Hin).
  apply andb_true_iff in E. destruct E as [E E3].
  apply andb_true_iff in E. destruct E as [E1 E2].
  repeat split; apply eqb_prop; assumption.
Qed.

Ltac prove_bool_true :=
  match goal with
  | |- true = true => reflexivity
  | |- (_ && _) = true => apply andb_true_iff; split; prove_bool_true
  | |- (_ <? _) = true => apply Z.ltb_lt; div_mod_lia
  | |- (_ <=? _) = true => apply Z.leb_le; div_mod_lia
  end.

Ltac prove_bool_false :=
  match goal with
  | |- (_ && _) = false =>
      apply andb_false_iff;
      first [left; prove_bool_false | right; prove_bool_false]
  | |- (_ <? _) = false => apply Z.ltb_ge; div_mod_lia
  | |- (_ <=? _) = false => apply Z.leb_gt; div_mod_lia
  end.

(** Settles the test of the outermost [if] of the goal. *)
Ltac head_true :=
  match goal with
  | |- (if ?c then _ else _) = _ =>
      replace c with true by (symmetry; prove_bool_true)
  end.
Ltac head_false :=
  match goal with
  | |- (if ?c then _ else _) = _ =>
      replace c with false by (symmetry; prove_bool_false)
  end.

Ltac start_decode b0 :=
  cbn [app]; unfold utf8_decode; cbv beta iota;
  let H := fresh in
  assert (H : 0 <= b0 < 256) by div_mod_lia;
  destruct (lead_masks b0 H) as (-> & -> & ->); clear H.

Lemma utf8_decode_1 cp r :
  0 <= cp <= 0x7F -> utf8_decode ([cp] ++ r) = Some (cp, r).
Proof.
  intros H. cbn [app]. unfold utf8_decode. head_true. reflexivity.
Qed.

Lemma utf8_decode_2 cp r :
  0x80 <= cp <= 0x7FF ->
  utf8_decode ([192 + cp / 64; 128 + cp mod 64] ++ r) = Some (cp, r).
Proof.
  intros H. start_decode (192 + cp / 64).
  head_false. head_true. cbv zeta.
  rewrite continuation_tail by div_mod_lia.
  bits_to_arith.
  rewrite (Bits.lor_shifted _ 6 _ 64) by (try reflexivity; div_mod_lia).
  replace ((192 + cp / 64) mod 32 * 64 + (128 + cp mod 64) mod 64) with cp
    by div_mod_lia.
  head_true. reflexivity.
Qed.

Lemma utf8_decode_3 cp r :
  0x800 <= cp <= 0xFFFF -> ~ (0xD800 <= cp <= 0xDFFF) ->
  utf8_decode ([224 + cp / 4096; 128 + (cp / 64) mod 64; 128 + cp mod 64] ++ r)
  = Some (cp, r).
Proof.
  intros H Hs. start_decode (224 + cp / 4096).
  head_false. head_false. head_true. cbv zeta.
  rewrite !continuation_tail by div_mod_lia.
  bits_to_arith.
  rewrite (Bits.lor_shifted _ 6 _ 64) by (try reflexivity; div_mod_lia).
  rewrite (Bits.lor_shifted _ 12 _ 4096) by (try reflexivity; div_mod_lia).
  replace ((224 + cp / 4096) mod 16 * 4096 +
           ((128 + (cp / 64) mod 64) mod 64 * 64 + (128 + cp mod 64) mod 64))
    with cp by div_mod_lia.
  replace ((0xD800 <=? cp) && (cp <=? 0xDFFF)) with false.
  - cbn [negb]. head_true. reflexivity.
  - symmetry. apply andb_false_iff.
    destruct (Z.le_gt_cases 0xD800 cp); [right | left]; apply Z.leb_gt; lia.
Qed.

Lemma utf8_decode_4 cp r :
  0x10000 <= cp <= 0x10FFFF ->
  utf8_decode ([240 + cp / 262144; 128 + (cp / 4096) mod 64;
                128 + (cp / 64) mod 64; 128 + cp mod 64] ++ r)
  = Some (cp, r).
Proof.
  intros H. start_decode (240 + cp / 262144).
  head_false. head_false. head_false. head_true. cbv zeta.
  rewrite !continuation_tail by div_mod_lia.
  bits_to_arith.
  rewrite (Bits.lor_shifted _ 6 _ 64) by (try reflexivity; div_mod_lia).
  rewrite (Bits.lor_shifted _ 12 _ 4096) by (try reflexivity; div_mod_lia).
  rewrite (Bits.lor_shifted _ 18 _ 262144) by (try reflexivity; div_mod_lia).
  replace ((240 + cp / 262144) mod 8 * 262144 +
           ((128 + (cp / 4096) mod 64) mod 64 * 4096 +
            ((128 + (cp / 64) mod 64) mod 64 * 64 + (128 + cp mod 64) mod 64)))
    with cp by div_mod_lia.
  head_true. reflexivity.
Qed.

(** The library's decoder reads back what [append_utf8] wrote. *)
Lemma utf8_decode_encode cp r :
  0 <= cp <= 0x10FFFF -> ~ (0xD800 <= cp <= 0xDFFF) ->
  utf8_decode (utf8_bytes cp ++ r) = Some (cp, r).
Proof.
  intros H Hs.
  destruct (Z.le_gt_cases cp 0x7F).
  { rewrite utf8_bytes_1 by lia. apply utf8_decode_1. lia. }
  destruct (Z.le_gt_cases cp 0x7FF).
  { rewrite utf8_bytes_2 by lia. apply utf8_decode_2. lia. }
  destruct (Z.le_gt_cases cp 0xFFFF).
  { rewrite utf8_bytes_3 by lia. apply utf8_decode_3; [lia | exact Hs]. }
  rewrite utf8_bytes_4 by lia. apply utf8_decode_4. lia.
Qed.

(** [getchar32] gives back the code point whose wide units it is fed. *)
Lemma getchar32_wide_units P cp :
  0 <= cp <= 0x10FFFF -> ~ (0xD800 <= cp <= 0xDFFF) ->
  fst (getchar32_from P (wide_units P cp)) = cp.
Proof.
  intros H Hs. unfold wide_units.
  destruct (wide16 P) eqn:wide; cbn [andb].
  - destruct (Z.leb_spec 0x10000 cp) as [Hbig | Hsmall].
    + rewrite getchar32_pair.
      * cbn [fst]. bits_to_arith. rewrite Z.shiftr_div_pow2 by lia. div_mod_lia.
      * exact wide.
      * rewrite Z.shiftr_div_pow2 by lia. div_mod_lia.
      * bits_to_arith. div_mod_lia.
    + destruct (Z.eq_dec cp 0xFFFF) as [-> | Hne].
      * unfold getchar32_from, getwchar_from.
        rewrite to_wchar_16, WEOF_16 by (assumption || lia). reflexivity.
      * rewrite getchar32_from_plain; [reflexivity |].
        unfold plain_unit. rewrite WEOF_16, wide by assumption.
        apply andb_true_iff. split.
        { apply andb_true_iff. split; [apply Z.leb_le | apply Z.ltb_lt]; lia. }
        apply negb_true_iff. cbn [andb]. unfold is_surrogate.
        apply andb_false_iff.
        destruct (Z.le_gt_cases 0xD800 cp); [right | left]; apply Z.leb_gt; lia.
  - rewrite getchar32_from_plain; [reflexivity |].
    unfold plain_unit, WEOF. rewrite wide. simpl andb.
    apply andb_true_iff. split; [| reflexivity].
    apply andb_true_iff. split; [apply Z.leb_le | apply Z.ltb_lt]; lia.
Qed.

End DecoderFacts.

(** C4.  For every code point from 0x00 to 0x10FFFF that is not a
    surrogate value, decoding the bytes the encoder produces gives the
    code point back. *)
Theorem decode_encode_round_trip (P : Platform) (cp : Z) :
  0 <= cp <= 0x10FFFF ->
  ~ (0xD800 <= cp <= 0xDFFF) ->
  Decoder.decode P (Decoder.encode cp) = Some cp.
Proof.
  intros H Hs. unfold Decoder.decode, Decoder.encode, Utf8.append_utf8.
  cbn [app].
  rewrite <- (app_nil_r (Utf8.utf8_bytes cp)).
  rewrite DecoderFacts.utf8_decode_encode by assumption.
  rewrite DecoderFacts.getchar32_wide_units by assumption.
  reflexivity.
Qed.

Lemma decode_encode_round_trip_witness :
  Decoder.decode Samples.linux (Decoder.encode 0x20AC) = Some 0x20AC.
Proof.
  apply (decode_encode_round_trip Samples.linux 0x20AC); lia.
Defined.

(* ===================================================================== *)
(** ** The width probe falls back (C8) *)
(* ===================================================================== *)

Lemma scan_conversions_at_most_2 s :
  Scanf.assigned (fst (Scanf.fscanf_cursor_pos s)) <= 2.
Proof.
  unfold Scanf.fscanf_cursor_pos, EOF.
  destruct s as [| c0 s0]; [simpl; lia |].
  destruct (negb (c0 =? 27)); [simpl; lia |].
  destruct s0 as [| c1 s1]; [simpl; lia |].
  destruct (negb (c1 =? 91)); [simpl; lia |].
  destruct (Scanf.scan_int s1) as [y s2 | rest |]; [| simpl; lia | simpl; lia].
  destruct s2 as [| c2 s3]; [simpl; lia |].
  destruct (negb (c2 =? 59)); [simpl; lia |].
  destruct (Scanf.scan_int s3) as [x s4 | rest |]; simpl; lia.
Qed.

(** A scan on an open terminal that returns has met no end of input,
    and returns what the scan of the same bytes followed by end-of-file
    returns. *)
Lemma scan_digits_open_agrees s : forall acc r,
  Scanf.scan_digits_open acc s = Some r -> Scanf.scan_digits acc s = r.
Proof.
  induction s as [| c s IH]; intros acc r H; cbn in *; [discriminate |].
  destruct (Scanf.isdigit c); [apply IH; exact H | congruence].
Qed.

Lemma scan_int_open_agrees s c :
  Scanf.scan_int_open s = Some c -> Scanf.scan_int s = c.
Proof.
  unfold Scanf.scan_int_open, Scanf.scan_int.
  destruct (Scanf.skip_space s) as [| c0 r]; [discriminate |].
  destruct (if c0 =? 45 then (true, r)
            else if c0 =? 43 then (false, r) else (false, c0 :: r))
    as [negative s1].
  destruct s1 as [| d s1]; [discriminate |].
  destruct (Scanf.isdigit d); [| congruence].
  destruct (Scanf.scan_digits_open 0 (d :: s1)) as [[v rest] |] eqn:E;
    [| discriminate].
  rewrite (scan_digits_open_agrees _ _ _ E). congruence.
Qed.

Lemma fscanf_open_agrees s r :
  Scanf.fscanf_cursor_pos_open s = Some r -> Scanf.fscanf_cursor_pos s = r.
Proof.
  unfold Scanf.fscanf_cursor_pos_open, Scanf.fscanf_cursor_pos.
  destruct s as [| c0 s0]; [discriminate |].
  destruct (negb (c0 =? 27)); [congruence |].
  destruct s0 as [| c1 s1]; [discriminate |].
  destruct (negb (c1 =? 91)); [congruence |].
  destruct (Scanf.scan_int_open s1) as [c |] eqn:E1; [| discriminate].
  rewrite (scan_int_open_agrees _ _ E1).
  destruct c as [y s2 | rest |]; [| congruence | discriminate].
  destruct s2 as [| c2 s3]; [discriminate |].
  destruct (negb (c2 =? 59)); [congruence |].
  destruct (Scanf.scan_int_open s3) as [c |] eqn:E2; [| discriminate].
  rewrite (scan_int_open_agrees _ _ E2).
  destruct c as [x s4 | rest |]; [| congruence | discriminate].
  destruct s4 as [| c3 s5]; [discriminate | congruence].
Qed.

Lemma fscanf_open_at_most_2 s r rest :
  Scanf.fscanf_cursor_pos_open s = Some (r, rest) -> Scanf.assigned r <= 2.
Proof.
  intros H. apply fscanf_open_agrees in H.
  pose proof (scan_conversions_at_most_2 s) as B. rewrite H in B. exact B.
Qed.

(** C8, as the code has it.  In [put_codepoint] with a negative expected
    width and a teletype, whatever the two [fscanf] calls on the
    teletype do: when both return and have not each assigned their two
    integers, the function returns the expected width it was given, no
    measured width and no error, and does nothing after the second
    call; when one of the two calls does not return, [put_codepoint]
    does not return either. *)
Theorem put_codepoint_probe_fallback
    (scan : M Scanf.scanned) (bytes : list Z) (expected : Z) (tty : FILEp)
    (w : World) :
  expected < 0 ->
  teletype (io (console_state w)) = Some tty ->
  (forall start w1 finish w2,
     scan (add_written tty ANSI_CURSOR_POS_QUERY w) = Some (start, w1) ->
     scan (add_written tty ANSI_CURSOR_POS_QUERY (add_written tty bytes w1))
       = Some (finish, w2) ->
     Scanf.assigned start <= 2 ->
     Scanf.assigned finish <= 2 ->
     ~ (Scanf.assigned start = 2 /\ Scanf.assigned finish = 2) ->
     put_codepoint_on scan bytes expected w = Some (expected, w2))
  /\ (scan (add_written tty ANSI_CURSOR_POS_QUERY w) = None ->
      put_codepoint_on scan bytes expected w = None)
  /\ (forall start w1,
        scan (add_written tty ANSI_CURSOR_POS_QUERY w) = Some (start, w1) ->
        scan (add_written tty ANSI_CURSOR_POS_QUERY (add_written tty bytes w1))
          = None ->
        put_codepoint_on scan bytes expected w = None).
Proof.
  intros Hneg Htty.
  assert (Hprobe : (expected >=? 0) = false)
    by (rewrite Z.geb_leb; apply Z.leb_gt; lia).
  unfold put_codepoint_on, bind, get_console_state, fwrite.
  rewrite Hprobe, Htty.
  split; [| split].
  - intros start w1 finish w2 E1 E2 B1 B2 Hparse.
    rewrite E1, E2.
    replace (4 =? Scanf.assigned start + Scanf.assigned finish) with false
      by (symmetry; apply Z.eqb_neq; lia).
    reflexivity.
  - intros E1. rewrite E1. reflexivity.
  - intros start w1 E1 E2. rewrite E1, E2. reflexivity.
Qed.

Lemma put_codepoint_probe_fallback_witness :
  exists w2,
    put_codepoint_on fscanf_teletype_open [1] (-1)
      (Samples.world (Samples.raw_state false) [] []
         [27; 91; 53; 59; 49; 48; 82; 120; 120]) = Some (-1, w2).
Proof.
  eexists.
  eapply (proj1 (put_codepoint_probe_fallback fscanf_teletype_open [1] (-1) DevTty
                   (Samples.world (Samples.raw_state false) [] []
                      [27; 91; 53; 59; 49; 48; 82; 120; 120])
                   ltac:(lia) eq_refl)).
  - vm_compute. reflexivity.
  - vm_compute. reflexivity.
  - vm_compute. discriminate.
  - vm_compute. discriminate.
  - intros [_ H]. vm_compute in H. discriminate H.
Defined.

(** C8 as stated fails for a reply that is missing or cut off: the
    terminal stays open, [fscanf] waits for the rest of the report, and
    [put_codepoint] does not return the estimate; it does not return.
    Here the terminal sends nothing, or [ESC [ 7 ;] and no more. *)
Lemma probe_waits_for_missing_reply :
  put_codepoint_on fscanf_teletype_open [1] (-1)
    (Samples.world (Samples.raw_state false) [] [] []) = None
  /\ put_codepoint_on fscanf_teletype_open [1] (-1)
       (Samples.world (Samples.raw_state false) [] [] [27; 91; 55; 59]) = None.
Proof. split; vm_compute; reflexivity. Qed.

(* ===================================================================== *)
(** ** The simple reader (C9) *)
(* ===================================================================== *)

Section SimpleFacts.

Lemma mode_eqb_eq a b : mode_eqb a b = true -> a = b.
Proof. destruct a, b; simpl; congruence. Qed.

(** What [console_set_display_mode] leaves: the requested mode when the
    advanced display is on, the old mode when it is off. *)
Lemma console_set_display_mode_run m w :
  exists w',
    console_set_display_mode m w = Some (tt, w')
    /\ same_input w w'
    /\ advanced (display (console_state w')) = advanced (display (console_state w))
    /\ mode (display (console_state w')) =
         (if advanced (display (console_state w)) then m
          else mode (display (console_state w))).
Proof.
  unfold console_set_display_mode, bind, get_console_state.
  destruct (advanced (display (console_state w))) eqn:Ea; cbn [andb].
  - destruct (mode_eqb (mode (display (console_state w))) m) eqn:Em; cbn [negb].
    + eexists. split; [reflexivity |]. split; [apply same_input_refl |].
      split; [exact Ea |]. apply mode_eqb_eq, Em.
    + eexists. split; [reflexivity |]. split; [repeat split |].
      split; [exact Ea | reflexivity].
  - eexists. split; [reflexivity |]. split; [apply same_input_refl |].
    split; [exact Ea | reflexivity].
Qed.

(** The whole-line read fails exactly on a stream that is not good or
    has nothing left. *)
Lemma getline_fails ln c :
  snd (fst (Cin.getline ln c)) = false <-> (Cin.good c = false \/ buf c = []).
Proof.
  unfold Cin.getline. destruct (Cin.good c) eqn:G; cbn [negb].
  - destruct (buf c) as [| b r] eqn:B.
    + simpl. split; auto.
    + simpl. destruct (b =? 10).
      * simpl. split; [discriminate | intros [H | H]; discriminate].
      * destruct (Cin.split_line r) as [l [rest |]]; simpl;
          (split; [discriminate | intros [H | H]; discriminate]).
  - simpl. split; auto.
Qed.

(** The result modelled for [std::getline] is the stream's own test. *)
Lemma getline_result ln c :
  snd (fst (Cin.getline ln c)) = negb (Cin.fail (snd (Cin.getline ln c))).
Proof.
  unfold Cin.getline, Cin.fail, Cin.with_failbit.
  destruct (Cin.good c); cbn [negb].
  - destruct (Cin.split_line (buf c)) as [l [rest |]]; [reflexivity |].
    destruct l; reflexivity.
  - reflexivity.
Qed.

Lemma console_input_string_fails ln w :
  Cin.good (cin w) = false \/ buf (cin w) = [] ->
  exists w',
    console_input_string ln w = Some (([], false), w')
    /\ io (console_state w') = io (console_state w)
    /\ mode (display (console_state w')) =
         (if advanced (display (console_state w)) then CONSOLE_ERROR
          else mode (display (console_state w))).
Proof.
  intros Hfail. apply getline_fails with (ln := ln) in Hfail.
  unfold console_input_string.
  destruct (Cin.getline ln (cin w)) as [[ln' ok] c]. simpl in Hfail. subst ok.
  cbn [negb]. unfold bind.
  destruct (console_set_display_mode_run CONSOLE_ERROR (set_cin c w))
    as (w' & -> & (Hio & _ & _) & _ & Hmode).
  exists w'. split; [reflexivity |]. split; [exact Hio | exact Hmode].
Qed.

Lemma console_readline_simple_fails ln w :
  Cin.good (cin w) = false \/ buf (cin w) = [] ->
  exists w',
    console_readline_simple ln w = Some (([], false), w')
    /\ io (console_state w') = io (console_state w)
    /\ mode (display (console_state w')) =
         (if advanced (display (console_state w)) then CONSOLE_ERROR
          else mode (display (console_state w))).
Proof.
  intros Hfail.
  destruct (console_input_string_fails ln w Hfail) as (w' & E & Hio & Hmode).
  exists w'. unfold console_readline_simple, bind. rewrite E. cbn [fst snd negb].
  split; [reflexivity |]. split; [exact Hio | exact Hmode].
Qed.

Lemma console_readline_simple_empty_line ln rest w :
  Cin.good (cin w) = true -> buf (cin w) = 10 :: rest ->
  exists w', console_readline_simple ln w = Some (([], true), w').
Proof.
  intros G B.
  unfold console_readline_simple, bind, console_input_string, Cin.getline.
  rewrite G, B. cbn [negb Cin.split_line Z.eqb Pos.eqb].
  destruct (console_set_display_mode_run CONSOLE_ERROR
              (set_cin {| buf := rest; eofbit := false; failbit := false;
                          badbit := false |} w)) as (w' & E & _).
  exists w'. cbn [fst snd negb]. rewrite E. reflexivity.
Qed.

End SimpleFacts.

(** C9, as the code has it.  When the whole-line read of the simple
    reader fails (the stream is not good, or is at its end), the read
    asks for the ERROR display mode, gives back an empty line and
    returns false; a successful read of an empty line returns true.
    The display mode becomes ERROR when the advanced display is
    enabled; with the advanced display disabled the request is a no-op
    and the mode is left as it was. *)
Theorem simple_read_failure
    (ln ln2 rest2 : list Z) (w w2 : World) :
  Cin.good (cin w) = false \/ buf (cin w) = [] ->
  Cin.good (cin w2) = true ->
  buf (cin w2) = 10 :: rest2 ->
  (exists w',
     console_readline_simple ln w = Some (([], false), w')
     /\ mode (display (console_state w')) =
          (if advanced (display (console_state w)) then CONSOLE_ERROR
           else mode (display (console_state w))))
  /\ (exists w', console_input_string ln w = Some (([], false), w'))
  /\ (exists w2', console_readline_simple ln2 w2 = Some (([], true), w2')).
Proof.
  intros Hfail G2 B2. split; [| split].
  - destruct (console_readline_simple_fails ln w Hfail) as (w' & E & _ & Hm).
    exists w'. split; assumption.
  - destruct (console_input_string_fails ln w Hfail) as (w' & E & _).
    exists w'. exact E.
  - eapply console_readline_simple_empty_line; eassumption.
Qed.

Lemma simple_read_failure_witness :
  (exists w',
     console_readline_simple [104; 105]
       (Samples.world (Samples.raw_state_no_tty false) [] [] []) =
     Some (([], false), w')
     /\ mode (display (console_state w')) = CONSOLE_ERROR)
  /\ (exists w',
        console_input_string [104; 105]
          (Samples.world (Samples.raw_state_no_tty false) [] [] []) =
        Some (([], false), w'))
  /\ (exists w2',
        console_readline_simple [104; 105]
          (Samples.world Samples.default_state [] [10; 120] []) =
        Some (([], true), w2')).
Proof.
  apply (simple_read_failure [104; 105] [104; 105] [120]
           (Samples.world (Samples.raw_state_no_tty false) [] [] [])
           (Samples.world Samples.default_state [] [10; 120] []));
    [right; reflexivity | reflexivity | reflexivity].
Defined.

(** C9 as stated fails: with the display as [struct ConsoleState]
    initialises it (advanced display off), a failed read returns false
    with an empty line but the display mode is still RESET, not ERROR. *)
Lemma simple_read_failure_without_advanced_display :
  exists w',
    console_readline_simple [104; 105]
      (Samples.world Samples.default_state [] [] []) = Some (([], false), w')
    /\ mode (display (console_state w')) = CONSOLE_RESET
    /\ mode (display (console_state w')) <> CONSOLE_ERROR.
Proof.
  eexists. split; [vm_compute; reflexivity |].
  split; [reflexivity | discriminate].
Qed.

(* ===================================================================== *)
(** ** Who writes [console_state.io.multiline] (C10) *)
(* ===================================================================== *)

Section MultilineFlag.

Lemma same_input_flag w w' : same_input w w' -> flag w' = flag w.
Proof. intros (Hio & _). unfold flag. rewrite Hio. reflexivity. Qed.

Lemma input_taken_flag w w' : input_taken w w' -> flag w' = flag w.
Proof. intros (Hio & _). unfold flag. rewrite Hio. reflexivity. Qed.

Lemma console_input_character_run w :
  exists w',
    console_input_character w = Some (next_control (cin w), w')
    /\ io (console_state w') = io (console_state w).
Proof.
  unfold console_input_character, next_control.
  destruct (Cin.extract_char (cin w)) as [[control_ch |] c]; cbn [fst].
  - eexists. split; reflexivity.
  - unfold bind.
    destruct (console_set_display_mode_run CONSOLE_ERROR (set_cin c w))
      as (w1 & -> & (Hio & _) & _).
    eexists. split; [reflexivity |]. exact Hio.
Qed.

Lemma console_input_control_run w :
  exists w',
    console_input_control w = Some (next_control (cin w), w')
    /\ flag w' = (if next_control (cin w) =? 109 then negb (flag w) else flag w).
Proof.
  unfold console_input_control, bind.
  destruct (console_input_character_run w) as (w1 & -> & Hio).
  assert (Hf : flag w1 = flag w) by (unfold flag; rewrite Hio; reflexivity).
  destruct (next_control (cin w) =? EOF) eqn:Ee.
  - apply Z.eqb_eq in Ee. rewrite Ee. unfold EOF. simpl.
    eexists. split; [reflexivity | exact Hf].
  - destruct (next_control (cin w) =? 109) eqn:Em.
    + eexists. split; [reflexivity |].
      unfold flag in *. simpl. rewrite Hf. reflexivity.
    + eexists. split; [reflexivity | exact Hf].
Qed.

Lemma console_readline_simple_flag ln w :
  exists r w',
    console_readline_simple ln w = Some (r, w')
    /\ flag w' = (if reads_toggle_command ln (cin w) then negb (flag w) else flag w).
Proof.
  unfold console_readline_simple, bind, console_input_string, reads_toggle_command.
  destruct (Cin.getline ln (cin w)) as [[ln' ok] c].
  destruct ok; cbn [negb andb].
  2: { unfold bind.
       destruct (console_set_display_mode_run CONSOLE_ERROR (set_cin c w))
         as (w1 & -> & Hs & _).
       cbn [fst snd negb]. eexists _, _. split; [reflexivity |].
       rewrite (same_input_flag _ _ Hs). reflexivity. }
  cbn [fst snd negb].
  destruct ln' as [| b l].
  { destruct (console_set_display_mode_run CONSOLE_ERROR (set_cin c w))
      as (w1 & -> & Hs & _).
    eexists _, _. split; [reflexivity |].
    rewrite (same_input_flag _ _ Hs). reflexivity. }
  cbn [negb andb]. set (ln1 := b :: l).
  destruct (last ln1 0 =? 27) eqn:El; cbn [andb].
  - destruct (console_input_control_run (set_cin c w)) as (w1 & E & Hf).
    rewrite E. unfold ret, get_console_state. cbv beta iota.
    change (cin (set_cin c w)) with c in Hf.
    change (flag (set_cin c w)) with (flag w) in Hf.
    unfold next_control in Hf.
    destruct (Cin.extract_char c) as [[control_ch |] c1]; cbn [fst] in Hf.
    + destruct (negb (multiline (io (console_state w1))));
        eexists _, _; (split; [reflexivity | exact Hf]).
    + destruct (negb (multiline (io (console_state w1))));
        eexists _, _; (split; [reflexivity | exact Hf]).
  - unfold ret, get_console_state.
    destruct (negb (multiline (io (console_state (set_cin c w)))));
      eexists _, _; (split; [reflexivity | reflexivity]).
Qed.

End MultilineFlag.

(* ===================================================================== *)
(** ** Running the loop on given keys *)
(* ===================================================================== *)

Section Runs.
Variable P : Platform.

Lemma plain_below_surrogates u : 0 <= u < 0xD800 -> plain_unit P u = true.
Proof.
  intros H. unfold plain_unit. pose proof (WEOF_large P).
  apply andb_true_iff. split.
  - apply andb_true_iff. split; [apply Z.leb_le | apply Z.ltb_lt]; lia.
  - apply negb_true_iff. apply andb_false_iff. right.
    unfold is_surrogate. apply andb_false_iff. left. apply Z.leb_gt. lia.
Qed.

Lemma plain_not_WEOF u : plain_unit P u = true -> u <> WEOF P.
Proof.
  unfold plain_unit. intros H.
  apply andb_true_iff in H. destruct H as [H _].
  apply andb_true_iff in H. destruct H as [_ H].
  apply Z.ltb_lt in H. lia.
Qed.

Lemma getchar32_plain u r w :
  stdin_wide w = u :: r -> plain_unit P u = true ->
  getchar32 P w = Some (u, set_stdin_wide r w).
Proof.
  intros Hin Hu. unfold getchar32.
  rewrite Hin, getchar32_from_plain by exact Hu. reflexivity.
Qed.

Lemma loop_iteration_plain u r e w :
  stdin_wide w = u :: r -> plain_unit P u = true ->
  loop_iteration P e w = loop_body P u e (set_stdin_wide r w).
Proof.
  intros Hin Hu. unfold loop_iteration, bind.
  rewrite (getchar32_plain u r w Hin Hu). reflexivity.
Qed.

(** One turn of the loop on a key of the final [else] branch. *)
Lemma readline_loop_insert fuel u r e w :
  stdin_wide w = u :: r -> plain_unit P u = true ->
  u <> 13 -> u <> 10 -> u <> 0x04 -> u <> 27 -> u <> 0x08 -> u <> 0x7F ->
  exists wd w1,
    0 <= wd
    /\ readline_loop P (S fuel) e w =
         readline_loop P fuel
           (marked (line e ++ Utf8.utf8_bytes u) (widths e ++ [wd])) w1
    /\ stdin_wide w1 = r
    /\ io (console_state w1) = io (console_state w)
    /\ cin w1 = cin w.
Proof.
  intros Hin Hu H13 H10 H4 H27 H8 H7f.
  pose proof (plain_not_WEOF u Hu) as Hw.
  destruct (wp_run _ _ _
              (loop_body_insert P u e H13 H10 Hw H4 H27 H8 H7f
                 (set_stdin_wide r w)))
    as (o & w1 & E & (Hio & Hcin & Hstd) & wd & Hwd & ->).
  exists wd, w1. split; [exact Hwd |]. split.
  - cbn [readline_loop]. unfold bind.
    rewrite (loop_iteration_plain u r e w Hin Hu), E. reflexivity.
  - repeat split; assumption.
Qed.

(** The turn that reads the line terminator. *)
Lemma readline_loop_newline fuel r e w :
  stdin_wide w = 10 :: r ->
  readline_loop P (S fuel) e w = Some ((e, false), set_stdin_wide r w).
Proof.
  intros Hin. cbn [readline_loop]. unfold bind.
  rewrite (loop_iteration_plain 10 r e w Hin)
    by (apply plain_below_surrogates; lia).
  rewrite loop_body_break_line by auto. reflexivity.
Qed.

Lemma resolve_run e eos w :
  exists w',
    resolve e eos w = Some (resolved e eos (flag w), w') /\ same_input w w'.
Proof.
  assert (H : does same_input
                (let s := console_state w in
                 let has_more := multiline (io s) in
                 if is_special_char e then
                   replace_last 32 ;;;
                   pop_cursor ;;;
                   let last_ch := back (line e) in
                   let ln := removelast (line e) in
                   if last_ch =? 92 then
                     fwrite [10] (output (io s)) ;;;
                     ret (ln ++ [10], negb has_more)
                   else
                     if (length ln =? 1)%nat && (back ln =? 32) then
                       pop_cursor ;;;
                       ret ([], false)
                     else ret (ln, false)
                 else
                   if eos then ret (line e, false)
                   else
                     fwrite [10] (output (io s)) ;;;
                     ret (line e ++ [10], has_more))%console
                (fun r => r = resolved e eos (flag w))).
  { unfold resolved, flag. cbv zeta.
    destruct (is_special_char e).
    - quiet_bind; [apply quiet_replace_last | intros _ _].
      quiet_bind; [apply quiet_pop_cursor | intros _ _].
      destruct (back (line e) =? 92).
      + quiet_bind; [apply quiet_fwrite | intros _ _]. quiet_ret. reflexivity.
      + destruct ((length (removelast (line e)) =? 1)%nat
                  && (back (removelast (line e)) =? 32)).
        * quiet_bind; [apply quiet_pop_cursor | intros _ _].
          quiet_ret. reflexivity.
        * quiet_ret. reflexivity.
    - destruct eos.
      + quiet_ret. reflexivity.
      + quiet_bind; [apply quiet_fwrite | intros _ _]. quiet_ret. reflexivity. }
  destruct (wp_run _ _ _ (H w)) as (r & w' & E & Hs & ->).
  exists w'. split; [| exact Hs].
  unfold resolve, bind at 1, get_console_state. exact E.
Qed.

(** The discard loop on a sequence that ends: everything up to and
    including the first final unit is taken, nothing more. *)
Lemma discard_escape_exact junk : forall fuel w final rest,
  stdin_wide w = junk ++ final :: rest ->
  Forall (fun u => plain_unit P u = true /\ ends_escape u = false) junk ->
  ends_escape final = true ->
  (length junk < fuel)%nat ->
  discard_escape P fuel w = Some (tt, set_stdin_wide rest w).
Proof.
  induction junk as [| u junk IH]; intros fuel w final rest Hin Hjunk Hfinal Hfuel.
  - destruct fuel as [| fuel]; [simpl in Hfuel; lia |].
    assert (Hp : plain_unit P final = true).
    { apply plain_below_surrogates. unfold ends_escape in Hfinal. lia. }
    cbn [discard_escape]. unfold bind.
    rewrite (getchar32_plain final rest w Hin Hp).
    replace (final =? WEOF P) with false
      by (symmetry; apply Z.eqb_neq, plain_not_WEOF, Hp).
    rewrite Hfinal. reflexivity.
  - destruct fuel as [| fuel]; [simpl in Hfuel; lia |].
    inversion Hjunk as [| ? ? [Hp Hne] Hrest]; subst.
    cbn [discard_escape]. unfold bind.
    rewrite (getchar32_plain u (junk ++ final :: rest) w Hin Hp).
    replace (u =? WEOF P) with false
      by (symmetry; apply Z.eqb_neq, plain_not_WEOF, Hp).
    rewrite Hne.
    rewrite (IH fuel (set_stdin_wide (junk ++ final :: rest) w) final rest);
      [reflexivity | reflexivity | exact Hrest | exact Hfinal |].
    simpl in Hfuel. lia.
Qed.

Lemma escape_sequence_exact intro junk final rest w :
  stdin_wide w = intro :: junk ++ final :: rest ->
  intro = 91 \/ intro = 27 ->
  Forall (fun u => plain_unit P u = true /\ ends_escape u = false) junk ->
  ends_escape final = true ->
  escape_sequence P w = Some (tt, set_stdin_wide rest w).
Proof.
  intros Hin Hintro Hjunk Hfinal.
  unfold escape_sequence, bind.
  rewrite (getchar32_plain intro (junk ++ final :: rest) w Hin)
    by (apply plain_below_surrogates; lia).
  replace ((intro =? 91) || (intro =? 0x1B)) with true
    by (symmetry; apply orb_true_iff;
        destruct Hintro; [left | right]; apply Z.eqb_eq; assumption).
  unfold with_input_fuel.
  rewrite (discard_escape_exact junk _ _ final rest);
    [reflexivity | reflexivity | exact Hjunk | exact Hfinal |].
  cbn [stdin_wide set_stdin_wide]. rewrite length_app. lia.
Qed.

Lemma loop_iteration_escape e intro junk final rest w :
  stdin_wide w = 27 :: intro :: junk ++ final :: rest ->
  intro = 91 \/ intro = 27 ->
  Forall (fun u => plain_unit P u = true /\ ends_escape u = false) junk ->
  ends_escape final = true ->
  exists w',
    loop_iteration P e w = Some (Continue (marked (line e) (widths e)), w')
    /\ stdin_wide w' = rest
    /\ io (console_state w') = io (console_state w).
Proof.
  intros Hin Hintro Hjunk Hfinal. pose proof (WEOF_large P).
  rewrite (loop_iteration_plain 27 _ e w Hin)
    by (apply plain_below_surrogates; lia).
  rewrite loop_body_continues by lia.
  set (w0 := set_stdin_wide (intro :: junk ++ final :: rest) w).
  destruct (wp_run _ _ _ (quiet_unmark e w0))
    as (e1 & w1 & E1 & (Hio1 & Hcin1 & Hstd1) & Hl & Hw & Hf).
  unfold bind at 1. rewrite E1.
  change (27 =? 27) with true. cbv iota.
  unfold bind at 1. unfold bind at 1.
  rewrite (escape_sequence_exact intro junk final rest w1)
    by (try assumption; rewrite Hstd1; reflexivity).
  unfold ret at 1.
  destruct (wp_run _ _ _ (quiet_mark e1 Hf (set_stdin_wide rest w1)))
    as (o & w2 & E2 & (Hio2 & Hcin2 & Hstd2) & ->).
  rewrite E2. exists w2. rewrite Hl, Hw.
  split; [reflexivity |]. split; [exact Hstd2 |].
  rewrite Hio2. exact Hio1.
Qed.

End Runs.

(* ===================================================================== *)
(** ** Continuation markers (C2, C3), escape sequences (C7), the flag (C10) *)
(* ===================================================================== *)

(** Runs [console_readline_advanced] on keys that are all inserted,
    then a newline: [insert_key] once per key, [finish_line] at the end. *)
Ltac start_reading :=
  unfold console_readline_advanced, bind at 1, with_input_fuel;
  cbn [stdin_wide set_stdin_wide length app].

Ltac insert_key P Hin w' Hin' Hio' :=
  let wd := fresh "wd" in
  let Hwd := fresh "Hwd" in
  let E := fresh "E" in
  let Hcin := fresh "Hcin" in
  match type of Hin with
  | stdin_wide ?w = ?u :: ?r =>
      match goal with
      | |- context [readline_loop P (S ?fuel) ?e w] =>
          destruct (readline_loop_insert P fuel u r e w Hin
                      (plain_below_surrogates P u ltac:(lia))
                      ltac:(lia) ltac:(lia) ltac:(lia) ltac:(lia)
                      ltac:(lia) ltac:(lia))
            as (wd & w' & Hwd & E & Hin' & Hio' & Hcin);
          rewrite E; clear E;
          cbn [line widths marked app] in *
      end
  end.

(** C2.  Typing a, b, backslash and a newline makes the advanced reader
    return the line "ab\n", and as its result the negation of the
    multi-line flag as it was when the read started; the flag itself is
    left alone and the keys after the newline stay unread. *)
Theorem backslash_continuation (P : Platform) (w : World) (rest : list Z) :
  exists w',
    console_readline_advanced P
      (set_stdin_wide ([97; 98; 92; 10] ++ rest) w) =
    Some (([97; 98; 10], negb (multiline (io (console_state w)))), w')
    /\ multiline (io (console_state w')) = multiline (io (console_state w))
    /\ stdin_wide w' = rest.
Proof.
  start_reading.
  assert (H0 : stdin_wide (set_stdin_wide (97 :: 98 :: 92 :: 10 :: rest) w)
               = 97 :: 98 :: 92 :: 10 :: rest) by reflexivity.
  insert_key P H0 w1 H1 Hio1.
  insert_key P H1 w2 H2 Hio2.
  insert_key P H2 w3 H3 Hio3.
  rewrite (readline_loop_newline P _ rest _ w3 H3).
  cbn [fst snd].
  destruct (resolve_run
              (marked [97; 98; 92] [wd; wd0; wd1]) false (set_stdin_wide rest w3))
    as (w' & E & (Hio & _ & Hstd)).
  assert (Hflag : io (console_state w') = io (console_state w)).
  { rewrite Hio. cbn [console_state set_stdin_wide].
    rewrite Hio3, Hio2, Hio1. reflexivity. }
  assert (Hf : flag (set_stdin_wide rest w3) = flag w).
  { unfold flag. cbn [console_state set_stdin_wide].
    rewrite Hio3, Hio2, Hio1. reflexivity. }
  rewrite Hf in E.
  exists w'. split; [exact E | split].
  - rewrite Hflag. reflexivity.
  - rewrite Hstd. reflexivity.
Qed.

Lemma reads_ab_slash (P : Platform) (w : World) (rest : list Z) :
  exists w',
    console_readline_advanced P (set_stdin_wide ([97; 98; 47; 10] ++ rest) w) =
    Some (([97; 98], false), w').
Proof.
  start_reading.
  assert (H0 : stdin_wide (set_stdin_wide (97 :: 98 :: 47 :: 10 :: rest) w)
               = 97 :: 98 :: 47 :: 10 :: rest) by reflexivity.
  insert_key P H0 w1 H1 Hio1.
  insert_key P H1 w2 H2 Hio2.
  insert_key P H2 w3 H3 Hio3.
  rewrite (readline_loop_newline P _ rest _ w3 H3).
  cbn [fst snd].
  destruct (resolve_run
              (marked [97; 98; 47] [wd; wd0; wd1]) false (set_stdin_wide rest w3))
    as (w' & E & _).
  exists w'. exact E.
Qed.

Lemma reads_lone_slash (P : Platform) (w : World) (rest : list Z) :
  exists w',
    console_readline_advanced P (set_stdin_wide ([47; 10] ++ rest) w) =
    Some (([], false), w').
Proof.
  start_reading.
  assert (H0 : stdin_wide (set_stdin_wide (47 :: 10 :: rest) w)
               = 47 :: 10 :: rest) by reflexivity.
  insert_key P H0 w1 H1 Hio1.
  rewrite (readline_loop_newline P _ rest _ w1 H1).
  cbn [fst snd].
  destruct (resolve_run (marked [47] [wd]) false (set_stdin_wide rest w1))
    as (w' & E & _).
  exists w'. exact E.
Qed.

Lemma reads_space_slash (P : Platform) (w : World) (rest : list Z) :
  exists w',
    console_readline_advanced P (set_stdin_wide ([32; 47; 10] ++ rest) w) =
    Some (([], false), w').
Proof.
  start_reading.
  assert (H0 : stdin_wide (set_stdin_wide (32 :: 47 :: 10 :: rest) w)
               = 32 :: 47 :: 10 :: rest) by reflexivity.
  insert_key P H0 w1 H1 Hio1.
  insert_key P H1 w2 H2 Hio2.
  rewrite (readline_loop_newline P _ rest _ w2 H2).
  cbn [fst snd].
  destruct (resolve_run (marked [32; 47] [wd; wd0]) false (set_stdin_wide rest w2))
    as (w' & E & _).
  exists w'. exact E.
Qed.

(** C3.  Whatever the multi-line flag, so also when it is set: typing
    a, b, slash and a newline returns "ab" and false; a lone slash and a
    newline returns the empty line and false; and whenever the loop ends
    on a slash marker and the line without it is exactly one space, the
    returned line is empty (as after typing space, slash, newline). *)
Theorem slash_marker
    (P : Platform) (w : World) (rest : list Z) (e : Edit) (eos : bool) :
  is_special_char e = true ->
  back (line e) = 47 ->
  removelast (line e) = [32] ->
  (exists w',
     console_readline_advanced P (set_stdin_wide ([97; 98; 47; 10] ++ rest) w) =
     Some (([97; 98], false), w'))
  /\ (exists w',
        console_readline_advanced P (set_stdin_wide ([47; 10] ++ rest) w) =
        Some (([], false), w'))
  /\ (exists w',
        console_readline_advanced P (set_stdin_wide ([32; 47; 10] ++ rest) w) =
        Some (([], false), w'))
  /\ (exists w', resolve e eos w = Some (([], false), w')).
Proof.
  intros Hs Hb Hl.
  split; [apply reads_ab_slash |].
  split; [apply reads_lone_slash |].
  split; [apply reads_space_slash |].
  destruct (resolve_run e eos w) as (w' & E & _).
  exists w'. rewrite E. unfold resolved. rewrite Hs, Hb, Hl. reflexivity.
Qed.

Lemma slash_marker_witness :
  (exists w',
     console_readline_advanced Samples.linux
       (set_stdin_wide ([97; 98; 47; 10] ++ [120])
          (Samples.world (Samples.raw_state true) [] [] [])) =
     Some (([97; 98], false), w'))
  /\ (exists w',
        console_readline_advanced Samples.linux
          (set_stdin_wide ([47; 10] ++ [120])
             (Samples.world (Samples.raw_state true) [] [] [])) =
        Some (([], false), w'))
  /\ (exists w',
        console_readline_advanced Samples.linux
          (set_stdin_wide ([32; 47; 10] ++ [120])
             (Samples.world (Samples.raw_state true) [] [] [])) =
        Some (([], false), w'))
  /\ (exists w',
        resolve (marked [32; 47] [1; 1]) false
          (Samples.world (Samples.raw_state true) [] [] []) =
        Some (([], false), w')).
Proof.
  apply (slash_marker Samples.linux
           (Samples.world (Samples.raw_state true) [] [] []) [120]
           (marked [32; 47] [1; 1]) false);
    reflexivity.
Defined.

(** C7.  In the advanced reader an ESC, a '[' and an 'A' leave the line
    and the width stack as they were; and after an ESC followed by '['
    or a second ESC, the units up to and including the first one in
    A-Z, a-z or '~' are taken from the input and dropped, the line and
    the width stack staying as they were. *)
Theorem escape_sequence_discarded
    (P : Platform) (e : Edit) (w : World) (intro final : Z)
    (junk rest : list Z) :
  intro = 91 \/ intro = 27 ->
  Forall (fun u => plain_unit P u = true /\ ends_escape u = false) junk ->
  ends_escape final = true ->
  (exists e' w',
     loop_iteration P e (set_stdin_wide (27 :: 91 :: 65 :: rest) w) =
     Some (Continue e', w')
     /\ line e' = line e /\ widths e' = widths e /\ stdin_wide w' = rest)
  /\ (exists e' w',
        loop_iteration P e
          (set_stdin_wide (27 :: intro :: junk ++ final :: rest) w) =
        Some (Continue e', w')
        /\ line e' = line e /\ widths e' = widths e /\ stdin_wide w' = rest).
Proof.
  intros Hintro Hjunk Hfinal. split.
  - destruct (loop_iteration_escape P e 91 [] 65 rest
                (set_stdin_wide (27 :: 91 :: 65 :: rest) w))
      as (w' & E & Hstd & _);
      [reflexivity | left; reflexivity | constructor | reflexivity |].
    exists (marked (line e) (widths e)), w'. repeat split; assumption.
  - destruct (loop_iteration_escape P e intro junk final rest
                (set_stdin_wide (27 :: intro :: junk ++ final :: rest) w))
      as (w' & E & Hstd & _);
      [reflexivity | assumption | assumption | assumption |].
    exists (marked (line e) (widths e)), w'. repeat split; assumption.
Qed.

Lemma escape_sequence_discarded_witness :
  (exists e' w',
     loop_iteration Samples.linux (marked [104; 105] [1; 1])
       (set_stdin_wide (27 :: 91 :: 65 :: [120])
          (Samples.world (Samples.raw_state false) [] [] [])) =
     Some (Continue e', w')
     /\ line e' = [104; 105] /\ widths e' = [1; 1] /\ stdin_wide w' = [120])
  /\ (exists e' w',
        loop_iteration Samples.linux (marked [104; 105] [1; 1])
          (set_stdin_wide (27 :: 91 :: [49; 59; 53] ++ 67 :: [120])
             (Samples.world (Samples.raw_state false) [] [] [])) =
        Some (Continue e', w')
        /\ line e' = [104; 105] /\ widths e' = [1; 1] /\ stdin_wide w' = [120]).
Proof.
  apply (escape_sequence_discarded Samples.linux (marked [104; 105] [1; 1])
           (Samples.world (Samples.raw_state false) [] [] [])
           91 67 [49; 59; 53] [120]).
  - left; reflexivity.
  - repeat constructor.
  - reflexivity.
Defined.

Lemma reads_backslash (P : Platform) (w : World) (rest : list Z) :
  exists w',
    console_readline_advanced P (set_stdin_wide ([92; 10] ++ rest) w) =
    Some (([10], negb (flag w)), w')
    /\ flag w' = flag w.
Proof.
  start_reading.
  assert (H0 : stdin_wide (set_stdin_wide (92 :: 10 :: rest) w)
               = 92 :: 10 :: rest) by reflexivity.
  insert_key P H0 w1 H1 Hio1.
  rewrite (readline_loop_newline P _ rest _ w1 H1).
  cbn [fst snd].
  destruct (resolve_run (marked [92] [wd]) false (set_stdin_wide rest w1))
    as (w' & E & Hs).
  assert (Hf : flag (set_stdin_wide rest w1) = flag w).
  { unfold flag. cbn [console_state set_stdin_wide]. rewrite Hio1. reflexivity. }
  exists w'. split.
  - rewrite Hf in E. exact E.
  - rewrite (same_input_flag _ _ Hs). exact Hf.
Qed.

(** C10.  The advanced reader never writes the multi-line flag: it
    always returns with the flag as it found it, and a trailing
    backslash only negates the boolean it returns.  The flag is written
    by the control command alone: [console_input_control] toggles it
    exactly when the character it reads is 'm', and a whole
    [console_readline] changes it exactly when it runs in simple mode,
    reads a non-empty line ending in ESC, and reads 'm' next. *)
Theorem multiline_flag_written_only_by_control
    (P : Platform) (ln : list Z) (w : World) (rest : list Z) :
  (exists r w',
     console_readline_advanced P w = Some (r, w') /\ flag w' = flag w)
  /\ (exists w',
        console_readline_advanced P (set_stdin_wide ([92; 10] ++ rest) w) =
        Some (([10], negb (flag w)), w')
        /\ flag w' = flag w)
  /\ (exists w',
        console_input_control w = Some (next_control (cin w), w')
        /\ flag w' =
             (if next_control (cin w) =? 109 then negb (flag w) else flag w))
  /\ (exists r w',
        console_readline P ln w = Some (r, w')
        /\ flag w' =
             (if simple (io (console_state w)) && reads_toggle_command ln (cin w)
              then negb (flag w) else flag w)).
Proof.
  split; [| split; [| split]].
  - destruct (wp_run _ _ _ (console_readline_advanced_returns P w))
      as (r & w' & E & Ht & _).
    exists r, w'. split; [exact E | apply input_taken_flag, Ht].
  - apply reads_backslash.
  - apply console_input_control_run.
  - unfold console_readline, bind.
    destruct (console_set_display_mode_run CONSOLE_INPUT w)
      as (w1 & -> & (Hio & Hcin & Hstd) & _).
    unfold get_console_state. rewrite Hio.
    assert (Hf : flag w1 = flag w) by (unfold flag; rewrite Hio; reflexivity).
    destruct (simple (io (console_state w))); cbn [andb].
    + destruct (console_readline_simple_flag ln w1) as (r & w' & E & Hfl).
      exists r, w'. split; [exact E |]. rewrite Hfl, Hcin, Hf. reflexivity.
    + destruct (wp_run _ _ _ (console_readline_advanced_returns P w1))
        as (r & w' & E & Ht & _).
      exists r, w'. split; [exact E |].
      rewrite (input_taken_flag _ _ Ht). exact Hf.
Qed.

(* ===================================================================== *)
(** ** The width stack and the line (C6) *)
(* ===================================================================== *)

Section WidthStack.
Variable P : Platform.

Lemma encoded_snoc cps c : encoded (cps ++ [c]) = encoded cps ++ Utf8.utf8_bytes c.
Proof.
  unfold encoded. rewrite map_app, concat_app. simpl. rewrite app_nil_r.
  reflexivity.
Qed.

Lemma count_codepoints_encoded cps :
  Forall (fun c => 0 <= c <= 0x10FFFF) cps ->
  Utf8.count_codepoints (encoded cps) = length cps.
Proof.
  induction 1 as [| c cps Hc _ IH]; [reflexivity |].
  unfold encoded in *. simpl.
  rewrite Utf8Facts.count_codepoints_app, IH,
    Utf8Facts.count_codepoints_utf8 by exact Hc.
  reflexivity.
Qed.

Lemma well_formed_counts e :
  well_formed e -> length (widths e) = Utf8.count_codepoints (line e).
Proof.
  intros (cps & Hv & Hl & Hw).
  rewrite Hl, Hw, count_codepoints_encoded by exact Hv. reflexivity.
Qed.

(** The backspace loop pops as many code points as widths. *)
Lemma popped_encoded stack : forall cps,
  length stack = length cps ->
  Forall (fun c => 0 <= c <= 0x10FFFF) cps ->
  exists cps',
    Forall (fun c => 0 <= c <= 0x10FFFF) cps'
    /\ snd (popped stack (encoded cps)) = encoded cps'
    /\ length (fst (popped stack (encoded cps))) = length cps'.
Proof.
  induction stack as [| count stack' IH]; intros cps Hlen Hv.
  - exists cps. simpl. destruct cps; [| discriminate]. repeat split. exact Hv.
  - destruct cps as [| c0 cps0] using rev_ind; [discriminate |]. clear IHcps0.
    rewrite length_app in Hlen. simpl in Hlen.
    apply Forall_app in Hv. destruct Hv as [Hv0 Hc].
    inversion Hc as [| ? ? Hc0 _]; subst.
    cbn [popped]. rewrite encoded_snoc.
    change (encoded cps0 ++ Utf8.utf8_bytes c0)
      with (Utf8.append_utf8 c0 (encoded cps0)).
    rewrite Utf8Facts.pop_back_append by exact Hc0.
    destruct ((count =? 0)
              && negb match stack' with [] => true | _ => false end).
    + apply IH; [lia | exact Hv0].
    + exists cps0. repeat split; [exact Hv0 | simpl; lia].
Qed.

Lemma well_formed_initial : well_formed initial_edit.
Proof. exists []. repeat split. constructor. Qed.

Lemma well_formed_marked ln ws f :
  well_formed {| line := ln; widths := ws; is_special_char := f |} ->
  well_formed (marked ln ws).
Proof. intros (cps & H). exists cps. exact H. Qed.

Lemma well_formed_same e :
  well_formed e -> well_formed (marked (line e) (widths e)).
Proof. destruct e. apply well_formed_marked. Qed.

Lemma well_formed_after_backspace e :
  well_formed e -> well_formed (after_backspace e).
Proof.
  intros (cps & Hv & Hl & Hw). unfold after_backspace.
  destruct (popped_encoded (rev (widths e)) cps) as (cps' & Hv' & Hl' & Hw');
    [rewrite length_rev; exact Hw | exact Hv |].
  destruct (widths e) as [| x ws] eqn:E.
  - exists cps. rewrite E. repeat split; assumption.
  - exists cps'. cbn [line widths]. rewrite length_rev, Hl.
    repeat split; assumption.
Qed.

Lemma well_formed_insert e c wd :
  well_formed e -> 0 <= c <= 0x10FFFF ->
  well_formed (marked (line e ++ Utf8.utf8_bytes c) (widths e ++ [wd])).
Proof.
  intros (cps & Hv & Hl & Hw) Hc. exists (cps ++ [c]).
  cbn [marked line widths].
  rewrite encoded_snoc, Hl, !length_app, Hw. repeat split.
  apply Forall_app. split; [exact Hv | repeat constructor; lia].
Qed.

(** One turn that goes on keeps the line and the stack together, as
    long as the units it reads are code points. *)
Lemma loop_iteration_well_formed e w e' w' :
  loop_iteration P e w = Some (Continue e', w') ->
  Forall (fun u => 0 <= u <= 0x10FFFF) (stdin_wide w) ->
  well_formed e ->
  well_formed e' /\ Forall (fun u => 0 <= u <= 0x10FFFF) (stdin_wide w').
Proof.
  intros Hrun Hin Hwf. unfold loop_iteration, bind in Hrun.
  destruct (getchar32_run P w) as (c & w1 & E & Hc & Ht1).
  rewrite E in Hrun.
  pose proof (getchar32_from_range P (stdin_wide w) Hin) as Hrange.
  rewrite <- Hc in Hrange. cbn [fst] in Hrange.
  pose proof (input_taken_Forall _ _ _ Ht1 Hin) as Hin1.
  destruct (Z.eq_dec c 13) as [E13 | N13].
  { rewrite loop_body_break_line in Hrun by auto. discriminate. }
  destruct (Z.eq_dec c 10) as [E10 | N10].
  { rewrite loop_body_break_line in Hrun by auto. discriminate. }
  destruct (Z.eq_dec c (WEOF P)) as [Ew | Nw].
  { rewrite loop_body_break_eof in Hrun by auto. discriminate. }
  destruct (Z.eq_dec c 0x04) as [E4 | N4].
  { rewrite loop_body_break_eof in Hrun by auto. discriminate. }
  destruct Hrange as [Hw | Hrange]; [contradiction |].
  destruct (Z.eq_dec c 27) as [-> | N27].
  { destruct (wp_run _ _ _ (loop_body_escape P e w1)) as (o & w2 & E2 & Ht2 & ->).
    rewrite E2 in Hrun. inversion Hrun; subst.
    split; [apply well_formed_same, Hwf |].
    exact (input_taken_Forall _ _ _ Ht2 Hin1). }
  destruct (Z.eq_dec c 0x08) as [E8 | N8];
    [| destruct (Z.eq_dec c 0x7F) as [E7f | N7f]].
  1, 2: destruct (wp_run _ _ _ (loop_body_backspace P c e ltac:(auto) w1))
          as (o & w2 & E2 & Hs2 & ->);
        rewrite E2 in Hrun; inversion Hrun; subst;
        (split;
         [apply well_formed_same, well_formed_after_backspace, Hwf
         | exact (input_taken_Forall _ _ _ (same_input_taken _ _ Hs2) Hin1)]).
  destruct (wp_run _ _ _
              (loop_body_insert P c e N13 N10 Nw N4 N27 N8 N7f w1))
    as (o & w2 & E2 & Hs2 & wd & Hwd & ->).
  rewrite E2 in Hrun. inversion Hrun; subst.
  split; [apply well_formed_insert; assumption |].
  exact (input_taken_Forall _ _ _ (same_input_taken _ _ Hs2) Hin1).
Qed.

Lemma loop_reaches_well_formed w0 e w :
  Forall (fun u => 0 <= u <= 0x10FFFF) (stdin_wide w0) ->
  loop_reaches P w0 e w ->
  well_formed e /\ Forall (fun u => 0 <= u <= 0x10FFFF) (stdin_wide w).
Proof.
  intros Hin Hreach.
  induction Hreach as [| e w e' w' _ IH Hturn].
  - split; [apply well_formed_initial | exact Hin].
  - destruct IH as [Hwf Hin'].
    eapply loop_iteration_well_formed; eassumption.
Qed.

End WidthStack.

(** X27.  The pairing the loop keeps: for every input whose units are
    code points (0 to 0x10FFFF), after every turn of the advanced
    reader's loop the width stack has as many entries as the line has
    code points. *)
Theorem widths_match_line (P : Platform) (w0 : World) (e : Edit) (w : World) :
  Forall (fun u => 0 <= u <= 0x10FFFF) (stdin_wide w0) ->
  loop_reaches P w0 e w ->
  length (widths e) = Utf8.count_codepoints (line e).
Proof.
  intros Hin Hreach.
  apply well_formed_counts.
  exact (proj1 (loop_reaches_well_formed P w0 e w Hin Hreach)).
Qed.

Lemma widths_match_line_witness :
  length [1; 0] = Utf8.count_codepoints [97; 204; 129].
Proof.
  eapply (widths_match_line Samples.linux
            (Samples.world (Samples.raw_state_no_tty false) [97; 0x301; 98] [] [])
            {| line := [97; 204; 129]; widths := [1; 0];
               is_special_char := false |}).
  - repeat constructor; lia.
  - eapply reaches_turn;
      [eapply reaches_turn; [apply reaches_start | vm_compute; reflexivity] |].
    vm_compute. reflexivity.
Defined.

(** C6, at its failing input.  On the units a, b, 0x110000 (where
    [wchar_t] has 32 bits) the insert branch pushes a width for
    0x110000 although [append_utf8] appends no byte for a value above
    0x10FFFF: the stack has three entries and the line two code points.
    The backspace loop then pops widths and characters in lock step, so
    one backspace takes both [b] and [a] and the reader returns a bare
    newline, where the same keys without the unit 0x110000 return [a]
    and the newline. *)
Theorem phantom_width_breaks_pairing :
  (exists e w,
     loop_reaches Samples.linux
       (Samples.world (Samples.raw_state_no_tty false) [97; 98; 0x110000] [] [])
       e w
     /\ line e = [97; 98]
     /\ widths e = [1; 1; 0]
     /\ length (widths e) <> Utf8.count_codepoints (line e))
  /\ (exists w,
        console_readline_advanced Samples.linux
          (Samples.world (Samples.raw_state_no_tty false)
             [97; 98; 0x110000; 0x7F; 10] [] [])
        = Some (([10], false), w))
  /\ (exists w,
        console_readline_advanced Samples.linux
          (Samples.world (Samples.raw_state_no_tty false)
             [97; 98; 0x7F; 10] [] [])
        = Some (([97; 10], false), w)).
Proof.
  split; [| split].
  - eexists _, _. split.
    + eapply reaches_turn;
        [eapply reaches_turn;
           [eapply reaches_turn; [apply reaches_start | vm_compute; reflexivity]
           | vm_compute; reflexivity]
        | vm_compute; reflexivity].
    + split; [reflexivity |]. split; [reflexivity |]. discriminate.
  - eexists. vm_compute. reflexivity.
  - eexists. vm_compute. reflexivity.
Qed.

(* ===================================================================== *)
(** ** Backspace after typing (C1) *)
(* ===================================================================== *)

Section Backspace.
Variable P : Platform.

Lemma inserted_run c e w :
  inserted P c ->
  exists wd w',
    0 <= wd
    /\ loop_body P c e w =
         Some (Continue (marked (line e ++ Utf8.utf8_bytes c) (widths e ++ [wd])),
               w')
    /\ same_input w w'.
Proof.
  intros (Hr & H13 & H10 & Hw & H4 & H27 & H8 & H7f).
  destruct (wp_run _ _ _ (loop_body_insert P c e H13 H10 Hw H4 H27 H8 H7f w))
    as (o & w' & E & Hs & wd & Hwd & ->).
  exists wd, w'. split; [exact Hwd | split; [exact E | exact Hs]].
Qed.

Lemma backspace_run c e w :
  c = 0x08 \/ c = 0x7F ->
  exists w',
    loop_body P c e w =
      Some (Continue (marked (line (after_backspace e)) (widths (after_backspace e))),
            w')
    /\ same_input w w'.
Proof.
  intros Hc.
  destruct (wp_run _ _ _ (loop_body_backspace P c e Hc w))
    as (o & w' & E & Hs & ->).
  exists w'. split; assumption.
Qed.

(** Feeding inserted characters never stops the loop, and pushes one
    width for each. *)
Lemma feed_inserted cps : forall e w,
  Forall (inserted P) cps ->
  exists e1 w1,
    feed P cps e w = Some (Continue e1, w1)
    /\ length (widths e1) = (length (widths e) + length cps)%nat
    /\ same_input w w1.
Proof.
  induction cps as [| c cps IH]; intros e w Hall.
  - exists e, w. split; [reflexivity |].
    split; [simpl; lia | apply same_input_refl].
  - inversion Hall as [| ? ? Hc Hrest]; subst.
    destruct (inserted_run c e w Hc) as (wd & w' & _ & E & Hs).
    destruct (IH (marked (line e ++ Utf8.utf8_bytes c) (widths e ++ [wd])) w' Hrest)
      as (e1 & w1 & E1 & Hlen & Hs1).
    exists e1, w1. split.
    + cbn [feed]. unfold bind. rewrite E. exact E1.
    + split; [| eapply same_input_trans; eassumption].
      rewrite Hlen. cbn [marked widths]. rewrite length_app. simpl. lia.
Qed.

(** A backspace right after an insertion: the last code point goes;
    the ones before it stay when its width is not zero or it was the
    only one, and otherwise the backspace carries on as it would have
    from the state before the insertion. *)
Lemma after_backspace_insert e c wd :
  0 <= c <= 0x10FFFF ->
  let e2 := marked (line e ++ Utf8.utf8_bytes c) (widths e ++ [wd]) in
  (wd <> 0 \/ widths e = [] ->
   line (after_backspace e2) = line e /\ widths (after_backspace e2) = widths e)
  /\ (wd = 0 -> widths e <> [] ->
      line (after_backspace e2) = line (after_backspace e)
      /\ widths (after_backspace e2) = widths (after_backspace e)).
Proof.
  intros Hc e2.
  assert (Hpop : Utf8.pop_back_utf8_char (line e ++ Utf8.utf8_bytes c) = line e)
    by (apply (Utf8Facts.pop_back_append c (line e) Hc)).
  assert (Hab : after_backspace e2 =
                let r := popped (wd :: rev (widths e))
                           (line e ++ Utf8.utf8_bytes c) in
                {| line := snd r; widths := rev (fst r);
                   is_special_char := is_special_char e2 |}).
  { unfold after_backspace. subst e2. cbn [marked widths line].
    destruct (widths e ++ [wd]) as [| x l] eqn:E.
    - destruct (widths e); discriminate.
    - rewrite <- E, rev_app_distr. reflexivity. }
  rewrite Hab. cbn [popped]. rewrite Hpop. cbv zeta. split.
  - intros Hcase.
    replace ((wd =? 0)
             && negb match rev (widths e) with [] => true | _ => false end)
      with false.
    + cbn [fst snd line widths]. rewrite rev_involutive. split; reflexivity.
    + symmetry. apply andb_false_iff.
      destruct Hcase as [Hwd | Hnil].
      * left. apply Z.eqb_neq. exact Hwd.
      * right. rewrite Hnil. reflexivity.
  - intros Hwd Hne.
    replace ((wd =? 0)
             && negb match rev (widths e) with [] => true | _ => false end)
      with true.
    + unfold after_backspace.
      destruct (widths e) as [| x l] eqn:E; [congruence |].
      cbn [line widths]. split; reflexivity.
    + symmetry. apply andb_true_iff. split; [apply Z.eqb_eq, Hwd |].
      destruct (rev (widths e)) eqn:E; [| reflexivity].
      apply (f_equal (@rev Z)) in E. rewrite rev_involutive in E.
      simpl in E. contradiction.
Qed.

End Backspace.

(** C1, as the code has it.  After N code points are typed and then one
    backspace (0x08 or 0x7F), the line and the width stack are those
    reached by typing the first N-1 code points only, whenever the
    width recorded for the Nth code point is positive or N = 1.  When
    that width is 0 and N >= 2 the backspace goes on and leaves what a
    backspace typed after the first N-1 code points leaves. *)
Theorem backspace_undoes_last_insert
    (P : Platform) (w0 : World) (cps : list Z) (c bs : Z) :
  Forall (inserted P) cps ->
  inserted P c ->
  bs = 0x08 \/ bs = 0x7F ->
  exists e1 w1 e2 w2 e3 w3 wN,
    feed P cps initial_edit w0 = Some (Continue e1, w1)
    /\ loop_body P c e1 w1 = Some (Continue e2, w2)
    /\ loop_body P bs e2 w2 = Some (Continue e3, w3)
    /\ line e2 = line e1 ++ Utf8.utf8_bytes c
    /\ widths e2 = widths e1 ++ [wN]
    /\ 0 <= wN
    /\ (0 < wN \/ cps = [] -> line e3 = line e1 /\ widths e3 = widths e1)
    /\ (wN = 0 -> cps <> [] ->
        exists e1' w1',
          loop_body P bs e1 w1 = Some (Continue e1', w1')
          /\ line e3 = line e1' /\ widths e3 = widths e1').
Proof.
  intros Hcps Hc Hbs.
  destruct (feed_inserted P cps initial_edit w0 Hcps) as (e1 & w1 & E1 & Hlen & _).
  destruct (inserted_run P c e1 w1 Hc) as (wN & w2 & HwN & E2 & _).
  set (e2 := marked (line e1 ++ Utf8.utf8_bytes c) (widths e1 ++ [wN])) in *.
  destruct (backspace_run P bs e2 w2 Hbs) as (w3 & E3 & _).
  destruct Hc as (Hrange & _).
  destruct (after_backspace_insert e1 c wN Hrange) as [Hkeep Hmore].
  fold e2 in Hkeep, Hmore.
  exists e1, w1, e2, w2,
    (marked (line (after_backspace e2)) (widths (after_backspace e2))), w3, wN.
  split; [exact E1 |]. split; [exact E2 |]. split; [exact E3 |].
  split; [reflexivity |]. split; [reflexivity |]. split; [exact HwN |].
  cbn [initial_edit widths length] in Hlen. split.
  - intros Hcase. cbn [marked line widths]. apply Hkeep.
    destruct Hcase as [Hpos | Hnil]; [left; lia | right].
    subst cps. destruct (widths e1); [reflexivity | discriminate].
  - intros Hzero Hne.
    destruct (backspace_run P bs e1 w1 Hbs) as (w1' & E1' & _).
    exists (marked (line (after_backspace e1)) (widths (after_backspace e1))), w1'.
    split; [exact E1' |]. cbn [marked line widths]. apply Hmore; [exact Hzero |].
    intros Hnil. rewrite Hnil in Hlen. destruct cps; [congruence | discriminate].
Qed.

Lemma backspace_undoes_last_insert_witness :
  exists e1 w1 e2 w2 e3 w3 wN,
    feed Samples.linux [97; 0x4E2D] initial_edit
      (Samples.world (Samples.raw_state_no_tty false) [] [] []) =
    Some (Continue e1, w1)
    /\ loop_body Samples.linux 0xE9 e1 w1 = Some (Continue e2, w2)
    /\ loop_body Samples.linux 0x7F e2 w2 = Some (Continue e3, w3)
    /\ line e2 = line e1 ++ Utf8.utf8_bytes 0xE9
    /\ widths e2 = widths e1 ++ [wN]
    /\ 0 <= wN
    /\ (0 < wN \/ [97; 0x4E2D] = [] -> line e3 = line e1 /\ widths e3 = widths e1)
    /\ (wN = 0 -> [97; 0x4E2D] <> [] ->
        exists e1' w1',
          loop_body Samples.linux 0x7F e1 w1 = Some (Continue e1', w1')
          /\ line e3 = line e1' /\ widths e3 = widths e1').
Proof.
  apply (backspace_undoes_last_insert Samples.linux
           (Samples.world (Samples.raw_state_no_tty false) [] [] [])
           [97; 0x4E2D] 0xE9 0x7F).
  - repeat constructor; unfold WEOF; cbn [wide16 Samples.linux]; lia.
  - repeat split; unfold WEOF; cbn [wide16 Samples.linux]; lia.
  - right; reflexivity.
Defined.

(** C1 as stated fails when the Nth code point has width 0 and N >= 2:
    after 'a' and the combining acute accent U+0301 (width 0), one
    backspace removes both, so the line and the width stack are empty
    and not those reached by typing 'a' alone.  The whole reader shows
    the same: a, U+0301, backspace, newline returns "\n", where a,
    newline returns "a\n". *)
Lemma backspace_after_zero_width :
  exists e1 w1 e3 w3,
    feed Samples.linux [97] initial_edit
      (Samples.world (Samples.raw_state_no_tty false) [] [] []) =
    Some (Continue e1, w1)
    /\ feed Samples.linux [97; 0x0301; 0x08] initial_edit
         (Samples.world (Samples.raw_state_no_tty false) [] [] []) =
       Some (Continue e3, w3)
    /\ inserted Samples.linux 97
    /\ inserted Samples.linux 0x0301
    /\ line e1 = [97] /\ widths e1 = [1]
    /\ line e3 = [] /\ widths e3 = []
    /\ line e3 <> line e1
    /\ widths e3 <> widths e1
    /\ (exists w',
          console_readline_advanced Samples.linux
            (Samples.world (Samples.raw_state_no_tty false)
               [97; 0x0301; 0x08; 10] [] []) = Some (([10], false), w'))
    /\ (exists w',
          console_readline_advanced Samples.linux
            (Samples.world (Samples.raw_state_no_tty false) [97; 10] [] []) =
          Some (([97; 10], false), w')).
Proof.
  eexists _, _, _, _.
  split; [vm_compute; reflexivity |].
  split; [vm_compute; reflexivity |].
  split; [repeat split; unfold WEOF; cbn [wide16 Samples.linux]; lia |].
  split; [repeat split; unfold WEOF; cbn [wide16 Samples.linux]; lia |].
  split; [reflexivity |]. split; [reflexivity |].
  split; [reflexivity |]. split; [reflexivity |].
  split; [discriminate |]. split; [discriminate |].
  split; eexists; vm_compute; reflexivity.
Qed.

(* ===================================================================== *)
(** ** More on the encoder and on [pop_back_utf8_char] *)
(* ===================================================================== *)

Module Utf8More.
Import Utf8 Utf8Facts.

Lemma find_start_bounds ln n : forall pos,
  (find_start ln n pos <= pos)%nat /\ (pos <= find_start ln n pos + n)%nat.
Proof.
  induction n as [| n IH]; intros pos; simpl; [lia |].
  destruct pos as [| pos]; [lia |].
  destruct (negb (is_continuation (nth (S pos) ln 0))); [lia |].
  destruct (IH pos). lia.
Qed.

(** The bytes the scan walks back over are continuation bytes. *)
Lemma find_start_walks ln n : forall pos i,
  (find_start ln n pos < i <= pos)%nat -> is_continuation (nth i ln 0) = true.
Proof.
  induction n as [| n IH]; intros pos i Hi; simpl in Hi; [lia |].
  destruct pos as [| pos]; [lia |].
  destruct (is_continuation (nth (S pos) ln 0)) eqn:E; simpl in Hi; [| lia].
  destruct (Nat.eq_dec i (S pos)) as [-> | Hne]; [exact E |].
  apply (IH pos). lia.
Qed.

(** Where the scan stops early it stands on a byte that starts a character,
    or at the front of the line. *)
Lemma find_start_stops ln n : forall pos,
  (pos < find_start ln n pos + n)%nat ->
  find_start ln n pos = O
  \/ is_continuation (nth (find_start ln n pos) ln 0) = false.
Proof.
  induction n as [| n IH]; intros pos Hlt; simpl in *; [lia |].
  destruct pos as [| pos]; [left; reflexivity |].
  destruct (is_continuation (nth (S pos) ln 0)) eqn:E; simpl in *.
  - apply IH. lia.
  - right. exact E.
Qed.

Lemma Forall_nth_range (Q : Z -> Prop) l :
  (forall i, (i < length l)%nat -> Q (nth i l 0)) -> Forall Q l.
Proof.
  induction l as [| x l IH]; intros H; constructor.
  - apply (H O). simpl. lia.
  - apply IH. intros i Hi. apply (H (S i)). simpl. lia.
Qed.

Lemma tl_skipn (k : nat) : forall l : list Z, tl (skipn k l) = skipn (S k) l.
Proof.
  induction k as [| k IH]; intros l.
  - destruct l; reflexivity.
  - destruct l as [| x l]; [reflexivity |]. simpl. apply IH.
Qed.

Lemma hd_skipn (k : nat) : forall l : list Z, hd 0 (skipn k l) = nth k l 0.
Proof.
  induction k as [| k IH]; intros l.
  - destruct l; reflexivity.
  - destruct l as [| x l]; [reflexivity |]. simpl. apply IH.
Qed.

End Utf8More.

(** X3.  On any bytes whatever, [pop_back_utf8_char] leaves a prefix of
    the line: an empty line stays empty, and from a line that is not
    empty it cuts between one and four bytes, of which all but the first
    are continuation bytes; when it cuts fewer than four and something
    is left, the first byte cut is not a continuation byte. *)
Theorem pop_back_cuts_one_character (ln : list Z) :
  exists cut,
    ln = Utf8.pop_back_utf8_char ln ++ cut
    /\ (ln = [] -> cut = [])
    /\ (ln <> [] ->
        (1 <= length cut <= 4)%nat
        /\ Forall (fun b => Utf8.is_continuation b = true) (tl cut)
        /\ ((length cut < 4)%nat -> Utf8.pop_back_utf8_char ln <> [] ->
            Utf8.is_continuation (hd 0 cut) = false)).
Proof.
  destruct ln as [| b0 l0]; [exists []; repeat split; congruence |].
  set (ln := b0 :: l0).
  assert (Hlen : (length ln = S (length l0))%nat) by reflexivity.
  set (k := Utf8.find_start ln 3 (length ln - 1)).
  assert (Hpop : Utf8.pop_back_utf8_char ln = firstn k ln) by reflexivity.
  destruct (Utf8More.find_start_bounds ln 3 (length ln - 1)) as [Hk1 Hk2].
  fold k in Hk1, Hk2.
  exists (skipn k ln). rewrite Hpop.
  split; [symmetry; apply firstn_skipn |].
  split; [discriminate |]. intros _.
  assert (Hcut : length (skipn k ln) = (length ln - k)%nat) by apply length_skipn.
  split; [lia |]. split.
  - apply Utf8More.Forall_nth_range. intros i Hi.
    rewrite Utf8More.tl_skipn in *. rewrite length_skipn in Hi.
    rewrite nth_skipn.
    apply (Utf8More.find_start_walks ln 3 (length ln - 1)). fold k. lia.
  - intros Hshort Hrest.
    rewrite Utf8More.hd_skipn.
    destruct (Utf8More.find_start_stops ln 3 (length ln - 1)) as [H0 | Hc];
      fold k; [lia | | exact Hc].
    fold k in H0. rewrite H0 in Hrest. simpl in Hrest. congruence.
Qed.

Module Utf8Shape.
Import Utf8 Utf8Facts.

Lemma bytes_1 cp : 0 <= cp <= 0x7F -> Forall Utf8.valid_byte (utf8_bytes cp).
Proof.
  intros H. rewrite utf8_bytes_1 by lia.
  repeat constructor; unfold Utf8.valid_byte; lia.
Qed.

Lemma bytes_2 cp : 0x80 <= cp <= 0x7FF -> Forall Utf8.valid_byte (utf8_bytes cp).
Proof.
  intros H. rewrite utf8_bytes_2 by lia.
  repeat constructor; unfold Utf8.valid_byte; div_mod_lia.
Qed.

Lemma bytes_3 cp : 0x800 <= cp <= 0xFFFF -> Forall Utf8.valid_byte (utf8_bytes cp).
Proof.
  intros H. rewrite utf8_bytes_3 by lia.
  repeat constructor; unfold Utf8.valid_byte; div_mod_lia.
Qed.

Lemma bytes_4 cp : 0x10000 <= cp <= 0x10FFFF -> Forall Utf8.valid_byte (utf8_bytes cp).
Proof.
  intros H. rewrite utf8_bytes_4 by lia.
  repeat constructor; unfold Utf8.valid_byte; div_mod_lia.
Qed.

Lemma cons_eq (a b : Z) (l m : list Z) : a :: l = b :: m -> a = b /\ l = m.
Proof. intros H. injection H. auto. Qed.

(** No encoding is the beginning of another one. *)
Lemma utf8_bytes_prefix_free c1 c2 r1 r2 :
  0 <= c1 <= 0x10FFFF -> 0 <= c2 <= 0x10FFFF ->
  utf8_bytes c1 ++ r1 = utf8_bytes c2 ++ r2 -> c1 = c2 /\ r1 = r2.
Proof.
  intros H1 H2 E.
  assert (C1 : 0 <= c1 <= 0x7F \/ 0x80 <= c1 <= 0x7FF
               \/ 0x800 <= c1 <= 0xFFFF \/ 0x10000 <= c1 <= 0x10FFFF) by lia.
  assert (C2 : 0 <= c2 <= 0x7F \/ 0x80 <= c2 <= 0x7FF
               \/ 0x800 <= c2 <= 0xFFFF \/ 0x10000 <= c2 <= 0x10FFFF) by lia.
  destruct C1 as [C1 | [C1 | [C1 | C1]]];
    [rewrite (utf8_bytes_1 c1 C1) in E | rewrite (utf8_bytes_2 c1 C1) in E
     | rewrite (utf8_bytes_3 c1 C1) in E | rewrite (utf8_bytes_4 c1 C1) in E];
    (destruct C2 as [C2 | [C2 | [C2 | C2]]];
     [rewrite (utf8_bytes_1 c2 C2) in E | rewrite (utf8_bytes_2 c2 C2) in E
      | rewrite (utf8_bytes_3 c2 C2) in E | rewrite (utf8_bytes_4 c2 C2) in E]);
    cbn [app] in E;
    repeat match type of E with
           | _ :: _ = _ :: _ =>
               let H := fresh "Hb" in
               apply cons_eq in E; destruct E as [H E]
           end;
    first [ exfalso; div_mod_lia
          | split; [div_mod_lia | exact E] ].
Qed.

End Utf8Shape.

(** X1.  The encoding can be read back in one way only: two sequences
    of code points (each at most 0x10FFFF) that [append_utf8] turns
    into the same bytes are the same sequence. *)
Theorem encoded_injective (cps1 cps2 : list Z) :
  Forall (fun c => 0 <= c <= 0x10FFFF) cps1 ->
  Forall (fun c => 0 <= c <= 0x10FFFF) cps2 ->
  encoded cps1 = encoded cps2 ->
  cps1 = cps2.
Proof.
  intros H1. revert cps2.
  induction H1 as [| c1 cps1 Hc1 _ IH]; intros cps2 H2 E.
  - destruct H2 as [| c2 cps2 Hc2 _]; [reflexivity |].
    exfalso. unfold encoded in E. simpl in E.
    destruct (Utf8Facts.utf8_bytes_shape c2 Hc2) as (lead & tail & Eb & _).
    rewrite Eb in E. discriminate.
  - destruct H2 as [| c2 cps2 Hc2 H2].
    + exfalso. unfold encoded in E. simpl in E.
      destruct (Utf8Facts.utf8_bytes_shape c1 Hc1) as (lead & tail & Eb & _).
      rewrite Eb in E. discriminate.
    + unfold encoded in E. simpl in E.
      destruct (Utf8Shape.utf8_bytes_prefix_free c1 c2 _ _ Hc1 Hc2 E) as [-> E'].
      f_equal. apply IH; assumption.
Qed.

Lemma encoded_injective_witness : [0x20AC; 97] = [0x20AC; 97].
Proof.
  apply (encoded_injective [0x20AC; 97] [0x20AC; 97]);
    [repeat constructor; lia | repeat constructor; lia | reflexivity].
Defined.

(** X2.  [append_utf8] appends 1, 2, 3 or 4 bytes as the code point is
    at most 0x7F, 0x7FF, 0xFFFF or 0x10FFFF, and nothing above that.
    What it appends is one character to [pop_back_utf8_char]'s test (one
    byte that is not a continuation byte), and none of its bytes is
    0xC0, 0xC1 or 0xF5 and above, which no UTF-8 text contains. *)
Theorem append_utf8_shape (ch : Z) (out : list Z) :
  0 <= ch ->
  exists bytes,
    Utf8.append_utf8 ch out = out ++ bytes
    /\ length bytes =
         (if ch <=? 0x7F then 1%nat else if ch <=? 0x7FF then 2%nat
          else if ch <=? 0xFFFF then 3%nat else if ch <=? 0x10FFFF then 4%nat
          else 0%nat)
    /\ Utf8.count_codepoints bytes = (if ch <=? 0x10FFFF then 1%nat else 0%nat)
    /\ Forall Utf8.valid_byte bytes.
Proof.
  intros H0. exists (Utf8.utf8_bytes ch). split; [reflexivity |].
  destruct (Z.leb_spec ch 0x7F) as [L1 | L1].
  { replace (ch <=? 0x10FFFF) with true by (symmetry; apply Z.leb_le; lia).
    rewrite Utf8Facts.count_codepoints_utf8 by lia.
    split; [rewrite Utf8Facts.utf8_bytes_1 by lia; reflexivity |].
    split; [reflexivity | apply Utf8Shape.bytes_1; lia]. }
  destruct (Z.leb_spec ch 0x7FF) as [L2 | L2].
  { replace (ch <=? 0x10FFFF) with true by (symmetry; apply Z.leb_le; lia).
    rewrite Utf8Facts.count_codepoints_utf8 by lia.
    split; [rewrite Utf8Facts.utf8_bytes_2 by lia; reflexivity |].
    split; [reflexivity | apply Utf8Shape.bytes_2; lia]. }
  destruct (Z.leb_spec ch 0xFFFF) as [L3 | L3].
  { replace (ch <=? 0x10FFFF) with true by (symmetry; apply Z.leb_le; lia).
    rewrite Utf8Facts.count_codepoints_utf8 by lia.
    split; [rewrite Utf8Facts.utf8_bytes_3 by lia; reflexivity |].
    split; [reflexivity | apply Utf8Shape.bytes_3; lia]. }
  destruct (Z.leb_spec ch 0x10FFFF) as [L4 | L4].
  { rewrite Utf8Facts.count_codepoints_utf8 by lia.
    split; [rewrite Utf8Facts.utf8_bytes_4 by lia; reflexivity |].
    split; [reflexivity | apply Utf8Shape.bytes_4; lia]. }
  rewrite Utf8Facts.utf8_bytes_out_of_range by lia.
  split; [reflexivity |]. split; [reflexivity | constructor].
Qed.

Lemma append_utf8_shape_witness :
  exists bytes,
    Utf8.append_utf8 0x1F600 [97] = [97] ++ bytes
    /\ length bytes = 4%nat
    /\ Utf8.count_codepoints bytes = 1%nat
    /\ Forall Utf8.valid_byte bytes.
Proof.
  apply (append_utf8_shape 0x1F600 [97]). lia.
Defined.

(** X4.  [pop_back_utf8_char] undoes [append_utf8]: after a code point
    up to 0x10FFFF is appended to any line at all, popping gives that
    line back, and the appending had added exactly one to the count of
    code points. *)
Theorem pop_back_undoes_append (ch : Z) (ln : list Z) :
  0 <= ch <= 0x10FFFF ->
  Utf8.pop_back_utf8_char (Utf8.append_utf8 ch ln) = ln
  /\ Utf8.count_codepoints (Utf8.append_utf8 ch ln)
     = S (Utf8.count_codepoints ln).
Proof.
  intros H. split; [apply Utf8Facts.pop_back_append, H |].
  unfold Utf8.append_utf8.
  rewrite Utf8Facts.count_codepoints_app, Utf8Facts.count_codepoints_utf8 by exact H.
  lia.
Qed.

Lemma pop_back_undoes_append_witness :
  Utf8.pop_back_utf8_char (Utf8.append_utf8 0x4E2D [200; 128; 128]) = [200; 128; 128]
  /\ Utf8.count_codepoints (Utf8.append_utf8 0x4E2D [200; 128; 128])
     = S (Utf8.count_codepoints [200; 128; 128]).
Proof.
  apply (pop_back_undoes_append 0x4E2D [200; 128; 128]). lia.
Defined.

(* ===================================================================== *)
(** ** More on [getchar32], the display mode and the width probe *)
(* ===================================================================== *)

(** X5.  Where [wchar_t] has 16 bits, [getchar32] never returns a
    surrogate value: whatever the units, its result is at most 0x10FFFF
    and outside 0xD800-0xDFFF, and it takes one or two units from an
    input that is not exhausted. *)
Theorem getchar32_never_surrogate (P : Platform) (s : list Z) :
  wide16 P = true ->
  ~ (0xD800 <= fst (getchar32_from P s) <= 0xDFFF)
  /\ 0 <= fst (getchar32_from P s) <= 0x10FFFF
  /\ exists taken,
       s = taken ++ snd (getchar32_from P s)
       /\ (length taken <= 2)%nat
       /\ (s <> [] -> (1 <= length taken)%nat).
Proof.
  intros wide.
  assert (Hrange : forall u, 0 <= to_wchar P u < 0x10000).
  { intros u. unfold to_wchar. rewrite wide. apply Z.mod_pos_bound. lia. }
  destruct s as [| u r].
  - rewrite getchar32_from_nil, (WEOF_16 P wide). cbn [fst snd].
    split; [lia |]. split; [lia |]. exists []. repeat split; simpl; try lia.
    congruence.
  - unfold getchar32_from.
    change (getwchar_from P (u :: r)) with (to_wchar P u, r). cbv iota beta.
    rewrite (WEOF_16 P wide), wide.
    pose proof (Hrange u) as Hu.
    destruct (to_wchar P u =? 0xFFFF) eqn:Ee.
    { cbn [fst snd]. split; [lia |]. split; [lia |].
      exists [u]. repeat split; simpl; lia. }
    destruct (is_high_surrogate (to_wchar P u)) eqn:Eh.
    + destruct r as [| u2 r2]; cbn [getwchar_from].
      * rewrite (WEOF_16 P wide).
        change (is_low_surrogate 0xFFFF) with false. cbv iota beta.
        assert (Es : is_surrogate (to_wchar P u) = true).
        { unfold is_high_surrogate, is_surrogate in *.
          apply andb_true_iff in Eh. destruct Eh as [E1 E2].
          apply andb_true_iff. split; [exact E1 |].
          apply Z.leb_le in E2. apply Z.leb_le. lia. }
        rewrite Es. cbn [fst snd]. split; [lia |]. split; [lia |].
        exists [u]. repeat split; simpl; lia.
      * destruct (is_low_surrogate (to_wchar P u2)); cbv iota beta.
        -- cbn [fst snd].
           pose proof (combine_surrogates_range (to_wchar P u) (to_wchar P u2)).
           split; [lia |]. split; [lia |].
           exists [u; u2]. repeat split; simpl; lia.
        -- assert (Es : is_surrogate (to_wchar P u) = true).
           { unfold is_high_surrogate, is_surrogate in *.
             apply andb_true_iff in Eh. destruct Eh as [E1 E2].
             apply andb_true_iff. split; [exact E1 |].
             apply Z.leb_le in E2. apply Z.leb_le. lia. }
           rewrite Es. cbn [fst snd]. split; [lia |]. split; [lia |].
           exists [u; u2]. repeat split; simpl; lia.
    + cbv iota beta.
      destruct (is_surrogate (to_wchar P u)) eqn:Es; cbn [fst snd].
      * split; [lia |]. split; [lia |]. exists [u]. repeat split; simpl; lia.
      * split.
        { unfold is_surrogate in Es. apply andb_false_iff in Es.
          destruct Es as [Es | Es]; apply Z.leb_gt in Es; lia. }
        split; [lia |]. exists [u]. repeat split; simpl; lia.
Qed.

Lemma getchar32_never_surrogate_witness :
  ~ (0xD800 <= fst (getchar32_from Samples.utf16 [0xDC00; 0x41]) <= 0xDFFF)
  /\ 0 <= fst (getchar32_from Samples.utf16 [0xDC00; 0x41]) <= 0x10FFFF
  /\ exists taken,
       [0xDC00; 0x41] = taken ++ snd (getchar32_from Samples.utf16 [0xDC00; 0x41])
       /\ (length taken <= 2)%nat
       /\ ([0xDC00; 0x41] <> [] -> (1 <= length taken)%nat).
Proof.
  apply (getchar32_never_surrogate Samples.utf16 [0xDC00; 0x41]). reflexivity.
Defined.

Lemma mode_eqb_refl m : mode_eqb m m = true.
Proof. destruct m; reflexivity. Qed.

(** X6.  [console_set_display_mode] writes the ANSI code of the mode
    asked for, once, exactly when the advanced display is on and the
    mode differs from the current one; otherwise it changes nothing at
    all.  Asking again for the same mode right away changes nothing. *)
Theorem display_mode_written_on_change (m : console_mode_t) (w : World) :
  exists w1,
    console_set_display_mode m w = Some (tt, w1)
    /\ written w1 =
         written w ++
         (if advanced (display (console_state w))
             && negb (mode_eqb (mode (display (console_state w))) m)
          then [(output (io (console_state w)), ansi_of_mode m)] else [])
    /\ (advanced (display (console_state w))
        && negb (mode_eqb (mode (display (console_state w))) m) = false ->
        w1 = w)
    /\ io (console_state w1) = io (console_state w)
    /\ console_set_display_mode m w1 = Some (tt, w1).
Proof.
  unfold console_set_display_mode, bind, get_console_state.
  destruct (advanced (display (console_state w))
            && negb (mode_eqb (mode (display (console_state w))) m)) eqn:E.
  - eexists. split; [reflexivity |]. split; [reflexivity |].
    split; [discriminate |]. split; [reflexivity |].
    cbn [console_state set_console_state add_written set_mode display mode advanced].
    rewrite mode_eqb_refl. cbn [negb]. rewrite andb_false_r. reflexivity.
  - exists w. split; [reflexivity |]. split; [symmetry; apply app_nil_r |].
    split; [reflexivity |]. split; [reflexivity |].
    rewrite E. reflexivity.
Qed.

Module ScanfFacts.
Import Scanf.

Lemma isdigit_char d : 0 <= d <= 9 -> isdigit (48 + d) = true.
Proof.
  intros H. unfold isdigit. apply andb_true_iff.
  split; apply Z.leb_le; lia.
Qed.

Lemma isspace_char d : 0 <= d <= 9 -> isspace (48 + d) = false.
Proof.
  intros H. unfold isspace. apply orb_false_iff. split.
  - apply Z.eqb_neq. lia.
  - apply andb_false_iff. right. apply Z.leb_gt. lia.
Qed.

Lemma scan_digits_chars ds : forall acc c rest,
  Forall (fun d => 0 <= d <= 9) ds ->
  isdigit c = false ->
  scan_digits acc (digit_chars ds ++ c :: rest)
  = (fold_left (fun a d => a * 10 + d) ds acc, c :: rest).
Proof.
  induction ds as [| d ds IH]; intros acc c rest Hds Hc.
  - simpl. rewrite Hc. reflexivity.
  - inversion Hds as [| ? ? Hd Hrest]; subst.
    cbn [digit_chars map app scan_digits fold_left].
    rewrite (isdigit_char d Hd).
    replace (48 + d - 48) with d by lia.
    apply (IH _ c rest Hrest Hc).
Qed.

Lemma to_int_small v : - 2 ^ 31 <= v < 2 ^ 31 -> to_int v = v.
Proof. intros H. unfold to_int. rewrite Z.mod_small; lia. Qed.

Lemma digits_value_nonneg ds :
  Forall (fun d => 0 <= d <= 9) ds -> 0 <= digits_value ds.
Proof.
  unfold digits_value. intros H.
  assert (G : forall acc, 0 <= acc ->
                0 <= fold_left (fun a d => a * 10 + d) ds acc).
  { induction H as [| d ds Hd _ IH]; intros acc Hacc; simpl; [exact Hacc |].
    apply IH. lia. }
  apply G. lia.
Qed.

Lemma scan_int_digits ds c rest :
  int_digits ds -> isdigit c = false ->
  scan_int (digit_chars ds ++ c :: rest) = Converted (digits_value ds) (c :: rest).
Proof.
  intros (Hne & Hds & Hmax) Hc.
  destruct ds as [| d ds]; [congruence |].
  inversion Hds as [| ? ? Hd Hrest]; subst.
  unfold scan_int.
  change (digit_chars (d :: ds) ++ c :: rest)
    with ((48 + d) :: (digit_chars ds ++ c :: rest)).
  cbn [skip_space]. rewrite (isspace_char d Hd).
  replace (48 + d =? 45) with false by (symmetry; apply Z.eqb_neq; lia).
  replace (48 + d =? 43) with false by (symmetry; apply Z.eqb_neq; lia).
  rewrite (isdigit_char d Hd).
  change ((48 + d) :: (digit_chars ds ++ c :: rest))
    with (digit_chars (d :: ds) ++ c :: rest).
  rewrite (scan_digits_chars (d :: ds) 0 c rest Hds Hc).
  fold (digits_value (d :: ds)).
  pose proof (digits_value_nonneg (d :: ds) Hds) as Hpos.
  unfold strtol, LONG_MAX. rewrite Z.min_r by lia.
  rewrite to_int_small; [reflexivity | lia].
Qed.

(** [fscanf] reads a well-formed cursor report completely. *)
Lemma fscanf_cursor_report row col rest :
  int_digits row -> int_digits col ->
  fscanf_cursor_pos (cursor_report row col ++ rest)
  = ({| assigned := 2; row := Some (digits_value row);
        Scanf.col := Some (digits_value col) |}, rest).
Proof.
  intros Hr Hc. unfold cursor_report.
  rewrite <- !app_assoc. cbn [app].
  unfold fscanf_cursor_pos.
  change (27 =? 27) with true. change (91 =? 91) with true. cbn [negb].
  rewrite (scan_int_digits row 59 _ Hr eq_refl).
  change (59 =? 59) with true. cbn [negb].
  rewrite (scan_int_digits col 82 rest Hc eq_refl).
  change (82 =? 82) with true. reflexivity.
Qed.

End ScanfFacts.

(** X8.  When the terminal answers both queries with a cursor report
    [ESC [ row ; col R], [put_codepoint] returns the column of the
    second report minus the column of the first, plus the window's
    column count when that difference is negative (the cursor wrapped),
    and has read exactly the two reports. *)
Theorem put_codepoint_measures
    (bytes : list Z) (expected : Z) (tty : FILEp) (w : World)
    (row1 col1 row2 col2 : list Z) (rest : list Z) :
  expected < 0 ->
  teletype (io (console_state w)) = Some tty ->
  tty_reply w = cursor_report row1 col1 ++ cursor_report row2 col2 ++ rest ->
  int_digits row1 -> int_digits col1 -> int_digits row2 -> int_digits col2 ->
  0 <= ws_col w < 0x10000 ->
  exists w',
    put_codepoint bytes expected w =
      Some ((if digits_value col2 - digits_value col1 <? 0
             then digits_value col2 - digits_value col1 + ws_col w
             else digits_value col2 - digits_value col1), w')
    /\ tty_reply w' = rest.
Proof.
  intros Hneg Htty Hreply Hr1 Hc1 Hr2 Hc2 Hws.
  pose proof (ScanfFacts.digits_value_nonneg col1 (proj1 (proj2 Hc1))) as P1.
  pose proof (ScanfFacts.digits_value_nonneg col2 (proj1 (proj2 Hc2))) as P2.
  pose proof (proj2 (proj2 Hc1)) as M1. pose proof (proj2 (proj2 Hc2)) as M2.
  unfold put_codepoint, put_codepoint_on, bind, get_console_state.
  replace (expected >=? 0) with false
    by (symmetry; rewrite Z.geb_leb; apply Z.leb_gt; lia).
  rewrite Htty.
  unfold fwrite, fscanf_teletype. cbn [tty_reply add_written set_tty_reply].
  rewrite Hreply, ScanfFacts.fscanf_cursor_report by assumption.
  cbn [tty_reply add_written set_tty_reply].
  rewrite ScanfFacts.fscanf_cursor_report by assumption.
  cbn [Scanf.assigned Scanf.col assigned_or_0].
  change (4 =? 2 + 2) with true. cbn [negb].
  rewrite (ScanfFacts.to_int_small (digits_value col2 - digits_value col1)) by lia.
  rewrite Z.gtb_ltb.
  destruct (Z.ltb_spec (digits_value col2 - digits_value col1) 0) as [Hlt | Hge].
  - unfold ioctl_ws_col, ret. cbn [ws_col add_written set_tty_reply].
    rewrite ScanfFacts.to_int_small by lia.
    eexists. split; reflexivity.
  - unfold ret. eexists. split; reflexivity.
Qed.

Lemma put_codepoint_measures_witness :
  exists w',
    put_codepoint [228; 184; 173] (-1)
      (Samples.world (Samples.raw_state false) [] []
         (cursor_report [1] [7; 9] ++ cursor_report [2] [1] ++ [120])) =
    Some (2, w')
    /\ tty_reply w' = [120].
Proof.
  apply (put_codepoint_measures [228; 184; 173] (-1) DevTty
           (Samples.world (Samples.raw_state false) [] []
              (cursor_report [1] [7; 9] ++ cursor_report [2] [1] ++ [120]))
           [1] [7; 9] [2] [1] [120]).
  - lia.
  - reflexivity.
  - reflexivity.
  - split; [discriminate |].
    split; [repeat (apply Forall_cons; [lia |]); apply Forall_nil |].
    vm_compute; reflexivity.
  - split; [discriminate |].
    split; [repeat (apply Forall_cons; [lia |]); apply Forall_nil |].
    vm_compute; reflexivity.
  - split; [discriminate |].
    split; [repeat (apply Forall_cons; [lia |]); apply Forall_nil |].
    vm_compute; reflexivity.
  - split; [discriminate |].
    split; [repeat (apply Forall_cons; [lia |]); apply Forall_nil |].
    vm_compute; reflexivity.
  - cbn [ws_col Samples.world]. lia.
Defined.

(* ===================================================================== *)
(** ** The advanced reader on a line of text *)
(* ===================================================================== *)

Section TextRuns.
Variable P : Platform.

Lemma encoded_cons k ks : encoded (k :: ks) = Utf8.utf8_bytes k ++ encoded ks.
Proof. reflexivity. Qed.

(** The turn that reads a terminator: newline, carriage return or
    Ctrl-D (which is an end of stream). *)
Lemma readline_loop_ends fuel t r e w :
  stdin_wide w = t :: r -> t = 10 \/ t = 13 \/ t = 0x04 ->
  readline_loop P (S fuel) e w = Some ((e, t =? 0x04), set_stdin_wide r w).
Proof.
  intros Hin Ht. cbn [readline_loop]. unfold bind.
  rewrite (loop_iteration_plain P t r e w Hin)
    by (apply plain_below_surrogates; lia).
  destruct Ht as [-> | [-> | ->]].
  - rewrite loop_body_break_line by auto. reflexivity.
  - rewrite loop_body_break_line by auto. reflexivity.
  - rewrite loop_body_break_eof by auto. reflexivity.
Qed.

(** The turn that finds the input exhausted. *)
Lemma readline_loop_exhausted fuel e w :
  stdin_wide w = [] ->
  readline_loop P (S fuel) e w = Some ((e, true), set_stdin_wide [] w).
Proof.
  intros Hin. cbn [readline_loop]. unfold bind, loop_iteration, bind, getchar32.
  rewrite Hin, getchar32_from_nil.
  rewrite loop_body_break_eof by auto. reflexivity.
Qed.

(** Typing text: every key is encoded onto the line, in order. *)
Lemma readline_loop_typed ks : forall fuel e w rest,
  stdin_wide w = ks ++ rest ->
  Forall (typed P) ks ->
  is_special_char e = ends_with_marker (line e) ->
  exists e' w',
    readline_loop P (length ks + fuel) e w = readline_loop P fuel e' w'
    /\ line e' = line e ++ encoded ks
    /\ length (widths e') = (length (widths e) + length ks)%nat
    /\ is_special_char e' = ends_with_marker (line e')
    /\ stdin_wide w' = rest
    /\ io (console_state w') = io (console_state w)
    /\ cin w' = cin w.
Proof.
  induction ks as [| k ks IH]; intros fuel e w rest Hin Hks Hmark.
  - exists e, w. simpl. rewrite app_nil_r, Nat.add_0_r.
    repeat split; assumption.
  - inversion Hks as [| ? ? (Hp & H13 & H10 & H4 & H27 & H8 & H7f) Hrest]; subst.
    destruct (readline_loop_insert P (length ks + fuel) k (ks ++ rest) e w
                Hin Hp H13 H10 H4 H27 H8 H7f)
      as (wd & w1 & _ & E & Hin1 & Hio1 & Hcin1).
    destruct (IH fuel
                (marked (line e ++ Utf8.utf8_bytes k) (widths e ++ [wd]))
                w1 rest Hin1 Hrest eq_refl)
      as (e' & w' & E' & Hl & Hw & Hm & Hin' & Hio' & Hcin').
    exists e', w'. cbn [length Nat.add]. rewrite E, E'.
    cbn [marked line widths] in Hl, Hw.
    rewrite length_app in Hw. simpl in Hw.
    split; [reflexivity |].
    split; [rewrite Hl, encoded_cons, app_assoc; reflexivity |].
    split; [simpl; lia |].
    split; [exact Hm |]. split; [exact Hin' |].
    split; congruence.
Qed.

Lemma resolved_same e1 e2 eos has_more :
  line e1 = line e2 -> is_special_char e1 = is_special_char e2 ->
  resolved e1 eos has_more = resolved e2 eos has_more.
Proof. intros Hl Hs. unfold resolved. rewrite Hl, Hs. reflexivity. Qed.

(** The whole reader on typed text followed by a terminator. *)
Lemma advanced_on_text ks t rest w :
  Forall (typed P) ks -> t = 10 \/ t = 13 \/ t = 0x04 ->
  exists w',
    console_readline_advanced P (set_stdin_wide (ks ++ t :: rest) w) =
    Some (resolved (marked (encoded ks) []) (t =? 0x04) (flag w), w')
    /\ stdin_wide w' = rest
    /\ flag w' = flag w.
Proof.
  intros Hks Ht.
  unfold console_readline_advanced, bind at 1, with_input_fuel.
  cbn [stdin_wide set_stdin_wide].
  replace (S (length (ks ++ t :: rest)))
    with (length ks + S (S (length rest)))%nat
    by (rewrite length_app; simpl; lia).
  destruct (readline_loop_typed ks (S (S (length rest))) initial_edit
              (set_stdin_wide (ks ++ t :: rest) w) (t :: rest)
              eq_refl Hks eq_refl)
    as (e' & w1 & E & Hl & _ & Hm & Hin & Hio & _).
  rewrite E, (readline_loop_ends _ t rest e' w1 Hin Ht).
  cbn [fst snd].
  destruct (resolve_run e' (t =? 0x04) (set_stdin_wide rest w1))
    as (w' & E' & Hs).
  assert (Hf : flag (set_stdin_wide rest w1) = flag w).
  { unfold flag. cbn [console_state set_stdin_wide]. rewrite Hio. reflexivity. }
  exists w'. rewrite E', Hf.
  cbn [initial_edit line app] in Hl.
  split.
  - f_equal. f_equal. apply resolved_same.
    + exact Hl.
    + rewrite Hm, Hl. reflexivity.
  - destruct Hs as (Hio' & _ & Hstd). split; [rewrite Hstd; reflexivity |].
    unfold flag in *. rewrite Hio'. exact Hf.
Qed.

(** The whole reader on typed text after which the input is exhausted. *)
Lemma advanced_on_text_exhausted ks w :
  Forall (typed P) ks ->
  exists w',
    console_readline_advanced P (set_stdin_wide ks w) =
    Some (resolved (marked (encoded ks) []) true (flag w), w')
    /\ flag w' = flag w.
Proof.
  intros Hks.
  unfold console_readline_advanced, bind at 1, with_input_fuel.
  cbn [stdin_wide set_stdin_wide].
  replace (S (length ks)) with (length ks + 1)%nat by lia.
  destruct (readline_loop_typed ks 1 initial_edit (set_stdin_wide ks w) []
              (eq_sym (app_nil_r ks)) Hks eq_refl)
    as (e' & w1 & E & Hl & _ & Hm & Hin & Hio & _).
  rewrite E, (readline_loop_exhausted _ e' w1 Hin).
  cbn [fst snd].
  destruct (resolve_run e' true (set_stdin_wide [] w1)) as (w' & E' & Hs).
  assert (Hf : flag (set_stdin_wide [] w1) = flag w).
  { unfold flag. cbn [console_state set_stdin_wide]. rewrite Hio. reflexivity. }
  exists w'. rewrite E', Hf.
  cbn [initial_edit line app] in Hl.
  split.
  - f_equal. f_equal. apply resolved_same.
    + exact Hl.
    + rewrite Hm, Hl. reflexivity.
  - destruct Hs as (Hio' & _). unfold flag in *. rewrite Hio'. exact Hf.
Qed.

Lemma typed_ascii u :
  32 <= u <= 126 -> typed P u.
Proof.
  intros H. split; [apply plain_below_surrogates; lia |].
  repeat split; lia.
Qed.

Lemma ends_with_marker_snoc l x :
  ends_with_marker (l ++ [x]) = ((x =? 92) || (x =? 47)).
Proof.
  unfold ends_with_marker, back. rewrite last_last.
  destruct (l ++ [x]) eqn:E; [destruct l; discriminate | reflexivity].
Qed.

End TextRuns.

Lemma encoded_marker ks x :
  0 <= x <= 0x7F -> encoded (ks ++ [x]) = encoded ks ++ [x].
Proof.
  intros H. rewrite encoded_snoc, Utf8Facts.utf8_bytes_1 by exact H. reflexivity.
Qed.

(** X9.  Text typed and ended with a newline or a carriage return:
    whatever keys reach the final branch of the loop, the advanced
    reader returns their UTF-8 encodings in order followed by '\n', and
    the multi-line flag as its result, provided the text does not end
    in a marker.  The keys after the terminator stay unread. *)
Theorem typed_line_returned
    (P : Platform) (w : World) (ks : list Z) (t : Z) (rest : list Z) :
  Forall (typed P) ks ->
  ends_with_marker (encoded ks) = false ->
  t = 10 \/ t = 13 ->
  exists w',
    console_readline_advanced P (set_stdin_wide (ks ++ t :: rest) w) =
    Some ((encoded ks ++ [10], flag w), w')
    /\ stdin_wide w' = rest
    /\ flag w' = flag w.
Proof.
  intros Hks Hm Ht.
  destruct (advanced_on_text P ks t rest w Hks) as (w' & E & Hrest & Hf);
    [destruct Ht; auto |].
  exists w'. split; [| split; assumption].
  rewrite E. unfold resolved. cbn [marked is_special_char line].
  rewrite Hm.
  replace (t =? 0x04) with false
    by (symmetry; apply Z.eqb_neq; destruct Ht; lia).
  reflexivity.
Qed.

Lemma typed_line_returned_witness :
  exists w',
    console_readline_advanced Samples.linux
      (set_stdin_wide ([104; 0xE9; 0x4E2D] ++ 13 :: [120])
         (Samples.world (Samples.raw_state true) [] [] [])) =
    Some ((encoded [104; 0xE9; 0x4E2D] ++ [10], true), w')
    /\ stdin_wide w' = [120]
    /\ flag w' = true.
Proof.
  apply (typed_line_returned Samples.linux
           (Samples.world (Samples.raw_state true) [] [] [])
           [104; 0xE9; 0x4E2D] 13 [120]).
  - repeat (apply Forall_cons; [split; [reflexivity | repeat split; lia] |]).
    apply Forall_nil.
  - reflexivity.
  - right; reflexivity.
Defined.

(** X10.  Text ended by the end of the stream: when the input is
    exhausted or a Ctrl-D (0x04) arrives, and no marker is pending, the
    advanced reader returns the text as typed, with no newline added,
    and false.  On no text at all that is the empty line and false. *)
Theorem end_of_stream_returns_text
    (P : Platform) (w : World) (ks rest : list Z) :
  Forall (typed P) ks ->
  ends_with_marker (encoded ks) = false ->
  (exists w',
     console_readline_advanced P (set_stdin_wide ks w) =
     Some ((encoded ks, false), w'))
  /\ (exists w',
        console_readline_advanced P (set_stdin_wide (ks ++ 0x04 :: rest) w) =
        Some ((encoded ks, false), w')
        /\ stdin_wide w' = rest)
  /\ (exists w',
        console_readline_advanced P (set_stdin_wide [] w) = Some (([], false), w')).
Proof.
  intros Hks Hm. split; [| split].
  - destruct (advanced_on_text_exhausted P ks w Hks) as (w' & E & _).
    exists w'. rewrite E. unfold resolved. cbn [marked is_special_char line].
    rewrite Hm. reflexivity.
  - destruct (advanced_on_text P ks 0x04 rest w Hks) as (w' & E & Hrest & _);
      [auto |].
    exists w'. split; [| exact Hrest].
    rewrite E. unfold resolved. cbn [marked is_special_char line].
    rewrite Hm. reflexivity.
  - destruct (advanced_on_text_exhausted P [] w (Forall_nil _)) as (w' & E & _).
    exists w'. exact E.
Qed.

Lemma end_of_stream_returns_text_witness :
  (exists w',
     console_readline_advanced Samples.linux
       (set_stdin_wide [104; 105]
          (Samples.world (Samples.raw_state true) [] [] [])) =
     Some ((encoded [104; 105], false), w'))
  /\ (exists w',
        console_readline_advanced Samples.linux
          (set_stdin_wide ([104; 105] ++ 0x04 :: [120])
             (Samples.world (Samples.raw_state true) [] [] [])) =
        Some ((encoded [104; 105], false), w')
        /\ stdin_wide w' = [120])
  /\ (exists w',
        console_readline_advanced Samples.linux
          (set_stdin_wide []
             (Samples.world (Samples.raw_state true) [] [] [])) =
        Some (([], false), w')).
Proof.
  apply (end_of_stream_returns_text Samples.linux
           (Samples.world (Samples.raw_state true) [] [] []) [104; 105] [120]).
  - repeat (apply Forall_cons; [split; [reflexivity | repeat split; lia] |]).
    apply Forall_nil.
  - reflexivity.
Defined.

(** X11.  A trailing backslash after any typed text: whether the line
    is then ended by newline, carriage return, Ctrl-D or the end of the
    input, the advanced reader returns the text with '\n' in place of
    the backslash, and the negation of the multi-line flag. *)
Theorem trailing_backslash_on_any_text
    (P : Platform) (w : World) (ks : list Z) (t : Z) (rest : list Z) :
  Forall (typed P) ks ->
  t = 10 \/ t = 13 \/ t = 0x04 ->
  (exists w',
     console_readline_advanced P
       (set_stdin_wide ((ks ++ [92]) ++ t :: rest) w) =
     Some ((encoded ks ++ [10], negb (flag w)), w')
     /\ stdin_wide w' = rest /\ flag w' = flag w)
  /\ (exists w',
        console_readline_advanced P (set_stdin_wide (ks ++ [92]) w) =
        Some ((encoded ks ++ [10], negb (flag w)), w')
        /\ flag w' = flag w).
Proof.
  intros Hks Ht.
  assert (Hks' : Forall (typed P) (ks ++ [92])).
  { apply Forall_app. split; [exact Hks |].
    apply Forall_cons; [apply typed_ascii; lia | apply Forall_nil]. }
  assert (Hres : forall eos,
             resolved (marked (encoded (ks ++ [92])) []) eos (flag w)
             = (encoded ks ++ [10], negb (flag w))).
  { intros eos. rewrite encoded_marker by lia.
    unfold resolved. cbn [marked is_special_char line].
    rewrite ends_with_marker_snoc. cbn [Z.eqb Pos.eqb orb].
    unfold back. rewrite last_last, removelast_last. reflexivity. }
  split.
  - destruct (advanced_on_text P (ks ++ [92]) t rest w Hks' Ht)
      as (w' & E & Hrest & Hf).
    exists w'. rewrite E, Hres. repeat split; assumption.
  - destruct (advanced_on_text_exhausted P (ks ++ [92]) w Hks') as (w' & E & Hf).
    exists w'. rewrite E, Hres. split; [reflexivity | exact Hf].
Qed.

Lemma trailing_backslash_on_any_text_witness :
  (exists w',
     console_readline_advanced Samples.linux
       (set_stdin_wide (([0xE9; 32] ++ [92]) ++ 0x04 :: [120])
          (Samples.world (Samples.raw_state false) [] [] [])) =
     Some ((encoded [0xE9; 32] ++ [10], true), w')
     /\ stdin_wide w' = [120] /\ flag w' = false)
  /\ (exists w',
        console_readline_advanced Samples.linux
          (set_stdin_wide ([0xE9; 32] ++ [92])
             (Samples.world (Samples.raw_state false) [] [] [])) =
        Some ((encoded [0xE9; 32] ++ [10], true), w')
        /\ flag w' = false).
Proof.
  apply (trailing_backslash_on_any_text Samples.linux
           (Samples.world (Samples.raw_state false) [] [] [])
           [0xE9; 32] 0x04 [120]).
  - repeat (apply Forall_cons; [split; [reflexivity | repeat split; lia] |]).
    apply Forall_nil.
  - right; right; reflexivity.
Defined.



(* ===================================================================== *)
(** ** Widths recorded, and what a backspace removes *)
(* ===================================================================== *)

Section WidthsRecorded.
Variable P : Platform.

Lemma put_codepoint_no_probe bytes expected w :
  0 <= expected \/ teletype (io (console_state w)) = None ->
  exists w',
    put_codepoint bytes expected w = Some (expected, w') /\ same_input w w'.
Proof.
  intros H. unfold put_codepoint, put_codepoint_on, bind, get_console_state.
  assert (E : (if expected >=? 0 then None
               else teletype (io (console_state w))) = None).
  { destruct (Z.geb_spec expected 0); [reflexivity |].
    destruct H as [H | H]; [lia | exact H]. }
  rewrite E. eexists. split; [reflexivity |]. repeat split.
Qed.

Lemma bind_run {A B} (m : M A) (k : A -> M B) w a w1 :
  m w = Some (a, w1) -> bind m k w = k a w1.
Proof. intros E. unfold bind. rewrite E. reflexivity. Qed.

Lemma loop_body_insert_exact c e w :
  inserted P c ->
  0 <= wcwidth P c \/ teletype (io (console_state w)) = None ->
  exists w',
    loop_body P c e w =
      Some (Continue (marked (line e ++ Utf8.utf8_bytes c)
                             (widths e ++ [Z.max 0 (wcwidth P c)])), w')
    /\ same_input w w'.
Proof.
  intros (_ & H13 & H10 & Hw & H4 & H27 & H8 & H7f) Hprobe.
  rewrite loop_body_continues by assumption.
  destruct (wp_run _ _ _ (quiet_unmark e w))
    as (e1 & w1 & E1 & Hs1 & Hl & Hws & Hf).
  rewrite (bind_run _ _ _ _ _ E1).
  replace (c =? 27) with false by (symmetry; apply Z.eqb_neq; assumption).
  replace ((c =? 0x08) || (c =? 0x7F)) with false
    by (symmetry; apply orb_false_iff; split; apply Z.eqb_neq; assumption).
  destruct (put_codepoint_no_probe
              (skipn (length (line e1)) (Utf8.append_utf8 c (line e1)))
              (estimate_width P c) w1) as (w2 & E2 & Hs2).
  { unfold estimate_width.
    destruct Hprobe as [Hp | Hp]; [left; exact Hp | right].
    destruct Hs1 as (Hio & _). rewrite Hio. exact Hp. }
  set (e2 := {| line := line e ++ Utf8.utf8_bytes c;
                widths := widths e ++ [Z.max 0 (wcwidth P c)];
                is_special_char := false |}).
  assert (Hins : insert_char P c e1 w1 = Some (e2, w2)).
  { unfold insert_char. rewrite (bind_run _ _ _ _ _ E2).
    unfold ret, estimate_width, Utf8.append_utf8. subst e2.
    rewrite Hl, Hws, Hf.
    replace (if wcwidth P c <? 0 then 0 else wcwidth P c)
      with (Z.max 0 (wcwidth P c))
      by (destruct (Z.ltb_spec (wcwidth P c) 0); lia).
    reflexivity. }
  rewrite (bind_run _ _ _ _ _ Hins).
  destruct (wp_run _ _ _ (quiet_mark e2 eq_refl w2)) as (o & w3 & E3 & Hs3 & ->).
  exists w3. split; [exact E3 |].
  eapply same_input_trans; [exact Hs1 |].
  eapply same_input_trans; eassumption.
Qed.

Lemma feed_records_widths cps : forall e w,
  Forall (inserted P) cps ->
  teletype (io (console_state w)) = None
  \/ Forall (fun c => 0 <= wcwidth P c) cps ->
  exists e' w',
    feed P cps e w = Some (Continue e', w')
    /\ line e' = line e ++ encoded cps
    /\ widths e' = widths e ++ map (fun c => Z.max 0 (wcwidth P c)) cps
    /\ (cps = [] -> e' = e)
    /\ same_input w w'.
Proof.
  induction cps as [| c cps IH]; intros e w Hall Hprobe.
  - exists e, w. simpl. rewrite !app_nil_r.
    repeat split. 
  - inversion Hall as [| ? ? Hc Hrest]; subst.
    destruct (loop_body_insert_exact c e w Hc) as (w1 & E1 & Hs1).
    { destruct Hprobe as [Hp | Hp]; [right; exact Hp | left].
      inversion Hp; assumption. }
    destruct (IH (marked (line e ++ Utf8.utf8_bytes c)
                         (widths e ++ [Z.max 0 (wcwidth P c)])) w1 Hrest)
      as (e' & w' & E' & Hl & Hws & _ & Hs').
    { destruct Hprobe as [Hp | Hp]; [left | right; inversion Hp; assumption].
      destruct Hs1 as (Hio & _). rewrite Hio. exact Hp. }
    exists e', w'. cbn [feed]. unfold bind. rewrite E1.
    split; [exact E' |].
    cbn [marked line widths] in Hl, Hws.
    split; [rewrite Hl, encoded_cons, app_assoc; reflexivity |].
    split; [rewrite Hws; cbn [map]; rewrite <- app_assoc; reflexivity |].
    split; [discriminate |].
    eapply same_input_trans; eassumption.
Qed.

End WidthsRecorded.

(** X13.  Without a teletype, or when [wcwidth] knows every character
    typed, the width stack holds for each code point its [wcwidth],
    with a negative one raised to 0, in the order typed, and the line
    holds the encodings in the same order. *)
Theorem recorded_widths_are_wcwidth
    (P : Platform) (w : World) (cps : list Z) :
  Forall (inserted P) cps ->
  teletype (io (console_state w)) = None
  \/ Forall (fun c => 0 <= wcwidth P c) cps ->
  exists e w',
    feed P cps initial_edit w = Some (Continue e, w')
    /\ line e = encoded cps
    /\ widths e = map (fun c => Z.max 0 (wcwidth P c)) cps.
Proof.
  intros Hall Hprobe.
  destruct (feed_records_widths P cps initial_edit w Hall Hprobe)
    as (e & w' & E & Hl & Hws & _).
  exists e, w'. split; [exact E |]. split; assumption.
Qed.

Lemma recorded_widths_are_wcwidth_witness :
  exists e w',
    feed Samples.linux [97; 0x0301; 0x4E2D; 0x01] initial_edit
      (Samples.world (Samples.raw_state_no_tty false) [] [] []) =
    Some (Continue e, w')
    /\ line e = encoded [97; 0x0301; 0x4E2D; 0x01]
    /\ widths e = [1; 0; 2; 0].
Proof.
  apply (recorded_widths_are_wcwidth Samples.linux
           (Samples.world (Samples.raw_state_no_tty false) [] [] [])
           [97; 0x0301; 0x4E2D; 0x01]).
  - repeat (apply Forall_cons;
            [repeat split; unfold WEOF; cbn [wide16 Samples.linux]; lia |]).
    apply Forall_nil.
  - left; reflexivity.
Defined.

Section Cluster.

(** The backspace loop pops the zero widths on top of the stack and one
    width more, which is not zero unless it is the last one. *)
Lemma popped_split stack : forall cps,
  length stack = length cps ->
  Forall (fun c => 0 <= c <= 0x10FFFF) cps ->
  stack <> [] ->
  exists zs b below kept gone,
    stack = zs ++ b :: below
    /\ Forall (fun z => z = 0) zs
    /\ (b <> 0 \/ below = [])
    /\ cps = kept ++ gone
    /\ length gone = S (length zs)
    /\ popped stack (encoded cps) = (below, encoded kept).
Proof.
  induction stack as [| count stack' IH]; intros cps Hlen Hv Hne; [congruence |].
  destruct cps as [| c0 cps0] using rev_ind; [discriminate |]. clear IHcps0.
  rewrite length_app in Hlen. simpl in Hlen.
  apply Forall_app in Hv. destruct Hv as [Hv0 Hc].
  inversion Hc as [| ? ? Hc0 _]; subst.
  cbn [popped]. rewrite encoded_snoc.
  change (encoded cps0 ++ Utf8.utf8_bytes c0)
    with (Utf8.append_utf8 c0 (encoded cps0)).
  rewrite Utf8Facts.pop_back_append by exact Hc0.
  destruct (Z.eqb_spec count 0) as [-> | Hnz]; cbn [andb].
  - destruct stack' as [| x st] eqn:Est; cbn [negb].
    + exists [], 0, [], cps0, [c0]. repeat split; auto.
    + rewrite <- Est in *.
      destruct (IH cps0) as (zs & b & below & kept & gone & E1 & Hz & Hb & E2 & Hg & Ep);
        [lia | exact Hv0 | rewrite Est; discriminate |].
      exists (0 :: zs), b, below, kept, (gone ++ [c0]).
      split; [rewrite E1; reflexivity |].
      split; [constructor; [reflexivity | exact Hz] |].
      split; [exact Hb |].
      split; [rewrite E2, app_assoc; reflexivity |].
      split; [rewrite length_app; simpl; lia | exact Ep].
  - exists [], count, stack', cps0, [c0]. repeat split; auto.
Qed.

End Cluster.

(** X14.  What one backspace removes.  On a line holding the code
    points [cps] with their widths on the stack, a backspace removes
    from the end the code points recorded with width 0 and one code
    point more, whose width is not 0 unless nothing is left before it:
    a base character goes together with the zero-width characters
    typed after it, and nothing before it is touched. *)
Theorem backspace_removes_cluster
    (P : Platform) (e : Edit) (w : World) (bs : Z) (cps : list Z) :
  bs = 0x08 \/ bs = 0x7F ->
  Forall (fun c => 0 <= c <= 0x10FFFF) cps ->
  line e = encoded cps ->
  length (widths e) = length cps ->
  cps <> [] ->
  exists kept gone kept_widths base zeros e' w',
    loop_body P bs e w = Some (Continue e', w')
    /\ cps = kept ++ gone
    /\ widths e = kept_widths ++ base :: zeros
    /\ length kept_widths = length kept
    /\ Forall (fun z => z = 0) zeros
    /\ (base <> 0 \/ kept_widths = [])
    /\ line e' = encoded kept
    /\ widths e' = kept_widths.
Proof.
  intros Hbs Hv Hl Hlen Hne.
  destruct (backspace_run P bs e w Hbs) as (w' & E & _).
  assert (Hws : widths e <> []).
  { intros Hnil. rewrite Hnil in Hlen. destruct cps; [congruence | discriminate]. }
  destruct (popped_split (rev (widths e)) cps)
    as (zs & b & below & kept & gone & E1 & Hz & Hb & E2 & Hg & Ep).
  { rewrite length_rev. exact Hlen. }
  { exact Hv. }
  { intros Hnil. apply (f_equal (@rev Z)) in Hnil.
    rewrite rev_involutive in Hnil. exact (Hws Hnil). }
  assert (Ew : widths e = rev below ++ b :: rev zs).
  { rewrite <- (rev_involutive (widths e)), E1, rev_app_distr.
    simpl. rewrite <- app_assoc. reflexivity. }
  assert (Eab : line (after_backspace e) = encoded kept
                /\ widths (after_backspace e) = rev below).
  { unfold after_backspace. destruct (widths e) as [| x l] eqn:Ex; [congruence |].
    cbn [line widths]. rewrite Hl, Ep. split; reflexivity. }
  exists kept, gone, (rev below), b, (rev zs),
    (marked (line (after_backspace e)) (widths (after_backspace e))), w'.
  split; [exact E |]. split; [exact E2 |]. split; [exact Ew |].
  split.
  { apply (f_equal (@length Z)) in Ew. apply (f_equal (@length Z)) in E2.
    rewrite !length_app in *. simpl in Ew. rewrite !length_rev in *. lia. }
  split; [apply Forall_rev, Hz |].
  split.
  { destruct Hb as [Hb | Hb]; [left; exact Hb | right; rewrite Hb; reflexivity]. }
  cbn [marked line widths]. exact Eab.
Qed.

Lemma backspace_removes_cluster_witness :
  exists kept gone kept_widths base zeros e' w',
    loop_body Samples.linux 0x08
      {| line := encoded [97; 101; 0x0301; 0x0302]; widths := [1; 1; 0; 0];
         is_special_char := false |}
      (Samples.world (Samples.raw_state_no_tty false) [] [] []) =
    Some (Continue e', w')
    /\ [97; 101; 0x0301; 0x0302] = kept ++ gone
    /\ [1; 1; 0; 0] = kept_widths ++ base :: zeros
    /\ length kept_widths = length kept
    /\ Forall (fun z => z = 0) zeros
    /\ (base <> 0 \/ kept_widths = [])
    /\ line e' = encoded kept
    /\ widths e' = kept_widths.
Proof.
  apply (backspace_removes_cluster Samples.linux
           {| line := encoded [97; 101; 0x0301; 0x0302]; widths := [1; 1; 0; 0];
              is_special_char := false |}
           (Samples.world (Samples.raw_state_no_tty false) [] [] [])
           0x08 [97; 101; 0x0301; 0x0302]).
  - left; reflexivity.
  - repeat (apply Forall_cons; [lia |]). apply Forall_nil.
  - reflexivity.
  - reflexivity.
  - discriminate.
Defined.

(** X15.  Backspace on an empty line does nothing at all: any number
    of backspace keys typed before anything else leave the line and the
    width stack empty and the world untouched, nothing being written
    to the terminal. *)
Theorem backspace_on_empty_line (P : Platform) (w : World) (keys : list Z) :
  Forall (fun k => k = 0x08 \/ k = 0x7F) keys ->
  feed P keys initial_edit w = Some (Continue initial_edit, w).
Proof.
  induction 1 as [| k keys Hk _ IH]; [reflexivity |].
  cbn [feed]. unfold bind.
  assert (E : loop_body P k initial_edit w = Some (Continue initial_edit, w)).
  { pose proof (WEOF_large P).
    rewrite loop_body_continues by lia.
    replace (k =? 27) with false by (symmetry; apply Z.eqb_neq; lia).
    replace ((k =? 0x08) || (k =? 0x7F)) with true
      by (symmetry; apply orb_true_iff;
          destruct Hk; [left | right]; apply Z.eqb_eq; assumption).
    reflexivity. }
  rewrite E. exact IH.
Qed.

Lemma backspace_on_empty_line_witness :
  feed Samples.utf16 [0x08; 0x7F; 0x08] initial_edit
    (Samples.world (Samples.raw_state true) [97] [] []) =
  Some (Continue initial_edit, Samples.world (Samples.raw_state true) [97] [] []).
Proof.
  apply (backspace_on_empty_line Samples.utf16
           (Samples.world (Samples.raw_state true) [97] [] [])
           [0x08; 0x7F; 0x08]).
  repeat (apply Forall_cons; [lia |]). apply Forall_nil.
Defined.

Section EscapeMore.
Variable P : Platform.

(** The discard loop on input that ends before any final unit: it takes
    everything. *)
Lemma discard_escape_to_the_end junk : forall fuel w,
  stdin_wide w = junk ->
  Forall (fun u => plain_unit P u = true /\ ends_escape u = false) junk ->
  (length junk < fuel)%nat ->
  discard_escape P fuel w = Some (tt, set_stdin_wide [] w).
Proof.
  induction junk as [| u junk IH]; intros fuel w Hin Hjunk Hfuel.
  - destruct fuel as [| fuel]; [simpl in Hfuel; lia |].
    cbn [discard_escape]. unfold bind, getchar32.
    rewrite Hin, getchar32_from_nil, Z.eqb_refl. reflexivity.
  - destruct fuel as [| fuel]; [simpl in Hfuel; lia |].
    inversion Hjunk as [| ? ? [Hp Hne] Hrest]; subst.
    cbn [discard_escape]. unfold bind.
    rewrite (getchar32_plain P u junk w Hin Hp).
    replace (u =? WEOF P) with false
      by (symmetry; apply Z.eqb_neq, plain_not_WEOF, Hp).
    rewrite Hne.
    rewrite (IH fuel (set_stdin_wide junk w));
      [reflexivity | reflexivity | exact Hrest |].
    simpl in Hfuel. lia.
Qed.

(** A turn on ESC, given what [escape_sequence] does. *)
Lemma loop_iteration_escape_with e tail left_over w :
  stdin_wide w = 27 :: tail ->
  (forall w1, stdin_wide w1 = tail ->
     escape_sequence P w1 = Some (tt, set_stdin_wide left_over w1)) ->
  exists w',
    loop_iteration P e w = Some (Continue (marked (line e) (widths e)), w')
    /\ stdin_wide w' = left_over
    /\ io (console_state w') = io (console_state w).
Proof.
  intros Hin Hesc. pose proof (WEOF_large P).
  rewrite (loop_iteration_plain P 27 _ e w Hin)
    by (apply plain_below_surrogates; lia).
  rewrite loop_body_continues by lia.
  destruct (wp_run _ _ _ (quiet_unmark e (set_stdin_wide tail w)))
    as (e1 & w1 & E1 & (Hio1 & Hcin1 & Hstd1) & Hl & Hw & Hf).
  rewrite (bind_run _ _ _ _ _ E1).
  change (27 =? 27) with true. cbv iota.
  assert (E2 : bind (escape_sequence P) (fun _ => ret e1) w1
               = Some (e1, set_stdin_wide left_over w1)).
  { rewrite (bind_run _ _ _ _ _ (Hesc w1 Hstd1)). reflexivity. }
  rewrite (bind_run _ _ _ _ _ E2).
  destruct (wp_run _ _ _ (quiet_mark e1 Hf (set_stdin_wide left_over w1)))
    as (o & w2 & E3 & (Hio2 & Hcin2 & Hstd2) & ->).
  rewrite E3. exists w2. rewrite Hl, Hw.
  split; [reflexivity |]. split; [exact Hstd2 |].
  rewrite Hio2. exact Hio1.
Qed.

End EscapeMore.

(** X16.  ESC not followed by a full sequence.  After an ESC the next
    unit is always taken: when it is neither '[' nor ESC it alone is
    dropped and reading goes on with the unit after it; when it is '['
    or ESC and the input ends before any unit in A-Z, a-z or '~', all
    the input left is taken.  The line and the width stack are not
    changed in either case. *)
Theorem escape_without_final
    (P : Platform) (e : Edit) (w : World) (x intro : Z) (junk rest : list Z) :
  plain_unit P x = true -> x <> 91 -> x <> 27 ->
  intro = 91 \/ intro = 27 ->
  Forall (fun u => plain_unit P u = true /\ ends_escape u = false) junk ->
  (exists e' w',
     loop_iteration P e (set_stdin_wide (27 :: x :: rest) w) =
     Some (Continue e', w')
     /\ line e' = line e /\ widths e' = widths e /\ stdin_wide w' = rest)
  /\ (exists e' w',
        loop_iteration P e (set_stdin_wide (27 :: intro :: junk) w) =
        Some (Continue e', w')
        /\ line e' = line e /\ widths e' = widths e /\ stdin_wide w' = []).
Proof.
  intros Hx H91 H27 Hintro Hjunk. split.
  - destruct (loop_iteration_escape_with P e (x :: rest) rest
                (set_stdin_wide (27 :: x :: rest) w) eq_refl)
      as (w' & E & Hstd & _).
    { intros w1 Hin. unfold escape_sequence.
      rewrite (bind_run _ _ _ _ _ (getchar32_plain P x rest w1 Hin Hx)).
      replace ((x =? 91) || (x =? 0x1B)) with false
        by (symmetry; apply orb_false_iff; split; apply Z.eqb_neq; assumption).
      reflexivity. }
    exists (marked (line e) (widths e)), w'. repeat split; assumption.
  - destruct (loop_iteration_escape_with P e (intro :: junk) []
                (set_stdin_wide (27 :: intro :: junk) w) eq_refl)
      as (w' & E & Hstd & _).
    { intros w1 Hin. unfold escape_sequence.
      rewrite (bind_run _ _ _ _ _
                 (getchar32_plain P intro junk w1 Hin
                    (plain_below_surrogates P intro ltac:(lia)))).
      replace ((intro =? 91) || (intro =? 0x1B)) with true
        by (symmetry; apply orb_true_iff;
            destruct Hintro; [left | right]; apply Z.eqb_eq; assumption).
      unfold with_input_fuel.
      rewrite (discard_escape_to_the_end P junk _ (set_stdin_wide junk w1));
        [reflexivity | reflexivity | exact Hjunk |].
      cbn [stdin_wide set_stdin_wide]. lia. }
    exists (marked (line e) (widths e)), w'. repeat split; assumption.
Qed.

Lemma escape_without_final_witness :
  (exists e' w',
     loop_iteration Samples.linux (marked [104; 105] [1; 1])
       (set_stdin_wide (27 :: 120 :: [121])
          (Samples.world (Samples.raw_state false) [] [] [])) =
     Some (Continue e', w')
     /\ line e' = [104; 105] /\ widths e' = [1; 1] /\ stdin_wide w' = [121])
  /\ (exists e' w',
        loop_iteration Samples.linux (marked [104; 105] [1; 1])
          (set_stdin_wide (27 :: 91 :: [49; 59; 53])
             (Samples.world (Samples.raw_state false) [] [] [])) =
        Some (Continue e', w')
        /\ line e' = [104; 105] /\ widths e' = [1; 1] /\ stdin_wide w' = []).
Proof.
  apply (escape_without_final Samples.linux (marked [104; 105] [1; 1])
           (Samples.world (Samples.raw_state false) [] [] [])
           120 91 [49; 59; 53] [121]).
  - reflexivity.
  - lia.
  - lia.
  - left; reflexivity.
  - repeat constructor.
Defined.

(* ===================================================================== *)
(** ** The display mode during a read *)
(* ===================================================================== *)

Lemma same_console_refl w : same_console w w.
Proof. reflexivity. Qed.

Lemma same_console_trans w1 w2 w3 :
  same_console w1 w2 -> same_console w2 w3 -> same_console w1 w3.
Proof. unfold same_console. congruence. Qed.

Ltac still_bind := eapply (does_bind same_console same_console_trans).
Ltac still_ret := apply (does_ret same_console same_console_refl).

Section DisplayDuringRead.
Variable P : Platform.

Lemma still_get_console_state : does same_console get_console_state any.
Proof. intros w. split; [reflexivity | exact I]. Qed.

Lemma still_fwrite bytes f : does same_console (fwrite bytes f) any.
Proof. intros w. split; [reflexivity | exact I]. Qed.

Lemma still_pop_cursor : does same_console pop_cursor any.
Proof.
  unfold pop_cursor.
  still_bind; [apply still_get_console_state | intros s _]. apply still_fwrite.
Qed.

Lemma still_replace_last ch : does same_console (replace_last ch) any.
Proof.
  unfold replace_last.
  still_bind; [apply still_get_console_state | intros s _]. apply still_fwrite.
Qed.

Lemma still_erase_columns n : does same_console (erase_columns n) any.
Proof.
  induction n as [| n IH]; simpl.
  - still_ret. exact I.
  - still_bind; [apply still_replace_last | intros _ _].
    still_bind; [apply still_pop_cursor | intros _ _]. exact IH.
Qed.

Lemma still_backspace_loop stack : forall ln,
  does same_console (backspace_loop stack ln) any.
Proof.
  induction stack as [| count stack' IH]; intros ln; simpl.
  - still_ret. exact I.
  - still_bind; [apply still_erase_columns | intros _ _].
    destruct ((count =? 0) && negb match stack' with [] => true | _ => false end).
    + apply IH.
    + still_ret. exact I.
Qed.

Lemma still_backspace e :
  does same_console (backspace e)
    (fun e' => is_special_char e' = is_special_char e).
Proof.
  unfold backspace. destruct (widths e).
  - still_ret. reflexivity.
  - still_bind; [apply still_backspace_loop | intros r _].
    still_ret. reflexivity.
Qed.

Lemma still_put_codepoint bytes expected :
  does same_console (put_codepoint bytes expected) any.
Proof.
  intros w. unfold put_codepoint, put_codepoint_on, bind, get_console_state, wp.
  destruct (if expected >=? 0 then None else teletype (io (console_state w))).
  - unfold fwrite, fscanf_teletype. cbn [tty_reply add_written set_tty_reply].
    destruct (Scanf.fscanf_cursor_pos (tty_reply w)) as [start r1].
    cbn [tty_reply add_written set_tty_reply].
    destruct (Scanf.fscanf_cursor_pos r1) as [finish r2].
    destruct (negb (4 =? Scanf.assigned start + Scanf.assigned finish));
      [split; [reflexivity | exact I] |].
    destruct (0 >? _); split; (reflexivity || exact I).
  - split; [reflexivity | exact I].
Qed.

Lemma still_insert_char c e :
  does same_console (insert_char P c e)
    (fun e' => is_special_char e' = is_special_char e).
Proof.
  unfold insert_char.
  still_bind; [apply still_put_codepoint | intros width _].
  still_ret. reflexivity.
Qed.

Lemma still_getchar32 : does same_console (getchar32 P) any.
Proof.
  intros w. unfold getchar32, wp.
  destruct (getchar32_from P (stdin_wide w)). split; [reflexivity | exact I].
Qed.

Lemma discard_escape_console fuel : forall w u w',
  discard_escape P fuel w = Some (u, w') -> console_state w' = console_state w.
Proof.
  induction fuel as [| fuel IH]; intros w u w' E; [discriminate |].
  cbn [discard_escape] in E. unfold bind, getchar32 in E.
  destruct (getchar32_from P (stdin_wide w)) as [code r].
  destruct (code =? WEOF P).
  - inversion E; subst. reflexivity.
  - destruct (ends_escape code).
    + inversion E; subst. reflexivity.
    + apply IH in E. exact E.
Qed.

Lemma still_escape_sequence : does same_console (escape_sequence P) any.
Proof.
  intros w.
  destruct (wp_run _ _ _ (does_escape_sequence P w)) as (u & w' & E & _).
  eapply wp_of_run; [exact E |]. split; [| exact I].
  revert E. unfold escape_sequence, bind, getchar32.
  destruct (getchar32_from P (stdin_wide w)) as [code r].
  destruct ((code =? 91) || (code =? 0x1B)).
  - unfold with_input_fuel. intros E.
    apply discard_escape_console in E. exact E.
  - intros E. inversion E; subst. reflexivity.
Qed.

(** The body of a turn that goes on leaves the display in PROMPT mode
    if the line now ends in a marker, in INPUT mode if not. *)
Lemma loop_body_highlight c e w e' w' :
  highlight_tracks e w ->
  loop_body P c e w = Some (Continue e', w') ->
  highlight_tracks e' w' /\ is_special_char e' = ends_with_marker (line e').
Proof.
  intros [Hadv Hmode] Hrun.
  destruct (Z.eq_dec c 13) as [E13 | N13].
  { rewrite loop_body_break_line in Hrun by auto. discriminate. }
  destruct (Z.eq_dec c 10) as [E10 | N10].
  { rewrite loop_body_break_line in Hrun by auto. discriminate. }
  destruct (Z.eq_dec c (WEOF P)) as [Ew | Nw].
  { rewrite loop_body_break_eof in Hrun by auto. discriminate. }
  destruct (Z.eq_dec c 0x04) as [E4 | N4].
  { rewrite loop_body_break_eof in Hrun by auto. discriminate. }
  rewrite loop_body_continues in Hrun by assumption.
  (* a pending marker is repainted: INPUT mode *)
  assert (H1 : exists e1 w1,
             (if is_special_char e then
                console_set_display_mode CONSOLE_INPUT ;;;
                replace_last (back (line e)) ;;;
                ret {| line := line e; widths := widths e;
                       is_special_char := false |}
              else ret e)%console w = Some (e1, w1)
             /\ is_special_char e1 = false
             /\ advanced (display (console_state w1)) = true
             /\ mode (display (console_state w1)) = CONSOLE_INPUT).
  { destruct (is_special_char e) eqn:Es.
    - destruct (console_set_display_mode_run CONSOLE_INPUT w)
        as (wa & Ea & _ & Hadv' & Hmode').
      destruct (wp_run _ _ _ (still_replace_last (back (line e)) wa))
        as ([] & wb & Eb & Hsame & _).
      eexists _, wb. split.
      + rewrite (bind_run _ _ _ _ _ Ea), (bind_run _ _ _ _ _ Eb). reflexivity.
      + unfold same_console in Hsame. rewrite Hsame, Hadv', Hmode', Hadv.
        repeat split.
    - exists e, w. repeat split; assumption. }
  destruct H1 as (e1 & w1 & E1 & Hf1 & Hadv1 & Hmode1).
  rewrite (bind_run _ _ _ _ _ E1) in Hrun.
  (* the branch taken leaves [console_state] alone *)
  assert (H2 : exists e2 w2,
             (if c =? 27 then escape_sequence P ;;; ret e1
              else if (c =? 0x08) || (c =? 0x7F) then backspace e1
              else insert_char P c e1)%console w1 = Some (e2, w2)
             /\ is_special_char e2 = false
             /\ console_state w2 = console_state w1).
  { destruct (c =? 27).
    - destruct (wp_run _ _ _ (still_escape_sequence w1))
        as ([] & w2 & E2 & Hsame & _).
      exists e1, w2. rewrite (bind_run _ _ _ _ _ E2).
      repeat split; assumption.
    - destruct ((c =? 0x08) || (c =? 0x7F)).
      + destruct (wp_run _ _ _ (still_backspace e1 w1))
          as (e2 & w2 & E2 & Hsame & Hf2).
        exists e2, w2. repeat split; [exact E2 | congruence | exact Hsame].
      + destruct (wp_run _ _ _ (still_insert_char c e1 w1))
          as (e2 & w2 & E2 & Hsame & Hf2).
        exists e2, w2. repeat split; [exact E2 | congruence | exact Hsame]. }
  destruct H2 as (e2 & w2 & E2 & Hf2 & Hsame2).
  rewrite (bind_run _ _ _ _ _ E2) in Hrun.
  (* a trailing marker is highlighted: PROMPT mode *)
  destruct (ends_with_marker (line e2)) eqn:Em.
  - destruct (console_set_display_mode_run CONSOLE_PROMPT w2)
      as (wa & Ea & _ & Hadv' & Hmode').
    destruct (wp_run _ _ _ (still_replace_last (back (line e2)) wa))
      as ([] & wb & Eb & Hsame & _).
    rewrite (bind_run _ _ _ _ _ Ea), (bind_run _ _ _ _ _ Eb) in Hrun.
    inversion Hrun; subst. cbn [line is_special_char].
    unfold highlight_tracks, same_console in *. cbn [is_special_char].
    rewrite Hsame, Hadv', Hmode', Hsame2, Hadv1. repeat split. symmetry. exact Em.
  - inversion Hrun; subst.
    unfold highlight_tracks. rewrite Hf2, Em, Hsame2. repeat split; assumption.
Qed.

Lemma loop_iteration_highlight e w e' w' :
  highlight_tracks e w ->
  loop_iteration P e w = Some (Continue e', w') ->
  highlight_tracks e' w' /\ is_special_char e' = ends_with_marker (line e').
Proof.
  intros Hh Hrun. unfold loop_iteration in Hrun.
  destruct (wp_run _ _ _ (still_getchar32 w)) as (c & w1 & E & Hsame & _).
  rewrite (bind_run _ _ _ _ _ E) in Hrun.
  apply (loop_body_highlight c e w1); [| exact Hrun].
  unfold highlight_tracks, same_console in *. rewrite Hsame. exact Hh.
Qed.

End DisplayDuringRead.

(** X17.  With the advanced display on and the display in INPUT mode
    when the loop starts (where [console_readline] puts it), after
    every turn of the advanced reader's loop the display is in PROMPT
    mode exactly when the line ends in a backslash or a slash, and in
    INPUT mode otherwise. *)
Theorem highlight_follows_marker (P : Platform) (w0 : World) (e : Edit) (w : World) :
  advanced (display (console_state w0)) = true ->
  mode (display (console_state w0)) = CONSOLE_INPUT ->
  loop_reaches P w0 e w ->
  mode (display (console_state w)) =
    (if ends_with_marker (line e) then CONSOLE_PROMPT else CONSOLE_INPUT)
  /\ is_special_char e = ends_with_marker (line e).
Proof.
  intros Hadv Hmode Hreach.
  assert (H : highlight_tracks e w
              /\ is_special_char e = ends_with_marker (line e)).
  { induction Hreach as [| e w e' w' _ IH Hturn].
    - split; [split; assumption | reflexivity].
    - destruct IH as [Hh _].
      eapply loop_iteration_highlight; eassumption. }
  destruct H as [[_ Hm] Hs]. rewrite <- Hs. split; [exact Hm | reflexivity].
Qed.

Lemma highlight_follows_marker_witness :
  exists e w,
    loop_reaches Samples.linux
      (Samples.world (Samples.raw_state false) [97; 47; 98] [] []) e w
    /\ (mode (display (console_state w)) =
          (if ends_with_marker (line e) then CONSOLE_PROMPT else CONSOLE_INPUT)
        /\ is_special_char e = ends_with_marker (line e)).
Proof.
  eexists _, _.
  refine ((fun R => conj R
             (highlight_follows_marker Samples.linux
                (Samples.world (Samples.raw_state false) [97; 47; 98] [] [])
                _ _ eq_refl eq_refl R)) _).
  eapply reaches_turn;
    [eapply reaches_turn; [apply reaches_start | vm_compute; reflexivity] |].
  vm_compute. reflexivity.
Defined.

(* ===================================================================== *)
(** ** More on the simple reader *)
(* ===================================================================== *)

Section SimpleMore.

Lemma split_line_terminated text rest :
  ~ In 10 text -> Cin.split_line (text ++ 10 :: rest) = (text, Some rest).
Proof.
  induction text as [| c text IH]; intros Hno; simpl.
  - reflexivity.
  - replace (c =? 10) with false
      by (symmetry; apply Z.eqb_neq; intros ->; apply Hno; left; reflexivity).
    rewrite IH; [reflexivity |]. intros Hin. apply Hno. right. exact Hin.
Qed.

Lemma split_line_unterminated text :
  ~ In 10 text -> Cin.split_line text = (text, None).
Proof.
  induction text as [| c text IH]; intros Hno; simpl.
  - reflexivity.
  - replace (c =? 10) with false
      by (symmetry; apply Z.eqb_neq; intros ->; apply Hno; left; reflexivity).
    rewrite IH; [reflexivity |]. intros Hin. apply Hno. right. exact Hin.
Qed.

End SimpleMore.

(** X18.  The simple reader on a line of text.  From a good stream
    holding a non-empty line that does not end in ESC, it returns true
    and the line, with '\n' appended when the multi-line flag is off
    and as it is when the flag is on; it takes the line and its newline
    from the stream and changes nothing else.  A last line that has no
    newline is returned in the same way, with the stream left at its
    end, and only the read after it fails. *)
Theorem simple_reader_returns_line
    (ln text rest : list Z) (w : World) :
  Cin.good (cin w) = true ->
  text <> [] ->
  ~ In 10 text ->
  last text 0 <> 27 ->
  (buf (cin w) = text ++ 10 :: rest ->
   console_readline_simple ln w =
   Some ((if flag w then text else text ++ [10], true),
         set_cin {| buf := rest; eofbit := false; failbit := false;
                    badbit := false |} w))
  /\ (buf (cin w) = text ->
      exists w1,
        console_readline_simple ln w =
          Some ((if flag w then text else text ++ [10], true), w1)
        /\ console_state w1 = console_state w
        /\ eofbit (cin w1) = true
        /\ exists w2, console_readline_simple text w1 = Some (([], false), w2)).
Proof.
  intros Hgood Hne Hno Hlast.
  assert (Hesc : (last text 0 =? 27) = false) by (apply Z.eqb_neq; exact Hlast).
  split.
  - intros Hbuf.
    unfold console_readline_simple, bind, console_input_string, Cin.getline.
    rewrite Hgood, Hbuf, split_line_terminated by exact Hno.
    cbn [negb fst snd]. destruct text as [| b l]; [congruence |].
    rewrite Hesc. unfold ret, get_console_state.
    cbn [console_state set_cin]. unfold flag.
    destruct (multiline (io (console_state w))); reflexivity.
  - intros Hbuf.
    unfold console_readline_simple at 1, bind, console_input_string, Cin.getline.
    rewrite Hgood, Hbuf, split_line_unterminated by exact Hno.
    destruct text as [| b l]; [congruence |].
    cbn [negb fst snd]. rewrite Hesc. unfold ret, get_console_state.
    cbn [console_state set_cin]. unfold flag.
    eexists. split; [destruct (multiline (io (console_state w))); reflexivity |].
    split; [reflexivity |]. split; [reflexivity |].
    destruct (console_readline_simple_fails (b :: l)
                (set_cin {| buf := []; eofbit := true; failbit := false;
                            badbit := false |} w)) as (w2 & E2 & _);
      [right; reflexivity |].
    exists w2. exact E2.
Qed.

Lemma simple_reader_returns_line_witness :
  (buf (cin (Samples.world Samples.default_state [] [104; 105; 10; 120] [])) =
   [104; 105] ++ 10 :: [120] ->
   console_readline_simple [1]
     (Samples.world Samples.default_state [] [104; 105; 10; 120] []) =
   Some (([104; 105; 10], true),
         set_cin {| buf := [120]; eofbit := false; failbit := false;
                    badbit := false |}
           (Samples.world Samples.default_state [] [104; 105; 10; 120] [])))
  /\ (buf (cin (Samples.world Samples.default_state [] [104; 105; 10; 120] [])) =
      [104; 105] ->
      exists w1,
        console_readline_simple [1]
          (Samples.world Samples.default_state [] [104; 105; 10; 120] []) =
          Some (([104; 105; 10], true), w1)
        /\ console_state w1 = Samples.default_state
        /\ eofbit (cin w1) = true
        /\ exists w2,
             console_readline_simple [104; 105] w1 = Some (([], false), w2)).
Proof.
  apply (simple_reader_returns_line [1] [104; 105] [120]
           (Samples.world Samples.default_state [] [104; 105; 10; 120] [])).
  - reflexivity.
  - discriminate.
  - intros [H | [H | []]]; discriminate.
  - discriminate.
Defined.

(** X19.  [console_input_character] never confuses a character with the
    end of input: it returns either EOF (-1) or a value from 0 to 255.
    When it returns a character the stream is good and [console_state]
    is untouched; when it returns EOF the stream's failure bits have
    been cleared again, and the ERROR display mode has been asked for
    (it is set when the advanced display is on). *)
Theorem input_character_or_EOF (w : World) :
  exists r w',
    console_input_character w = Some (r, w')
    /\ ((r = EOF
         /\ Cin.fail (cin w') = false
         /\ mode (display (console_state w')) =
              (if advanced (display (console_state w)) then CONSOLE_ERROR
               else mode (display (console_state w))))
        \/ (0 <= r < 256
            /\ Cin.good (cin w') = true
            /\ console_state w' = console_state w)).
Proof.
  unfold console_input_character.
  destruct (Cin.extract_char (cin w)) as [[control_ch |] c] eqn:E.
  - eexists _, _. split; [reflexivity |]. right.
    split; [unfold Utf8.to_uchar; apply Z.mod_pos_bound; lia |].
    split; [| reflexivity].
    unfold Cin.extract_char in E.
    destruct (negb (Cin.good (cin w))); [discriminate |].
    destruct (Scanf.skip_space (buf (cin w))); [discriminate |].
    inversion E; subst. reflexivity.
  - destruct (console_set_display_mode_run CONSOLE_ERROR (set_cin c w))
      as (w1 & E1 & (Hio & Hcin & _) & _ & Hmode).
    rewrite (bind_run _ _ _ _ _ E1).
    eexists _, _. split; [reflexivity |]. left.
    split; [reflexivity |]. split.
    + cbn [cin set_cin]. unfold Cin.ignore_line, Cin.clear, Cin.good.
      cbn [eofbit failbit badbit buf orb negb].
      destruct (Cin.split_line (buf (cin w1))) as [l [r |]]; reflexivity.
    + cbn [console_state set_cin]. exact Hmode.
Qed.

(* ===================================================================== *)
(** ** Init and cleanup *)
(* ===================================================================== *)

Section Terminal.

Lemma nth_assign_same i v cc :
  (i < length cc)%nat -> nth i (assign i v cc) 0 = v.
Proof.
  revert i. induction cc as [| c cc IH]; intros [| i] H; simpl in *;
    [lia | lia | reflexivity | apply IH; lia].
Qed.

Lemma nth_assign_other i j v cc :
  i <> j -> nth j (assign i v cc) 0 = nth j cc 0.
Proof.
  revert i j. induction cc as [| c cc IH]; intros [| i] [| j] H; simpl;
    try reflexivity; try congruence.
  apply IH. congruence.
Qed.

Lemma length_assign i v cc : length (assign i v cc) = length cc.
Proof.
  revert i. induction cc as [| c cc IH]; intros [| i]; simpl; try reflexivity.
  rewrite IH. reflexivity.
Qed.

Lemma raw_mask_bits (k : nat) :
  (k < 32)%nat ->
  Z.testbit (to_tcflag (Z.lnot (Z.lor ICANON ECHO))) (Z.of_nat k) =
  negb (Z.of_nat k =? 1) && negb (Z.of_nat k =? 3).
Proof.
  intros H. do 32 (destruct k as [| k]; [reflexivity |]). lia.
Qed.

Lemma raw_lflag_bits (lflag n : Z) :
  0 <= lflag < 2 ^ 32 -> 0 <= n ->
  Z.testbit (Z.land lflag (to_tcflag (Z.lnot (Z.lor ICANON ECHO)))) n =
  Z.testbit lflag n && negb (n =? 1) && negb (n =? 3).
Proof.
  intros Hl Hn. rewrite Z.land_spec.
  destruct (Z_lt_ge_dec n 32) as [Hlt | Hge].
  - replace n with (Z.of_nat (Z.to_nat n)) by lia.
    rewrite raw_mask_bits by lia. rewrite andb_assoc. reflexivity.
  - replace (Z.testbit lflag n) with false; [reflexivity |].
    symmetry. rewrite <- (Z.mod_small lflag (2 ^ 32)) by lia.
    apply Z.mod_pow2_bits_high. lia.
Qed.

End Terminal.

(** X20.  [console_create] without simple I/O puts the terminal on stdin
    into raw mode and nothing more: it saves the attributes it found,
    clears exactly the ICANON and ECHO bits of [c_lflag], sets
    [c_cc[VMIN]] to 1 and [c_cc[VTIME]] to 0, and leaves every other
    flag word and control character as it was. *)
Theorem console_create_raw_mode
    (use_advanced_display : bool) (s : System) (t : termios) :
  stdin_termios s = Some t ->
  0 <= c_lflag t < 2 ^ 32 ->
  (VMIN < length (c_cc t))%nat ->
  terminal (console_create false use_advanced_display s) = t
  /\ exists t',
       stdin_termios (console_create false use_advanced_display s) = Some t'
       /\ (forall n, 0 <= n ->
             Z.testbit (c_lflag t') n =
             Z.testbit (c_lflag t) n && negb (n =? 1) && negb (n =? 3))
       /\ nth VMIN (c_cc t') 0 = 1
       /\ nth VTIME (c_cc t') 0 = 0
       /\ (forall i, i <> VMIN -> i <> VTIME -> nth i (c_cc t') 0 = nth i (c_cc t) 0)
       /\ length (c_cc t') = length (c_cc t)
       /\ c_iflag t' = c_iflag t /\ c_oflag t' = c_oflag t
       /\ c_cflag t' = c_cflag t.
Proof.
  intros Ht Hl Hcc.
  unfold console_create, tcgetattr, tcsetattr. cbn [negb terminal stdin_termios].
  rewrite Ht. split; [reflexivity |].
  eexists. split; [reflexivity |]. cbn [c_lflag c_cc c_iflag c_oflag c_cflag].
  split; [intros n Hn; apply raw_lflag_bits; assumption |].
  split.
  - rewrite nth_assign_other by (unfold VTIME, VMIN; lia).
    apply nth_assign_same. exact Hcc.
  - split.
    + apply nth_assign_same. rewrite length_assign. unfold VTIME, VMIN in *. lia.
    + split.
      * intros i H1 H2. rewrite !nth_assign_other by congruence. reflexivity.
      * split; [rewrite !length_assign; reflexivity |]. repeat split.
Qed.

Lemma console_create_raw_mode_witness :
  terminal
    (console_create false true
       {| world := Samples.world Samples.default_state [] [] [];
          terminal := {| c_iflag := 0; c_oflag := 0; c_cflag := 0; c_lflag := 0;
                         c_cc := [] |};
          stdin_termios :=
            Some {| c_iflag := 0x500; c_oflag := 5; c_cflag := 0xBF;
                    c_lflag := 0x8A3B;
                    c_cc := [3; 28; 127; 21; 4; 0; 1; 0] |};
          dev_tty := true |}) =
    {| c_iflag := 0x500; c_oflag := 5; c_cflag := 0xBF; c_lflag := 0x8A3B;
       c_cc := [3; 28; 127; 21; 4; 0; 1; 0] |}
  /\ exists t',
       stdin_termios
         (console_create false true
            {| world := Samples.world Samples.default_state [] [] [];
               terminal := {| c_iflag := 0; c_oflag := 0; c_cflag := 0;
                              c_lflag := 0; c_cc := [] |};
               stdin_termios :=
                 Some {| c_iflag := 0x500; c_oflag := 5; c_cflag := 0xBF;
                         c_lflag := 0x8A3B;
                         c_cc := [3; 28; 127; 21; 4; 0; 1; 0] |};
               dev_tty := true |}) = Some t'
       /\ (forall n, 0 <= n ->
             Z.testbit (c_lflag t') n =
             Z.testbit 0x8A3B n && negb (n =? 1) && negb (n =? 3))
       /\ nth VMIN (c_cc t') 0 = 1
       /\ nth VTIME (c_cc t') 0 = 0
       /\ (forall i, i <> VMIN -> i <> VTIME ->
             nth i (c_cc t') 0 = nth i [3; 28; 127; 21; 4; 0; 1; 0] 0)
       /\ length (c_cc t') = 8%nat
       /\ c_iflag t' = 0x500 /\ c_oflag t' = 5 /\ c_cflag t' = 0xBF.
Proof.
  apply (console_create_raw_mode true
           {| world := Samples.world Samples.default_state [] [] [];
              terminal := {| c_iflag := 0; c_oflag := 0; c_cflag := 0;
                             c_lflag := 0; c_cc := [] |};
              stdin_termios :=
                Some {| c_iflag := 0x500; c_oflag := 5; c_cflag := 0xBF;
                        c_lflag := 0x8A3B;
                        c_cc := [3; 28; 127; 21; 4; 0; 1; 0] |};
              dev_tty := true |}
           {| c_iflag := 0x500; c_oflag := 5; c_cflag := 0xBF; c_lflag := 0x8A3B;
              c_cc := [3; 28; 127; 21; 4; 0; 1; 0] |}).
  - reflexivity.
  - cbn [c_lflag]. lia.
  - cbn [c_cc length]. unfold VMIN. lia.
Defined.

(** X21.  [console_reset] undoes [console_create]: whatever was done to
    the world after a [console_create] without simple I/O, as long as
    the I/O mode was left alone, [console_reset] returns, puts the
    terminal on stdin back to the attributes it had before
    [console_create], and leaves the teletype closed, with the output
    on stdout again when a teletype was open. *)
Theorem console_reset_undoes_create
    (use_advanced_display : bool) (s : System) (w : World) :
  simple (io (console_state w)) = false ->
  exists s',
    console_reset (with_world w (console_create false use_advanced_display s))
      = Some s'
    /\ stdin_termios s' = stdin_termios s
    /\ teletype (io (console_state (world s'))) = None
    /\ (teletype (io (console_state w)) <> None ->
        output (io (console_state (world s'))) = Stdout).
Proof.
  intros Hsimple. unfold console_reset. cbn [world with_world].
  destruct (console_set_display_mode_run CONSOLE_RESET w)
    as (w1 & E & (Hio & _) & _).
  rewrite E, Hio, Hsimple. cbn [negb].
  eexists. split; [reflexivity |].
  cbn [stdin_termios world with_world console_state set_console_state].
  split.
  - unfold console_create, tcsetattr, tcgetattr.
    cbn [negb stdin_termios terminal with_world].
    destruct (stdin_termios s); reflexivity.
  - destruct (teletype (io (console_state w))) eqn:T; cbn [io teletype output].
    + split; [reflexivity | intros _; reflexivity].
    + rewrite Hio. split; [exact T | intros H; congruence].
Qed.

Lemma console_reset_undoes_create_witness :
  exists s',
    console_reset
      (with_world
         (world
            (console_create false true
               {| world := Samples.world Samples.default_state [] [] [];
                  terminal := {| c_iflag := 0; c_oflag := 0; c_cflag := 0;
                                 c_lflag := 0; c_cc := [] |};
                  stdin_termios :=
                    Some {| c_iflag := 0x500; c_oflag := 5; c_cflag := 0xBF;
                            c_lflag := 0x8A3B;
                            c_cc := [3; 28; 127; 21; 4; 0; 1; 0] |};
                  dev_tty := true |}))
         (console_create false true
            {| world := Samples.world Samples.default_state [] [] [];
               terminal := {| c_iflag := 0; c_oflag := 0; c_cflag := 0;
                              c_lflag := 0; c_cc := [] |};
               stdin_termios :=
                 Some {| c_iflag := 0x500; c_oflag := 5; c_cflag := 0xBF;
                         c_lflag := 0x8A3B;
                         c_cc := [3; 28; 127; 21; 4; 0; 1; 0] |};
               dev_tty := true |})) = Some s'
    /\ stdin_termios s' =
         Some {| c_iflag := 0x500; c_oflag := 5; c_cflag := 0xBF;
                 c_lflag := 0x8A3B; c_cc := [3; 28; 127; 21; 4; 0; 1; 0] |}
    /\ teletype (io (console_state (world s'))) = None
    /\ (Some DevTty <> None ->
        output (io (console_state (world s'))) = Stdout).
Proof.
  apply (console_reset_undoes_create true
           {| world := Samples.world Samples.default_state [] [] [];
              terminal := {| c_iflag := 0; c_oflag := 0; c_cflag := 0;
                             c_lflag := 0; c_cc := [] |};
              stdin_termios :=
                Some {| c_iflag := 0x500; c_oflag := 5; c_cflag := 0xBF;
                        c_lflag := 0x8A3B;
                        c_cc := [3; 28; 127; 21; 4; 0; 1; 0] |};
              dev_tty := true |}
           (world
              (console_create false true
                 {| world := Samples.world Samples.default_state [] [] [];
                    terminal := {| c_iflag := 0; c_oflag := 0; c_cflag := 0;
                                   c_lflag := 0; c_cc := [] |};
                    stdin_termios :=
                      Some {| c_iflag := 0x500; c_oflag := 5; c_cflag := 0xBF;
                              c_lflag := 0x8A3B;
                              c_cc := [3; 28; 127; 21; 4; 0; 1; 0] |};
                    dev_tty := true |}))).
  reflexivity.
Defined.

(* ===================================================================== *)
(** ** The example program *)
(* ===================================================================== *)

Lemma kept_refl w : kept w w.
Proof. repeat split. apply Nat.le_refl. Qed.

Lemma kept_trans w1 w2 w3 : kept w1 w2 -> kept w2 w3 -> kept w1 w3.
Proof.
  intros (A1 & B1 & C1 & D1) (A2 & B2 & C2 & D2).
  repeat split; try congruence. eapply Nat.le_trans; eassumption.
Qed.

Ltac kept_bind := eapply (does_bind kept kept_trans).
Ltac kept_ret := apply (does_ret kept kept_refl).

Section MainFacts.
Variable P : Platform.

Lemma kept_console_set_display_mode m :
  does kept (console_set_display_mode m) any.
Proof.
  intros w. destruct (console_set_display_mode_run m w)
    as (w' & E & (Hio & Hcin & Hin) & Hadv & _).
  apply wp_of_run with (a := tt) (w' := w'); [exact E |].
  split; [| exact I]. repeat split.
  - rewrite Hio. reflexivity.
  - exact Hadv.
  - exact Hin.
  - rewrite Hcin. apply Nat.le_refl.
Qed.

Lemma kept_fwrite bytes f : does kept (fwrite bytes f) any.
Proof. intros w. split; [repeat split; apply Nat.le_refl | exact I]. Qed.

Lemma kept_get_console_state : does kept get_console_state any.
Proof. intros w. split; [apply kept_refl | exact I]. Qed.

Lemma kept_set_cin c w :
  (length (buf c) <= length (buf (cin w)))%nat -> kept w (set_cin c w).
Proof. intros H. repeat split. exact H. Qed.

Lemma split_line_length s :
  match Cin.split_line s with
  | (l, Some rest) => length s = S (length l + length rest)
  | (l, None) => l = s
  end.
Proof.
  induction s as [| c s IH]; simpl; [reflexivity |].
  destruct (c =? 10); [reflexivity |].
  destruct (Cin.split_line s) as [l [rest |]]; simpl.
  - rewrite IH. reflexivity.
  - rewrite IH. reflexivity.
Qed.

Lemma skip_space_length s : (length (Scanf.skip_space s) <= length s)%nat.
Proof.
  induction s as [| c s IH]; simpl; [apply Nat.le_refl |].
  destruct (Scanf.isspace c); simpl; lia.
Qed.

(** [std::getline] never puts bytes back, and takes one when it succeeds. *)
Lemma getline_takes ln c :
  (length (buf (snd (Cin.getline ln c))) <= length (buf c))%nat
  /\ (snd (fst (Cin.getline ln c)) = true ->
      (length (buf (snd (Cin.getline ln c))) < length (buf c))%nat).
Proof.
  unfold Cin.getline. destruct (Cin.good c); cbn [negb].
  - pose proof (split_line_length (buf c)) as H.
    destruct (Cin.split_line (buf c)) as [l [rest |]]; cbn [fst snd buf].
    + split; [lia | intros _; lia].
    + subst l. destruct (buf c); cbn [negb length].
      * split; [lia | discriminate].
      * split; [lia | intros _; lia].
  - cbn [fst snd]. split; [apply Nat.le_refl | discriminate].
Qed.

Lemma extract_char_takes c :
  (length (buf (snd (Cin.extract_char c))) <= length (buf c))%nat.
Proof.
  unfold Cin.extract_char. destruct (Cin.good c); cbn [negb].
  - pose proof (skip_space_length (buf c)) as H.
    destruct (Scanf.skip_space (buf c)); cbn [snd buf length] in *; lia.
  - apply Nat.le_refl.
Qed.

Lemma ignore_line_takes c :
  (length (buf (Cin.ignore_line c)) <= length (buf c))%nat.
Proof.
  unfold Cin.ignore_line. destruct (Cin.good c); cbn [negb].
  - pose proof (split_line_length (buf c)) as H.
    destruct (Cin.split_line (buf c)) as [l [rest |]]; cbn [buf length]; lia.
  - apply Nat.le_refl.
Qed.

Lemma kept_from {A} (m : M A) (Q : A -> Prop) w0 w :
  kept w0 w -> does kept m Q -> wp m w (fun a w' => kept w0 w' /\ Q a).
Proof.
  intros H0 Hm. eapply wp_mono; [apply Hm |].
  intros a w' [HR HQ]. split; [eapply kept_trans; eassumption | exact HQ].
Qed.

Lemma kept_skip_line :
  does kept (fun w' => Some (tt, set_cin (Cin.ignore_line (Cin.clear (cin w'))) w'))
    any.
Proof.
  intros w. unfold wp. split; [| exact I].
  apply kept_set_cin. apply (ignore_line_takes (Cin.clear (cin w))).
Qed.

Lemma kept_console_input_character : does kept console_input_character any.
Proof.
  intros w. unfold wp, console_input_character.
  pose proof (extract_char_takes (cin w)) as Hlen.
  destruct (Cin.extract_char (cin w)) as [[control_ch |] c]; cbn [snd] in Hlen.
  - split; [apply kept_set_cin, Hlen | exact I].
  - apply (kept_from _ any w (set_cin c w)); [apply kept_set_cin, Hlen |].
    kept_bind; [apply kept_console_set_display_mode | intros _ _].
    kept_bind; [apply kept_skip_line | intros _ _].
    kept_ret. exact I.
Qed.

Lemma kept_console_input_control : does kept console_input_control any.
Proof.
  unfold console_input_control.
  kept_bind; [apply kept_console_input_character | intros control_ch _].
  destruct (control_ch =? EOF); [kept_ret; exact I |].
  eapply (does_bind kept kept_trans _ _ any); [| intros _ _; kept_ret; exact I].
  destruct (control_ch =? 109); [| kept_ret; exact I].
  intros w. unfold bind, get_console_state, put_console_state, wp.
  split; [| exact I]. repeat split. apply Nat.le_refl.
Qed.

(** One call of the simple reader: it returns, keeps the settings, and
    has taken at least one byte when it reports a line. *)
Lemma console_readline_simple_step ln w :
  exists r w',
    console_readline_simple ln w = Some (r, w')
    /\ kept w w'
    /\ (snd r = true -> (length (buf (cin w')) < length (buf (cin w)))%nat).
Proof.
  unfold console_readline_simple, bind at 1, console_input_string.
  pose proof (getline_takes ln (cin w)) as [Hle Hlt].
  destruct (Cin.getline ln (cin w)) as [[ln' ok] c]. cbn [fst snd] in Hle, Hlt.
  assert (rest : forall (m : M (list Z * bool)) (Q : list Z * bool -> Prop),
             does kept m Q ->
             (forall r, Q r -> snd r = true -> ok = true) ->
             exists r w',
               m (set_cin c w) = Some (r, w')
               /\ kept w w'
               /\ (snd r = true ->
                   (length (buf (cin w')) < length (buf (cin w)))%nat)).
  { intros m Q Hm Hok. pose proof (Hm (set_cin c w)) as H. unfold wp in H.
    destruct (m (set_cin c w)) as [[r w'] |]; [| contradiction].
    destruct H as [Hk HQ]. exists r, w'. split; [reflexivity |]. split.
    - eapply kept_trans; [apply kept_set_cin, Hle | exact Hk].
    - intros Hr. specialize (Hlt (Hok r HQ Hr)).
      destruct Hk as (_ & _ & _ & Hk). cbn [cin set_cin] in Hk. lia. }
  destruct ok; cbn [negb].
  - cbn [fst snd negb].
    apply (rest _ any); [| reflexivity].
    destruct ln' as [| b l].
    + kept_bind; [apply kept_console_set_display_mode | intros _ _].
      kept_ret. exact I.
    + eapply (does_bind kept kept_trans _ _ any).
      * destruct (last (b :: l) 0 =? 27); [| kept_ret; exact I].
        kept_bind; [apply kept_console_input_control | intros _ _].
        kept_ret. exact I.
      * intros _ _. kept_bind; [apply kept_get_console_state | intros s _].
        destruct (negb (multiline (io s))); kept_ret; exact I.
  - apply (rest (r <- (console_set_display_mode CONSOLE_ERROR ;;; ret ([], false)) ;;
                 (let ln0 := fst r in
                  if negb (snd r) then ret (ln0, false)
                  else
                    match ln0 with
                    | [] => console_set_display_mode CONSOLE_ERROR ;;; ret (ln0, true)
                    | _ :: _ =>
                        (if last ln0 0 =? 27
                         then console_input_control ;;; ret tt else ret tt) ;;;
                        s <- get_console_state ;;
                        (if negb (multiline (io s)) then ret (ln0 ++ [10], true)
                         else ret (ln0, true))
                    end))
             (fun r => snd r = false)).
    + eapply (does_bind kept kept_trans _ _ (fun r => r = ([], false))).
      * kept_bind; [apply kept_console_set_display_mode | intros _ _].
        kept_ret. reflexivity.
      * intros r ->. cbn [fst snd negb]. kept_ret. reflexivity.
    + intros r H1 H2. congruence.
Qed.

(** The same of [console_readline] when simple I/O is on. *)
Lemma console_readline_step ln w :
  simple (io (console_state w)) = true ->
  exists r w',
    console_readline P ln w = Some (r, w')
    /\ kept w w'
    /\ (snd r = true -> (length (buf (cin w')) < length (buf (cin w)))%nat).
Proof.
  intros Hs. unfold console_readline, bind, get_console_state.
  destruct (console_set_display_mode_run CONSOLE_INPUT w)
    as (w1 & E & (Hio & Hcin & Hin) & Hadv & _).
  rewrite E, Hio, Hs.
  destruct (console_readline_simple_step ln w1) as (r & w' & E' & Hk & Hlt).
  exists r, w'. split; [exact E' |].
  assert (K1 : kept w w1).
  { repeat split; [rewrite Hio; reflexivity | exact Hadv | exact Hin |].
    rewrite Hcin. apply Nat.le_refl. }
  split; [eapply kept_trans; eassumption |].
  intros Hr. specialize (Hlt Hr). rewrite Hcin in Hlt. exact Hlt.
Qed.

(** The loop of [main] ends on every input. *)
Lemma main_loop_returns fuel ln w :
  simple (io (console_state w)) = true ->
  (length (buf (cin w)) < fuel)%nat ->
  exists w', main_loop P fuel ln w = Some (tt, w') /\ kept w w'.
Proof.
  revert ln w. induction fuel as [| fuel IH]; intros ln w Hs Hlen; [lia |].
  cbn [main_loop]. unfold cout at 1, bind at 1, fwrite at 1.
  set (w0 := add_written Stdout Text.prompt w).
  assert (K0 : kept w w0) by (repeat split; apply Nat.le_refl).
  destruct (console_readline_step ln w0 Hs) as (r & w1 & E & K1 & Hlt).
  unfold bind at 1. rewrite E. destruct r as [ln1 ok]. cbn [fst snd] in *.
  destruct ok; cbn [negb].
  - unfold bind at 1, get_console_state at 1.
    destruct (negb (multiline (io (console_state w1)))).
    + eexists. split; [reflexivity |].
      eapply kept_trans; [exact K0 |]. eapply kept_trans; [exact K1 |].
      repeat split. apply Nat.le_refl.
    + unfold cout at 1, bind at 1, fwrite at 1.
      set (w2 := add_written Stdout (ln1 ++ [10]) w1).
      destruct (IH ln1 w2) as (w3 & E3 & K3).
      * destruct K1 as (A & _). change (simple (io (console_state w1)) = true).
        rewrite A. exact Hs.
      * specialize (Hlt eq_refl).
        change (length (buf (cin w1)) < fuel)%nat.
        change (length (buf (cin w0))) with (length (buf (cin w))) in Hlt. lia.
      * exists w3. split; [exact E3 |].
        eapply kept_trans; [exact K0 |]. eapply kept_trans; [exact K1 |].
        eapply kept_trans; [| exact K3]. repeat split. apply Nat.le_refl.
  - assert (Hm : does kept
                   (console_set_display_mode CONSOLE_ERROR ;;;
                    cout Text.read_failed ;;;
                    console_set_display_mode CONSOLE_INPUT) any).
    { kept_bind; [apply kept_console_set_display_mode | intros _ _].
      kept_bind; [apply kept_fwrite | intros _ _].
      apply kept_console_set_display_mode. }
    specialize (Hm w1). unfold wp in Hm.
    destruct ((console_set_display_mode CONSOLE_ERROR ;;;
               cout Text.read_failed ;;;
               console_set_display_mode CONSOLE_INPUT) w1) as [[[] w2] |];
      [| contradiction].
    exists w2. split; [reflexivity |].
    eapply kept_trans; [exact K0 |]. eapply kept_trans; [exact K1 |]. apply Hm.
Qed.

End MainFacts.

Section MainRuns.
Variable P : Platform.

Lemma main_body_returns w :
  simple (io (console_state w)) = true ->
  exists w', main_body P w = Some (tt, w') /\ kept w w'.
Proof.
  intros Hs. unfold main_body.
  assert (H1 : does kept
                 (console_set_display_mode CONSOLE_PROMPT ;;;
                  cout Text.prompt_banner ;;;
                  console_set_display_mode CONSOLE_INPUT) any).
  { kept_bind; [apply kept_console_set_display_mode | intros _ _].
    kept_bind; [apply kept_fwrite | intros _ _].
    apply kept_console_set_display_mode. }
  assert (H2 : does kept
                 (console_set_display_mode CONSOLE_ERROR ;;;
                  cout Text.error_banner) any).
  { kept_bind; [apply kept_console_set_display_mode | intros _ _].
    apply kept_fwrite. }
  unfold bind at 1. destruct (console_set_display_mode_run CONSOLE_PROMPT w)
    as (w1 & E1 & (Hio1 & Hcin1 & Hin1) & Hadv1 & _).
  rewrite E1. unfold bind at 1, cout at 1, fwrite at 1.
  set (w2 := add_written Stdout Text.prompt_banner w1).
  unfold bind at 1. destruct (console_set_display_mode_run CONSOLE_INPUT w2)
    as (w3 & E3 & (Hio3 & Hcin3 & Hin3) & Hadv3 & _).
  rewrite E3. unfold bind at 1.
  assert (K3 : kept w w3).
  { repeat split.
    - rewrite Hio3. change (io (console_state w2)) with (io (console_state w1)).
      rewrite Hio1. reflexivity.
    - rewrite Hadv3. exact Hadv1.
    - rewrite Hin3. exact Hin1.
    - rewrite Hcin3. change (cin w2) with (cin w1). rewrite Hcin1.
      apply Nat.le_refl. }
  destruct (main_loop_returns P (S (length (buf (cin w3)))) [] w3)
    as (w4 & E4 & K4).
  { destruct K3 as (A & _). rewrite A. exact Hs. }
  { lia. }
  rewrite E4.
  specialize (H2 w4). unfold wp in H2.
  destruct ((console_set_display_mode CONSOLE_ERROR ;;; cout Text.error_banner) w4)
    as [[[] w5] |]; [| contradiction].
  exists w5. split; [reflexivity |].
  eapply kept_trans; [exact K3 |]. eapply kept_trans; [exact K4 |]. apply H2.
Qed.

End MainRuns.

(** X22.  The example program ends on every input: [main] returns 0
    whatever [std::cin] holds.  Running in simple I/O, it never changes
    the terminal attributes, takes nothing from the wide-character
    keyboard input, and leaves the display in the RESET mode. *)
Theorem main_returns (P : Platform) (s : System) :
  exists s',
    main P s = Some (0, s')
    /\ stdin_termios s' = stdin_termios s
    /\ terminal s' = terminal s
    /\ stdin_wide (world s') = stdin_wide (world s)
    /\ mode (display (console_state (world s'))) = CONSOLE_RESET.
Proof.
  unfold main. cbn [console_create negb world with_world].
  set (w0 := set_console_state _ (world s)).
  destruct (main_body_returns P w0 eq_refl) as (w1 & E1 & (Ks & Ka & Kin & _)).
  rewrite E1. unfold console_reset. cbn [world with_world].
  destruct (console_set_display_mode_run CONSOLE_RESET w1)
    as (w2 & E2 & (Hio & _ & Hin) & _ & Hmode).
  rewrite E2, Hio, Ks. cbn [simple io console_state set_console_state w0 negb].
  eexists. split; [reflexivity |]. cbn [world with_world stdin_termios terminal].
  split; [reflexivity |]. split; [reflexivity |].
  split; [rewrite Hin, Kin; reflexivity |].
  rewrite Hmode, Ka. reflexivity.
Qed.

Lemma console_readline_line (P : Platform) ln text rest w :
  simple (io (console_state w)) = true ->
  mode (display (console_state w)) = CONSOLE_INPUT ->
  Cin.good (cin w) = true ->
  buf (cin w) = text ++ 10 :: rest ->
  text <> [] ->
  ~ In 10 text ->
  last text 0 <> 27 ->
  console_readline P ln w =
  Some ((if flag w then text else text ++ [10], true),
        set_cin {| buf := rest; eofbit := false; failbit := false;
                   badbit := false |} w).
Proof.
  intros Hs Hm Hgood Hbuf Hne Hno Hlast.
  assert (Hesc : (last text 0 =? 27) = false) by (apply Z.eqb_neq; exact Hlast).
  unfold console_readline, console_set_display_mode, bind, get_console_state.
  rewrite Hm. cbn [mode_eqb negb]. rewrite andb_false_r. unfold ret. rewrite Hs.
  unfold console_readline_simple, bind, console_input_string, Cin.getline.
  rewrite Hgood, Hbuf, split_line_terminated by exact Hno.
  cbn [negb fst snd]. destruct text as [| b l]; [congruence |].
  rewrite Hesc. unfold ret, get_console_state.
  cbn [console_state set_cin]. unfold flag.
  destruct (multiline (io (console_state w))); reflexivity.
Qed.

(** X23.  The example program stops after the first line.  Started as
    the program starts (multi-line flag off, display mode RESET) on a
    good [std::cin] whose first line is not empty and does not end in
    ESC, [main] reads that line only, never echoes it, writes
    [Exiting multiline mode.] and leaves the rest of the input unread. *)
Theorem main_exits_after_first_line
    (P : Platform) (s : System) (text rest : list Z) :
  multiline (io (console_state (world s))) = false ->
  mode (display (console_state (world s))) = CONSOLE_RESET ->
  Cin.good (cin (world s)) = true ->
  buf (cin (world s)) = text ++ 10 :: rest ->
  text <> [] ->
  ~ In 10 text ->
  last text 0 <> 27 ->
  exists s',
    main P s = Some (0, s')
    /\ buf (cin (world s')) = rest
    /\ written (world s') =
         written (world s) ++
         [(output (io (console_state (world s))), ANSI_COLOR_YELLOW);
          (Stdout, Text.prompt_banner);
          (output (io (console_state (world s))), ANSI_BOLD ++ ANSI_COLOR_GREEN);
          (Stdout, Text.prompt);
          (Stdout, Text.exiting);
          (output (io (console_state (world s))), ANSI_BOLD ++ ANSI_COLOR_RED);
          (Stdout, Text.error_banner);
          (output (io (console_state (world s))), ANSI_COLOR_RESET)].
Proof.
  intros Hflag Hmode Hgood Hbuf Hne Hno Hlast.
  assert (Hesc : (last text 0 =? 27) = false) by (apply Z.eqb_neq; exact Hlast).
  destruct s as [[[[si mu ou te] [ad mo]] sw [b e f bd] tr col wr] term st dt].
  cbn [world console_state io display multiline mode cin buf] in Hflag, Hmode, Hbuf.
  subst mu mo b.
  unfold Cin.good in Hgood. cbn [cin world eofbit failbit badbit] in Hgood.
  destruct e, f, bd; try discriminate Hgood. clear Hgood.
  cbn [world console_state io output written cin buf].
  unfold main, main_body, console_create. cbn [negb world with_world].
  unfold bind at 1. cbn.
  unfold bind. cbv beta.
  erewrite (console_readline_line P [] text rest);
    [| reflexivity | reflexivity | reflexivity | reflexivity | exact Hne
     | exact Hno | exact Hlast].
  cbn.
  eexists. split; [reflexivity |]. split; [reflexivity |].
  cbn. rewrite <- !app_assoc. reflexivity.
Qed.

Lemma main_exits_after_first_line_witness :
  exists s',
    main Samples.linux
      {| world := Samples.world Samples.default_state [] [104; 105; 10; 120; 10] [];
         terminal := {| c_iflag := 0; c_oflag := 0; c_cflag := 0; c_lflag := 0;
                        c_cc := [] |};
         stdin_termios := None;
         dev_tty := false |} = Some (0, s')
    /\ buf (cin (world s')) = [120; 10]
    /\ written (world s') =
         [] ++
         [(Stdout, ANSI_COLOR_YELLOW);
          (Stdout, Text.prompt_banner);
          (Stdout, ANSI_BOLD ++ ANSI_COLOR_GREEN);
          (Stdout, Text.prompt);
          (Stdout, Text.exiting);
          (Stdout, ANSI_BOLD ++ ANSI_COLOR_RED);
          (Stdout, Text.error_banner);
          (Stdout, ANSI_COLOR_RESET)].
Proof.
  apply (main_exits_after_first_line Samples.linux
           {| world := Samples.world Samples.default_state [] [104; 105; 10; 120; 10] [];
              terminal := {| c_iflag := 0; c_oflag := 0; c_cflag := 0; c_lflag := 0;
                             c_cc := [] |};
              stdin_termios := None;
              dev_tty := false |}
           [104; 105] [120; 10]).
  - reflexivity.
  - reflexivity.
  - reflexivity.
  - reflexivity.
  - discriminate.
  - intros [H | [H | []]]; discriminate.
  - discriminate.
Defined.

(* ===================================================================== *)
(** ** The line buffer of the prototype *)
(* ===================================================================== *)

Module ProtoFacts.
Import Proto.

Lemma length_upd i v b : (i < List.length b)%nat -> List.length (upd i v b) = List.length b.
Proof.
  intros H. unfold upd. rewrite length_app, length_firstn. cbn [List.length].
  rewrite length_skipn. lia.
Qed.

Lemma firstn_upd_le k i v b :
  (k <= i)%nat -> (i < List.length b)%nat -> firstn k (upd i v b) = firstn k b.
Proof.
  intros Hk Hi. unfold upd. rewrite firstn_app, length_firstn.
  replace (k - Nat.min i (List.length b))%nat with 0%nat by lia.
  cbn [firstn]. rewrite app_nil_r, firstn_firstn. f_equal. lia.
Qed.

Lemma firstn_upd_S i v b :
  (i < List.length b)%nat -> firstn (S i) (upd i v b) = firstn i b ++ [v].
Proof.
  intros Hi. unfold upd. rewrite firstn_app, length_firstn.
  replace (S i - Nat.min i (List.length b))%nat with 1%nat by lia.
  rewrite (firstn_all2 (n := S i)) by (rewrite length_firstn; lia). reflexivity.
Qed.

Lemma nth_upd i v b d : (i < List.length b)%nat -> nth i (upd i v b) d = v.
Proof.
  intros Hi. unfold upd. rewrite app_nth2 by (rewrite length_firstn; lia).
  rewrite length_firstn. replace (i - Nat.min i (List.length b))%nat with 0%nat by lia.
  reflexivity.
Qed.

Lemma skipn_upd k i v b :
  (i < k)%nat -> (i < List.length b)%nat -> skipn k (upd i v b) = skipn k b.
Proof.
  intros Hk Hi. unfold upd. rewrite skipn_app, length_firstn.
  rewrite skipn_all2 by (rewrite length_firstn; lia).
  replace (k - Nat.min i (List.length b))%nat with (S (k - S i)) by lia.
  rewrite skipn_cons. cbn [app]. rewrite skipn_skipn. f_equal. lia.
Qed.

Lemma store_in b i v :
  0 <= i < Z.of_nat (List.length b) -> store b i v = Some (upd (Z.to_nat i) v b).
Proof.
  intros H. unfold store, in_bounds.
  replace (0 <=? i) with true by (symmetry; apply Z.leb_le; lia).
  replace (i <? Z.of_nat (List.length b)) with true by (symmetry; apply Z.ltb_lt; lia).
  reflexivity.
Qed.

Lemma load_in b i :
  0 <= i < Z.of_nat (List.length b) -> load b i = Some (nth (Z.to_nat i) b 0).
Proof.
  intros H. unfold load, in_bounds.
  replace (0 <=? i) with true by (symmetry; apply Z.leb_le; lia).
  replace (i <? Z.of_nat (List.length b)) with true by (symmetry; apply Z.ltb_lt; lia).
  reflexivity.
Qed.

Lemma to_size_t_small x : 0 <= x < 2 ^ 64 -> to_size_t x = x.
Proof. intros H. unfold to_size_t. apply Z.mod_small. exact H. Qed.

Lemma length_block fill from n : List.length (block fill from n) = n.
Proof. unfold block. rewrite length_map, length_seq. reflexivity. Qed.

Lemma skipn_nth k : forall b : list Z,
  (k < List.length b)%nat -> skipn k b = nth k b 0 :: skipn (S k) b.
Proof.
  induction k as [| k IH]; intros [| x b] H; cbn [List.length] in H; try lia.
  - reflexivity.
  - cbn [skipn nth]. rewrite (IH b) by lia. reflexivity.
Qed.

(** The loop moves the [n] bytes after [i] one place down. *)
Lemma shift_left_moves n : forall (i : nat) b,
  (i + n < List.length b)%nat ->
  Z.of_nat (List.length b) < 2 ^ 64 ->
  shift_left n (Z.of_nat i) b =
  Some (firstn i b ++ firstn n (skipn (S i) b) ++ skipn (i + n) b).
Proof.
  induction n as [| n IH]; intros i b Hlen Hmax.
  - cbn [shift_left firstn app]. rewrite Nat.add_0_r, firstn_skipn. reflexivity.
  - cbn [shift_left].
    rewrite to_size_t_small by lia.
    rewrite load_in by lia. rewrite store_in by lia.
    replace (Z.of_nat i + 1) with (Z.of_nat (S i)) by lia.
    rewrite !Nat2Z.id.
    rewrite IH by (rewrite ?length_upd; lia).
    f_equal.
    rewrite firstn_upd_S by lia.
    rewrite !skipn_upd by lia.
    rewrite <- app_assoc. f_equal. cbn [app].
    replace (S i + n)%nat with (i + S n)%nat by lia.
    rewrite app_comm_cons. f_equal.
    rewrite (skipn_nth (S i) b) by lia. reflexivity.
Qed.


Lemma shift_left_from n (index : Z) b :
  0 <= index ->
  (Z.to_nat index + n < List.length b)%nat ->
  Z.of_nat (List.length b) < 2 ^ 64 ->
  shift_left n index b =
  Some (firstn (Z.to_nat index) b ++
        firstn n (skipn (S (Z.to_nat index)) b) ++
        skipn (Z.to_nat index + n) b).
Proof.
  intros H0 Hlen Hmax.
  rewrite <- (shift_left_moves n (Z.to_nat index) b Hlen Hmax).
  rewrite Z2Nat.id by exact H0. reflexivity.
Qed.

End ProtoFacts.

(** X24.  [console_line_append_char] appends.  On a well-formed line
    whose size can still double, it never writes outside the buffer;
    when it returns true the line is well formed again, its text is the
    old text followed by [c], and the buffer has doubled only if it was
    full; it returns false only when the buffer was full and [realloc]
    failed, and then the line is untouched. *)
Theorem append_char_appends
    (heap : option (nat -> Z)) (l : Proto.ConsoleLine) (c : Z) :
  Proto.line_ok l ->
  2 * Proto.size l < 2 ^ 64 ->
  exists ok l',
    Proto.console_line_append_char heap l c = Some (ok, l')
    /\ if ok
       then Proto.line_ok l'
            /\ Proto.text l' = Proto.text l ++ [c]
            /\ (Proto.size l' = Proto.size l
                \/ (Proto.length l + 1 = Proto.size l
                    /\ Proto.size l' = 2 * Proto.size l))
       else l' = l /\ heap = None /\ Proto.length l + 1 = Proto.size l.
Proof.
  intros (Hb & Hl & Hs & Ht) Hd.
  unfold Proto.console_line_append_char.
  rewrite ProtoFacts.to_size_t_small by lia.
  assert (Hfin : forall b sz,
             List.length b = Z.to_nat sz ->
             Proto.length l + 1 < sz -> sz < 2 ^ 64 ->
             firstn (Z.to_nat (Proto.length l)) b = Proto.text l ->
             (sz = Proto.size l
              \/ (Proto.length l + 1 = Proto.size l /\ sz = 2 * Proto.size l)) ->
             exists ok l',
               match Proto.store b (Proto.length l) c with
               | Some b0 =>
                   match Proto.store b0 (Proto.length l + 1) 0 with
                   | Some b1 =>
                       Some (true, {| Proto.buffer := b1; Proto.size := sz;
                                      Proto.length := Proto.length l + 1 |})
                   | None => None
                   end
               | None => None
               end = Some (ok, l')
               /\ if ok
                  then Proto.line_ok l'
                       /\ Proto.text l' = Proto.text l ++ [c]
                       /\ (Proto.size l' = Proto.size l
                           \/ (Proto.length l + 1 = Proto.size l
                               /\ Proto.size l' = 2 * Proto.size l))
                  else l' = l /\ heap = None /\ Proto.length l + 1 = Proto.size l).
  { intros b sz Hbl Hlt Hmax Htxt Hsz.
    rewrite ProtoFacts.store_in by lia.
    rewrite ProtoFacts.store_in by (rewrite ProtoFacts.length_upd; lia).
    eexists _, _. split; [reflexivity |]. cbn beta iota.
    split; [| split; [| exact Hsz]].
    - unfold Proto.line_ok. cbn [Proto.buffer Proto.size Proto.length].
      rewrite !ProtoFacts.length_upd by (rewrite ?ProtoFacts.length_upd; lia).
      split; [exact Hbl |]. split; [lia |]. split; [exact Hmax |].
      apply ProtoFacts.nth_upd. rewrite ProtoFacts.length_upd; lia.
    - unfold Proto.text at 1. cbn [Proto.buffer Proto.length].
      rewrite ProtoFacts.firstn_upd_le
        by (rewrite ?ProtoFacts.length_upd; lia).
      replace (Z.to_nat (Proto.length l + 1))
        with (S (Z.to_nat (Proto.length l))) by lia.
      rewrite ProtoFacts.firstn_upd_S by lia. rewrite Htxt. reflexivity. }
  destruct (Proto.length l + 1 >=? Proto.size l) eqn:Efull.
  - rewrite Z.geb_leb in Efull. apply Z.leb_le in Efull.
    assert (Heq : Proto.length l + 1 = Proto.size l) by lia.
    destruct heap as [fill |]; cbn [Proto.realloc].
    + rewrite ProtoFacts.to_size_t_small by lia.
      cbn [Proto.buffer Proto.size Proto.length].
      rewrite ProtoFacts.to_size_t_small by lia.
      apply Hfin.
      * rewrite length_app, length_firstn, ProtoFacts.length_block. lia.
      * lia.
      * lia.
      * rewrite firstn_app, firstn_firstn, length_firstn.
        replace (Z.to_nat (Proto.length l) -
                 Nat.min (Z.to_nat (Proto.size l * 2)) (List.length (Proto.buffer l)))%nat
          with 0%nat by lia.
        cbn [firstn]. rewrite app_nil_r. unfold Proto.text. f_equal. lia.
      * right. split; [exact Heq | lia].
    + exists false, l. split; [reflexivity |]. repeat split. exact Heq.
  - rewrite Z.geb_leb in Efull. apply Z.leb_gt in Efull.
    rewrite ProtoFacts.to_size_t_small by lia.
    destruct l as [b sz len]. cbn [Proto.buffer Proto.size Proto.length] in *.
    apply (Hfin b sz); try assumption; try lia; reflexivity.
Qed.

Lemma append_char_appends_witness :
  exists ok l',
    Proto.console_line_append_char (Some (fun _ => 7))
      {| Proto.buffer := [104; 0]; Proto.size := 2; Proto.length := 1 |} 105
      = Some (ok, l')
    /\ if ok
       then Proto.line_ok l'
            /\ Proto.text l' = [104] ++ [105]
            /\ (Proto.size l' = 2 \/ (1 + 1 = 2 /\ Proto.size l' = 2 * 2))
       else l' = {| Proto.buffer := [104; 0]; Proto.size := 2; Proto.length := 1 |}
            /\ Some (fun _ : nat => 7) = None /\ 1 + 1 = 2.
Proof.
  apply (append_char_appends (Some (fun _ => 7))
           {| Proto.buffer := [104; 0]; Proto.size := 2; Proto.length := 1 |} 105).
  - unfold Proto.line_ok. cbn. repeat split; lia.
  - cbn. lia.
Defined.

(** X25.  [console_line_remove_char] removes the character at [index].
    On a well-formed line it never reads or writes outside the buffer;
    for an index inside the text it returns true, the text loses
    exactly that character, the line stays well formed and the buffer
    keeps its size; for any other index it returns false and the line
    is untouched. *)
Theorem remove_char_removes (l : Proto.ConsoleLine) (index : Z) :
  Proto.line_ok l ->
  0 <= index < 2 ^ 64 ->
  exists ok l',
    Proto.console_line_remove_char (Some l) index = Some (ok, Some l')
    /\ if index <? Proto.length l
       then ok = true
            /\ Proto.line_ok l'
            /\ Proto.text l' =
                 firstn (Z.to_nat index) (Proto.text l) ++
                 skipn (S (Z.to_nat index)) (Proto.text l)
            /\ Proto.size l' = Proto.size l
            /\ Proto.length l' = Proto.length l - 1
       else ok = false /\ l' = l.
Proof.
  intros (Hb & Hl & Hs & Ht) Hi.
  unfold Proto.console_line_remove_char.
  destruct (index <? Proto.length l) eqn:E.
  - apply Z.ltb_lt in E.
    replace (index >=? Proto.length l) with false
      by (symmetry; rewrite Z.geb_leb; apply Z.leb_gt; lia).
    rewrite ProtoFacts.to_size_t_small by lia.
    set (i := Z.to_nat index).
    set (n := Z.to_nat (Proto.length l - 1 - index)).
    assert (Hin : (i + n < List.length (Proto.buffer l))%nat) by lia.
    rewrite (ProtoFacts.shift_left_from n index) by (fold i; lia). fold i.
    set (shifted := firstn i (Proto.buffer l) ++
                    firstn n (skipn (S i) (Proto.buffer l)) ++
                    skipn (i + n) (Proto.buffer l)).
    assert (Hlen : List.length shifted = List.length (Proto.buffer l)).
    { unfold shifted. rewrite !length_app, !length_firstn, !length_skipn. lia. }
    rewrite ProtoFacts.store_in by lia.
    eexists _, _. split; [reflexivity |].
    split; [reflexivity |]. split; [| split; [| split; reflexivity]].
    + unfold Proto.line_ok. cbn [Proto.buffer Proto.size Proto.length].
      rewrite ProtoFacts.length_upd by lia.
      split; [lia |]. split; [lia |]. split; [exact Hs |].
      apply ProtoFacts.nth_upd. lia.
    + unfold Proto.text. cbn [Proto.buffer Proto.length].
      rewrite ProtoFacts.firstn_upd_le by lia.
      replace (Z.to_nat (Proto.length l - 1)) with (i + n)%nat by lia.
      unfold shifted. rewrite app_assoc.
      rewrite firstn_app.
      rewrite length_app, !length_firstn, length_skipn.
      replace (i + n - _)%nat with 0%nat by lia.
      cbn [firstn]. rewrite app_nil_r.
      rewrite firstn_all2
        by (rewrite length_app, !length_firstn, length_skipn; lia).
      rewrite firstn_firstn, skipn_firstn_comm.
      f_equal; f_equal; lia.
  - apply Z.ltb_ge in E.
    replace (index >=? Proto.length l) with true
      by (symmetry; rewrite Z.geb_leb; apply Z.leb_le; lia).
    exists false, l. split; [reflexivity |]. split; reflexivity.
Qed.

Lemma remove_char_removes_witness :
  exists ok l',
    Proto.console_line_remove_char
      (Some {| Proto.buffer := [104; 105; 33; 0]; Proto.size := 4;
               Proto.length := 3 |}) 1 = Some (ok, Some l')
    /\ if 1 <? 3
       then ok = true
            /\ Proto.line_ok l'
            /\ Proto.text l' =
                 firstn (Z.to_nat 1) [104; 105; 33] ++
                 skipn (S (Z.to_nat 1)) [104; 105; 33]
            /\ Proto.size l' = 4
            /\ Proto.length l' = 3 - 1
       else ok = false
            /\ l' = {| Proto.buffer := [104; 105; 33; 0]; Proto.size := 4;
                       Proto.length := 3 |}.
Proof.
  apply (remove_char_removes
           {| Proto.buffer := [104; 105; 33; 0]; Proto.size := 4;
              Proto.length := 3 |} 1).
  - unfold Proto.line_ok. cbn. repeat split; lia.
  - lia.
Defined.

(** X26.  [console_create_line] returns NULL exactly when one of its
    two allocations fails.  When both succeed it hands out an empty,
    well-formed line: the buffer has the requested size, or 64 bytes
    when 0 was asked for, whatever the fresh memory holds. *)
Theorem create_line_is_empty
    (line_allocated : bool) (heap : option (nat -> Z)) (size : Z) :
  0 <= size < 2 ^ 64 ->
  match line_allocated, heap with
  | true, Some _ =>
      exists l,
        Proto.console_create_line line_allocated heap size = Some l
        /\ Proto.line_ok l
        /\ Proto.text l = []
        /\ Proto.size l = (if size =? 0 then 64 else size)
  | _, _ => Proto.console_create_line line_allocated heap size = None
  end.
Proof.
  intros Hs. unfold Proto.console_create_line.
  destruct line_allocated; cbn [negb]; [| destruct heap; reflexivity].
  destruct heap as [fill |]; [| reflexivity].
  rewrite (Z.eqb_sym 0 size).
  set (sz := if size =? 0 then 64 else size).
  assert (Hsz : 0 < sz < 2 ^ 64).
  { unfold sz. destruct (Z.eqb_spec size 0); lia. }
  rewrite ProtoFacts.store_in by (rewrite ProtoFacts.length_block; lia).
  eexists. split; [reflexivity |].
  unfold Proto.line_ok, Proto.text. cbn [Proto.buffer Proto.size Proto.length].
  rewrite ProtoFacts.length_upd by (rewrite ProtoFacts.length_block; lia).
  rewrite ProtoFacts.length_block.
  repeat split; lia.
Qed.

Lemma create_line_is_empty_witness :
  (exists l,
     Proto.console_create_line true (Some (fun _ => 7)) 0 = Some l
     /\ Proto.line_ok l
     /\ Proto.text l = []
     /\ Proto.size l = 64)
  /\ Proto.console_create_line true None 16 = None
  /\ Proto.console_create_line false (Some (fun _ => 7)) 16 = None.
Proof.
  split; [| split].
  - apply (create_line_is_empty true (Some (fun _ => 7)) 0). lia.
  - apply (create_line_is_empty true None 16). lia.
  - apply (create_line_is_empty false (Some (fun _ => 7)) 16). lia.
Defined.
